(** * foundry-agent: tool registry, run poller, dispatcher, extractor, metrics

    A shallow embedding of [src/tools.py] (ToolRegistry) and [src/agent.py]
    (AgentMetrics, FoundryAgent) with the properties the specification states
    about them.

    Python methods become functions in a state-and-exception monad: a method
    receives the object it mutates and returns either a value or the raised
    exception, together with the object as the method left it.  The remote
    agent service, the clock and [asyncio.sleep] are an interface ([Service])
    over an abstract world; every call through it is appended to a trace so
    that fetches, sleeps and submissions can be counted. *)

From Stdlib Require Import ZArith QArith Floats Uint63 Ascii String Lia.
From Equations Require Import Equations.
From stdpp Require Import base option gmap strings list pretty.

#[local] Set Warnings "-register-all".
Local Open Scope Z_scope.
Local Open Scope string_scope.

(** ** Python values and exceptions *)

(** The values that cross the tool boundary: what [json.loads] produces and
    what handlers return.  [PObject cls] is an instance of a class [cls]
    that is neither a JSON value nor a mapping; [json.dumps] rejects it. *)
Inductive pyval : Type :=
| PNone
| PBool (b : bool)
| PInt (z : Z)
| PFloat (f : float)
| PStr (s : string)
| PList (l : list pyval)
| PDict (d : list (string * pyval))
| PObject (cls : string).

(** [type(v).__name__] *)
Definition type_name (v : pyval) : string :=
  match v with
  | PNone => "NoneType"
  | PBool _ => "bool"
  | PInt _ => "int"
  | PFloat _ => "float"
  | PStr _ => "str"
  | PList _ => "list"
  | PDict _ => "dict"
  | PObject cls => cls
  end.

(** An exception object: its class name, what [str(e)] gives, and its
    [__cause__] (set by [raise X from e]).  [Exn] is an instance of a class
    [Exception] or below, which [except Exception] handles; [BaseExn] is an
    instance of a class below [BaseException] that is not below [Exception]
    ([SystemExit], [KeyboardInterrupt], [asyncio.CancelledError]), which
    [except Exception] lets through. *)
Inductive exn : Type :=
| Exn (cls : string) (msg : string) (cause : option exn)
| BaseExn (cls : string) (msg : string) (cause : option exn).

Definition exn_class (e : exn) : string :=
  match e with Exn c _ _ | BaseExn c _ _ => c end.
Definition exn_str (e : exn) : string :=
  match e with Exn _ m _ | BaseExn _ m _ => m end.
Definition exn_cause (e : exn) : option exn :=
  match e with Exn _ _ c | BaseExn _ _ c => c end.

(** [isinstance(e, Exception)] *)
Definition is_Exception (e : exn) : bool :=
  match e with Exn _ _ _ => true | BaseExn _ _ _ => false end.

Definition ValueError (msg : string) : exn := Exn "ValueError" msg None.
Definition TypeError (msg : string) : exn := Exn "TypeError" msg None.
Definition RuntimeError (msg : string) : exn := Exn "RuntimeError" msg None.
Definition TimeoutError (msg : string) : exn := Exn "TimeoutError" msg None.
Definition AttributeError (msg : string) : exn := Exn "AttributeError" msg None.
Definition CancelledError (msg : string) : exn :=
  BaseExn "CancelledError" msg None.
Definition SystemExit (msg : string) : exn := BaseExn "SystemExit" msg None.

(** The outcome of a call that reads no state. *)
Definition result (A : Type) : Type := exn + A.

(** ** The monad of methods: state passing with exceptions

    State written before an exception is raised stays written, as in Python. *)
Definition M (S A : Type) : Type := S -> result A * S.

Definition ret {S A} (a : A) : M S A := fun s => (inr a, s).

Definition raise {S A} (e : exn) : M S A := fun s => (inl e, s).

Definition bind {S A B} (m : M S A) (k : A -> M S B) : M S B :=
  fun s => match m s with
           | (inr a, s') => k a s'
           | (inl e, s') => (inl e, s')
           end.

(** [try: m  except Exception as e: h e].  An exception that is not an
    [Exception] is not handled: it leaves the statement as it was raised. *)
Definition try_except {S A} (m : M S A) (h : exn -> M S A) : M S A :=
  fun s => match m s with
           | (inr a, s') => (inr a, s')
           | (inl e, s') => if is_Exception e then h e s' else (inl e, s')
           end.

(** A call whose outcome does not depend on the state. *)
Definition lift {S A} (r : result A) : M S A := fun s => (r, s).

Definition gets {S A} (f : S -> A) : M S A := fun s => (inr (f s), s).

Definition modify {S} (f : S -> S) : M S unit := fun s => (inr tt, f s).

Declare Scope py_scope.
Delimit Scope py_scope with py.
Notation "x <- m ;; k" := (bind m (fun x => k))
  (at level 100, m at next level, right associativity) : py_scope.
Notation "m ;;; k" := (bind m (fun _ => k))
  (at level 100, right associativity) : py_scope.
Local Open Scope py_scope.

(** ** Python floats

    The arithmetic [AgentMetrics] and [run] use on floats.  [f_of_int] is the
    conversion Python applies to an [int] operand of a mixed operation and
    [f_round] is the builtin [round(x, ndigits)].  The code is written once
    over this interface; [binary64] is what CPython computes, [exact_Q] is the
    same code over the rationals. *)
Class PyFloat (F : Type) : Type := {
  f_add : F -> F -> F;
  f_sub : F -> F -> F;
  f_mul : F -> F -> F;
  f_div : F -> F -> F;
  f_of_int : Z -> F;
  f_round : F -> Z -> F
}.

(** IEEE 754 binary64.  The conversion from [int] is exact for every count
    below 2^53 and correctly rounded below 2^63. *)
Definition binary64 (py_round : float -> Z -> float) : PyFloat float := {|
  f_add := PrimFloat.add;
  f_sub := PrimFloat.sub;
  f_mul := PrimFloat.mul;
  f_div := PrimFloat.div;
  f_of_int := fun z => PrimFloat.of_uint63 (Uint63.of_Z z);
  f_round := py_round
|}.

Definition exact_Q (q_round : Q -> Z -> Q) : PyFloat Q := {|
  f_add := Qplus;
  f_sub := Qminus;
  f_mul := Qmult;
  f_div := Qdiv;
  f_of_int := inject_Z;
  f_round := q_round
|}.

(** ** agent.py: AgentMetrics *)

Record AgentMetrics (F : Type) : Type := {
  total_runs : Z;
  successful_runs : Z;
  failed_runs : Z;
  total_tokens_used : Z;
  average_response_time : F;
  tool_calls_made : Z
}.
Arguments total_runs {F} _.
Arguments successful_runs {F} _.
Arguments failed_runs {F} _.
Arguments total_tokens_used {F} _.
Arguments average_response_time {F} _.
Arguments tool_calls_made {F} _.

(** The snapshot [to_dict] builds. *)
Record MetricsDict (F : Type) : Type := {
  d_total_runs : Z;
  d_success_rate : F;
  d_total_tokens : Z;
  d_avg_response_time_seconds : F;
  d_tool_calls : Z
}.
Arguments d_total_runs {F} _.
Arguments d_success_rate {F} _.
Arguments d_total_tokens {F} _.
Arguments d_avg_response_time_seconds {F} _.
Arguments d_tool_calls {F} _.

Section Metrics.
Context {F : Type} `{PyFloat F}.

(** [AgentMetrics()]: the dataclass defaults; the mean starts at [0.0]. *)
Definition fresh_metrics : AgentMetrics F := {|
  total_runs := 0;
  successful_runs := 0;
  failed_runs := 0;
  total_tokens_used := 0;
  average_response_time := f_of_int 0;
  tool_calls_made := 0
|}.

(** [record_run(self, success, duration, tokens, tool_calls)].  The fields
    are assigned in the order of the source; the division is by
    [total_runs] after its increment. *)
Definition record_run (success : bool) (duration : F) (tokens tool_calls : Z)
    (self : AgentMetrics F) : AgentMetrics F :=
  let total := total_runs self + 1 in
  let successful :=
    if success then successful_runs self + 1 else successful_runs self in
  let failed :=
    if success then failed_runs self else failed_runs self + 1 in
  {| total_runs := total;
     successful_runs := successful;
     failed_runs := failed;
     total_tokens_used := total_tokens_used self + tokens;
     average_response_time :=
       f_div
         (f_add (f_mul (average_response_time self) (f_of_int (total - 1)))
                duration)
         (f_of_int total);
     tool_calls_made := tool_calls_made self + tool_calls |}.

Definition to_dict (self : AgentMetrics F) : MetricsDict F := {|
  d_total_runs := total_runs self;
  d_success_rate :=
    f_div (f_of_int (successful_runs self))
          (f_of_int (Z.max (total_runs self) 1));
  d_total_tokens := total_tokens_used self;
  d_avg_response_time_seconds := f_round (average_response_time self) 2;
  d_tool_calls := tool_calls_made self
|}.

(** The update the specification writes for the running mean. *)
Definition incremental_mean (old_mean duration : F) (new_total : Z) : F :=
  f_add old_mean (f_div (f_sub duration old_mean) (f_of_int new_total)).

End Metrics.

(** ** tools.py: tool definition models *)

Record ToolParameter : Type := {
  param_name : string;
  param_type : string;
  param_description : string;
  param_required : bool;
  param_enum : option (list string);
  param_default : option pyval
}.

Record ToolDefinition : Type := {
  tool_name : string;
  tool_description : string;
  tool_parameters : list ToolParameter
}.

(** What [inspect.signature] shows of one formal parameter.  An annotation is
    compared with [int], [float] and [bool] only, so every other annotation
    object is one case; [None] as default stands for [Parameter.empty]. *)
Inductive annotation : Type :=
| ann_empty
| ann_int
| ann_float
| ann_bool
| ann_other (repr : string).

Record FormalParameter : Type := {
  formal_name : string;
  formal_annotation : annotation;
  formal_default : option pyval
}.

(** A function object: [__name__], the name the interpreter gives it in
    the error of a call (its [__qualname__], preceded by its module and a
    dot unless that is [builtins]), its signature, and what calling it with
    keyword arguments gives.  Function objects are always truthy. *)
Record Callable : Type := {
  fn_name : string;
  fn_qualname : string;
  fn_signature : list FormalParameter;
  fn_call : list (string * pyval) -> result pyval
}.

(** ** tools.py: ToolRegistry

    The two dictionaries of [__init__].  Their iteration order is used by
    [get_all_schemas] only, which no property below is about. *)
Record ToolRegistry : Type := {
  _tools : gmap string Callable;
  _schemas : gmap string ToolDefinition
}.

Definition ToolRegistry_init : ToolRegistry :=
  {| _tools := ∅; _schemas := ∅ |}.

Definition set_tools (f : gmap string Callable -> gmap string Callable)
    (self : ToolRegistry) : ToolRegistry :=
  {| _tools := f (_tools self); _schemas := _schemas self |}.

Definition set_schemas
    (f : gmap string ToolDefinition -> gmap string ToolDefinition)
    (self : ToolRegistry) : ToolRegistry :=
  {| _tools := _tools self; _schemas := f (_schemas self) |}.

(** The type tag one formal parameter gets in [_infer_parameters]. *)
Definition infer_type (a : annotation) : string :=
  let param_type := "string" in
  match a with
  | ann_empty => param_type
  | ann_int => "integer"
  | ann_float => "number"
  | ann_bool => "boolean"
  | ann_other _ => param_type
  end.

(** The body of the loop of [_infer_parameters]: [continue] on [self],
    otherwise append one [ToolParameter]. *)
Definition infer_step (parameters : list ToolParameter) (param : FormalParameter)
    : list ToolParameter :=
  if String.eqb (formal_name param) "self" then parameters
  else
    (parameters ++
    [ {| param_name := formal_name param;
         param_type := infer_type (formal_annotation param);
         param_description := "Parameter " ++ formal_name param;
         param_required :=
           match formal_default param with None => true | Some _ => false end;
         param_enum := None;
         param_default := None |} ])%list.

Definition _infer_parameters (func : Callable) : list ToolParameter :=
  fold_left infer_step (fn_signature func) [].

(** [register(self, func, description, parameters=None)] *)
Definition register (func : Callable) (description : string)
    (parameters : option (list ToolParameter)) : M ToolRegistry Callable :=
  let name := fn_name func in
  let parameters :=
    match parameters with
    | None => _infer_parameters func
    | Some ps => ps
    end in
  let schema :=
    {| tool_name := name;
       tool_description := description;
       tool_parameters := parameters |} in
  modify (set_tools (insert name func)) ;;;
  modify (set_schemas (insert name schema)) ;;;
  ret func.

Definition get_tool (name : string) : M ToolRegistry (option Callable) :=
  gets (fun self => _tools self !! name).

Definition get_schema (name : string)
    : M ToolRegistry (option ToolDefinition) :=
  gets (fun self => _schemas self !! name).

(** The call [tool( **arguments )]: [arguments] is unpacked as keyword
    arguments, which needs a mapping; for anything else the interpreter
    raises [TypeError] before the function is entered. *)
Definition call_with_kwargs (tool : Callable) (arguments : pyval)
    : result pyval :=
  match arguments with
  | PDict kwargs => fn_call tool kwargs
  | _ => inl (TypeError (fn_qualname tool ++
                         "() argument after ** must be a mapping, not " ++
                         type_name arguments))
  end.

(** [execute_tool(self, name, arguments)].  The handler of the [try] logs and
    re-raises with a bare [raise]. *)
Definition execute_tool (name : string) (arguments : pyval)
    : M ToolRegistry pyval :=
  tool <- get_tool name ;;
  match tool with
  | None => raise (ValueError ("Tool not found: " ++ name))
  | Some tool =>
      try_except (result <- lift (call_with_kwargs tool arguments) ;;
                  ret result)
                 (fun e => raise e)
  end.

(** ** The agent service as agent.py uses it *)

(** Modelled from the spec: the SDK's [RunStatus] enumeration is not part of
    the sources; these are the members section 6 of the specification lists. *)
Module RunStatus.
Inductive t : Type :=
| QUEUED | IN_PROGRESS | REQUIRES_ACTION | COMPLETED | FAILED | CANCELLED.

#[global] Instance eq_dec : EqDecision t.
Proof. solve_decision. Defined.
End RunStatus.

Module AgentStatus.
Inductive t : Type :=
| INITIALIZING | READY | RUNNING | COMPLETED | FAILED | CANCELLED.
End AgentStatus.

(** One entry of [run.required_action.submit_tool_outputs.tool_calls]:
    [id], [function.name], [function.arguments]. *)
Record ToolCall : Type := {
  call_id : string;
  call_function_name : string;
  call_function_arguments : string
}.

(** One entry of the list handed to [submit_tool_outputs]. *)
Record ToolOutput : Type := {
  tool_call_id : string;
  output : string
}.

(** A run as fetched: [id], [status], and [required_action] ([None] when the
    run asks for nothing) holding the pending batch of tool calls. *)
Record Run : Type := {
  run_id : string;
  run_status : RunStatus.t;
  run_required_action : option (list ToolCall)
}.

(** A content part of a message; only a text part has the [text] attribute. *)
Inductive MessageContent : Type :=
| MessageTextContent (text_value : string)
| MessageImageFileContent (file_id : string).

Record ThreadMessage : Type := {
  message_role : string;
  message_content : list MessageContent
}.

Record Agent : Type := { agent_id : string }.

(** The module [json]. *)
Class JsonModule : Type := {
  json_loads : string -> result pyval;
  json_dumps : pyval -> result string
}.

(** What agent.py calls outside itself, over a world [W]: the client manager,
    the [client.agents] operations ([list_messages] with [order="desc"] and
    [limit=1], giving [messages.data]), [asyncio.sleep], [time.time], and the
    two attribute chains [run] reads off a finished run object.
    [asyncio.sleep] and [time.time] return; the cancellation of the task is
    an [asyncio.CancelledError] raised by one of the awaited operations of
    the service. *)
Class Service (W F : Type) : Type := {
  client_get_client : M W unit;
  agents_create_run : string -> string -> option string -> M W Run;
  agents_get_run : string -> string -> M W Run;
  agents_submit_tool_outputs : string -> string -> list ToolOutput -> M W unit;
  agents_list_messages : string -> M W (list ThreadMessage);
  asyncio_sleep : Z -> W -> W;
  time_time : W -> F * W;
  usage_total_tokens : Run -> result Z;
  required_action_tool_calls : Run -> result Z
}.

(** Calls through [Service] as they appear in a trace.  [EvHandleToolCalls]
    marks an entry into [_handle_tool_calls]. *)
Inductive event : Type :=
| EvGetClient
| EvCreateRun (thread_id agent_id : string) (instructions : option string)
| EvGetRun (thread_id run_id : string)
| EvHandleToolCalls (run_id : string)
| EvSubmitToolOutputs (thread_id run_id : string) (outs : list ToolOutput)
| EvListMessages (thread_id : string)
| EvSleep (seconds : Z)
| EvTime.

(** The dictionary [run] returns. *)
Record RunResult (F : Type) : Type := {
  res_run_id : string;
  res_status : RunStatus.t;
  res_response : string;
  res_duration_seconds : F;
  res_tokens_used : Z;
  res_metrics : MetricsDict F
}.

(** ** agent.py: FoundryAgent

    The agent object with what its methods reach: the configured timeout
    ([config.agent_timeout_seconds], an [int] that [FoundryConfig] validates
    to lie between 10 and 600), the registry [tools.tool_registry], the world
    behind the client, and the trace of calls made so far. *)
Record FoundryAgent (W F : Type) : Type := {
  config_agent_timeout_seconds : Z;
  status : AgentStatus.t;
  agent : option Agent;
  metrics : AgentMetrics F;
  tool_registry : ToolRegistry;
  world : W;
  trace : list event
}.
Arguments config_agent_timeout_seconds {W F} _.
Arguments status {W F} _.
Arguments agent {W F} _.
Arguments metrics {W F} _.
Arguments tool_registry {W F} _.
Arguments world {W F} _.
Arguments trace {W F} _.

Section Agent.
Context {W F : Type} `{PyFloat F} `{Service W F} `{JsonModule}.

#[local] Abbreviation St := (FoundryAgent W F).

Definition set_status (v : AgentStatus.t) (s : St) : St :=
  {| config_agent_timeout_seconds := config_agent_timeout_seconds s;
     status := v; agent := agent s; metrics := metrics s;
     tool_registry := tool_registry s; world := world s;
     trace := trace s |}.

Definition set_metrics (f : AgentMetrics F -> AgentMetrics F) (s : St) : St :=
  {| config_agent_timeout_seconds := config_agent_timeout_seconds s;
     status := status s; agent := agent s; metrics := f (metrics s);
     tool_registry := tool_registry s; world := world s;
     trace := trace s |}.

Definition set_tool_registry (r : ToolRegistry) (s : St) : St :=
  {| config_agent_timeout_seconds := config_agent_timeout_seconds s;
     status := status s; agent := agent s; metrics := metrics s;
     tool_registry := r; world := world s; trace := trace s |}.

(** The world after a call, with the call appended to the trace. *)
Definition after_call (ev : event) (w : W) (s : St) : St :=
  {| config_agent_timeout_seconds := config_agent_timeout_seconds s;
     status := status s; agent := agent s; metrics := metrics s;
     tool_registry := tool_registry s; world := w;
     trace := trace s ++ [ev] |}.

Definition call {A} (ev : event) (op : M W A) : M St A :=
  fun s => let '(r, w) := op (world s) in (r, after_call ev w s).

Definition get_client : M St unit := call EvGetClient client_get_client.

Definition create_run (thread_id agent_id : string)
    (instructions : option string) : M St Run :=
  call (EvCreateRun thread_id agent_id instructions)
       (agents_create_run thread_id agent_id instructions).

Definition get_run (thread_id run_id : string) : M St Run :=
  call (EvGetRun thread_id run_id) (agents_get_run thread_id run_id).

Definition submit_tool_outputs (thread_id run_id : string)
    (tool_outputs : list ToolOutput) : M St unit :=
  call (EvSubmitToolOutputs thread_id run_id tool_outputs)
       (agents_submit_tool_outputs thread_id run_id tool_outputs).

Definition list_messages (thread_id : string) : M St (list ThreadMessage) :=
  call (EvListMessages thread_id) (agents_list_messages thread_id).

Definition sleep (seconds : Z) : M St unit :=
  fun s => (inr tt, after_call (EvSleep seconds)
                               (asyncio_sleep seconds (world s)) s).

Definition time : M St F :=
  fun s => let '(t, w) := time_time (world s) in
           (inr t, after_call EvTime w s).

Definition note (ev : event) : M St unit :=
  fun s => (inr tt, after_call ev (world s) s).

(** [tools.execute_tool_call]: [tool_registry.execute_tool]. *)
Definition execute_tool_call (tool_name : string) (arguments : pyval)
    : M St pyval :=
  fun s => let '(r, reg) := execute_tool tool_name arguments (tool_registry s)
           in (r, set_tool_registry reg s).

Definition error_payload (e : exn) : pyval :=
  PDict [("error", PStr (exn_str e))].

(** The body of the loop of [_handle_tool_calls]: the [try] appends the
    output of the call, the [except Exception] appends the error payload. *)
Definition handle_tool_call (tool_call : ToolCall)
    (tool_outputs : list ToolOutput) : M St (list ToolOutput) :=
  try_except
    (arguments <- lift (json_loads (call_function_arguments tool_call)) ;;
     result <- execute_tool_call (call_function_name tool_call) arguments ;;
     dumped <- lift (json_dumps result) ;;
     ret (tool_outputs ++
          [ {| tool_call_id := call_id tool_call; output := dumped |} ])%list)
    (fun e =>
     dumped <- lift (json_dumps (error_payload e)) ;;
     ret (tool_outputs ++
          [ {| tool_call_id := call_id tool_call; output := dumped |} ])%list).

Fixpoint for_tool_calls (tool_calls : list ToolCall)
    (tool_outputs : list ToolOutput) : M St (list ToolOutput) :=
  match tool_calls with
  | [] => ret tool_outputs
  | tool_call :: rest =>
      tool_outputs <- handle_tool_call tool_call tool_outputs ;;
      for_tool_calls rest tool_outputs
  end.

Definition _handle_tool_calls (thread_id run_id : string) (run : Run)
    : M St unit :=
  note (EvHandleToolCalls run_id) ;;;
  match run_required_action run with
  | None => ret tt
  | Some tool_calls =>
      tool_outputs <- for_tool_calls tool_calls [] ;;
      submit_tool_outputs thread_id run_id tool_outputs
  end.

Definition poll_interval : Z := 1.

Definition terminal_statuses : list RunStatus.t :=
  [RunStatus.COMPLETED; RunStatus.FAILED; RunStatus.CANCELLED].

(** The [while elapsed < timeout] loop of [_poll_run_completion], from a
    given value of [elapsed]; leaving the loop raises [TimeoutError]. *)
Equations poll_loop (thread_id the_run_id : string) (timeout elapsed : Z)
    : M St Run by wf (Z.to_nat (timeout - elapsed)) lt :=
  poll_loop thread_id the_run_id timeout elapsed
    with decide (elapsed < timeout) := {
    | left _ =>
        run <- get_run thread_id the_run_id ;;
        if bool_decide (run_status run ∈ terminal_statuses) then ret run
        else
          (if bool_decide (run_status run = RunStatus.REQUIRES_ACTION)
           then _handle_tool_calls thread_id the_run_id run
           else ret tt) ;;;
          sleep poll_interval ;;;
          poll_loop thread_id the_run_id timeout (elapsed + poll_interval)
    | right _ =>
        raise (TimeoutError
                 ("Run timed out after " ++ pretty timeout ++ " seconds")) }.
Next Obligation. unfold poll_interval. lia. Qed.

Definition _poll_run_completion (thread_id the_run_id : string) : M St Run :=
  timeout <- gets config_agent_timeout_seconds ;;
  let elapsed := 0 in
  poll_loop thread_id the_run_id timeout elapsed.

Definition newline : string := String "010"%char "".

(** The loop over [message.content]. *)
Definition collect_text (content_parts : list string)
    (content : MessageContent) : list string :=
  match content with
  | MessageTextContent text_value => (content_parts ++ [text_value])%list
  | MessageImageFileContent _ => content_parts
  end.

Definition _extract_response (thread_id : string) (run : Run)
    : M St string :=
  messages <- list_messages thread_id ;;
  match messages with
  | message :: _ =>
      if String.eqb (message_role message) "assistant" then
        let content_parts :=
          fold_left collect_text (message_content message) [] in
        ret (String.concat newline content_parts)
      else ret "No response generated"
  | [] => ret "No response generated"
  end.

(** The [try] block of [run]. *)
Definition run_body (thread_id : string)
    (instructions_override : option string) (the_agent : Agent)
    (start_time : F) : M St (RunResult F) :=
  get_client ;;;
  run <- create_run thread_id (agent_id the_agent) instructions_override ;;
  run <- _poll_run_completion thread_id (run_id run) ;;
  now <- time ;;
  let duration := f_sub now start_time in
  response <- _extract_response thread_id run ;;
  tokens_used <- lift (usage_total_tokens run) ;;
  tool_calls <- lift (required_action_tool_calls run) ;;
  modify (set_metrics (record_run true duration tokens_used tool_calls)) ;;;
  modify (set_status AgentStatus.COMPLETED) ;;;
  snapshot <- gets (fun s => to_dict (metrics s)) ;;
  ret {| res_run_id := run_id run;
         res_status := run_status run;
         res_response := response;
         res_duration_seconds := duration;
         res_tokens_used := tokens_used;
         res_metrics := snapshot |}.

(** The [except Exception] block of [run]. *)
Definition run_failed (start_time : F) (e : exn) : M St (RunResult F) :=
  now <- time ;;
  let duration := f_sub now start_time in
  modify (set_metrics (record_run false duration 0 0)) ;;;
  modify (set_status AgentStatus.FAILED) ;;;
  raise e.

Definition run (thread_id : string) (instructions_override : option string)
    : M St (RunResult F) :=
  created <- gets agent ;;
  match created with
  | None => raise (RuntimeError "Agent not created. Call create() first.")
  | Some the_agent =>
      modify (set_status AgentStatus.RUNNING) ;;;
      start_time <- time ;;
      try_except
        (run_body thread_id instructions_override the_agent start_time)
        (run_failed start_time)
  end.

End Agent.

(** ** Concrete instances used to evaluate the code on inputs *)

(** A stand-in for [round]; no evaluated property reads the rounded entry. *)
Definition sim_round (x : float) (ndigits : Z) : float := x.

Definition sim_float : PyFloat float := binary64 sim_round.

Definition q_round_id (x : Q) (ndigits : Z) : Q := x.

Definition double_quote : string := String "034"%char "".

(** A small [json]: [loads] reads the empty object and the empty array
    only, [dumps] writes atoms and one-entry objects of a string and rejects
    everything else. *)
Definition sim_loads (s : string) : result pyval :=
  if String.eqb s "{}" then inr (PDict [])
  else if String.eqb s "[]" then inr (PList [])
  else inl (Exn "JSONDecodeError" "Expecting value: line 1 column 1 (char 0)"
                None).

Definition sim_dumps (v : pyval) : result string :=
  match v with
  | PNone => inr "null"
  | PBool true => inr "true"
  | PBool false => inr "false"
  | PInt z => inr (pretty z)
  | PStr s => inr (double_quote ++ s ++ double_quote)
  | PDict [] => inr "{}"
  | PDict [(k, PStr s)] =>
      inr ("{" ++ double_quote ++ k ++ double_quote ++ ": " ++
           double_quote ++ s ++ double_quote ++ "}")
  | _ => inl (TypeError "Object is not JSON serializable")
  end.

Definition sim_json : JsonModule :=
  {| json_loads := sim_loads; json_dumps := sim_dumps |}.

(** A scripted service: [get_run] answers from [sim_fetches] and, once that
    is used up, with [sim_default]; the clock advances by one per reading
    and by the slept seconds. *)
Record SimWorld : Type := {
  sim_fetches : list (result Run);
  sim_default : result Run;
  sim_created : result Run;
  sim_messages : result (list ThreadMessage);
  sim_submit : result unit;
  sim_clock : Z
}.

Definition sim_get_run (thread_id the_run_id : string) : M SimWorld Run :=
  fun w =>
    match sim_fetches w with
    | [] => (sim_default w, w)
    | r :: rest =>
        (r, {| sim_fetches := rest; sim_default := sim_default w;
               sim_created := sim_created w; sim_messages := sim_messages w;
               sim_submit := sim_submit w; sim_clock := sim_clock w |})
    end.

Definition sim_tick (d : Z) (w : SimWorld) : SimWorld :=
  {| sim_fetches := sim_fetches w; sim_default := sim_default w;
     sim_created := sim_created w; sim_messages := sim_messages w;
     sim_submit := sim_submit w; sim_clock := sim_clock w + d |}.

Definition sim_service : Service SimWorld float := {|
  client_get_client := ret tt;
  agents_create_run := fun _ _ _ w => (sim_created w, w);
  agents_get_run := sim_get_run;
  agents_submit_tool_outputs := fun _ _ _ w => (sim_submit w, w);
  agents_list_messages := fun _ w => (sim_messages w, w);
  asyncio_sleep := sim_tick;
  time_time := fun w =>
    (PrimFloat.of_uint63 (Uint63.of_Z (sim_clock w)), sim_tick 1 w);
  usage_total_tokens := fun _ => inr 0;
  required_action_tool_calls := fun _ => inr 0
|}.

Definition sim_run (st : RunStatus.t) : Run :=
  {| run_id := "run_1"; run_status := st; run_required_action := None |}.

Definition sim_world (fetches : list (result Run)) (default : result Run)
    : SimWorld :=
  {| sim_fetches := fetches; sim_default := default;
     sim_created := inr (sim_run RunStatus.QUEUED);
     sim_messages := inr []; sim_submit := inr tt; sim_clock := 0 |}.

Definition sim_agent (timeout : Z) (created : option Agent)
    (reg : ToolRegistry) (w : SimWorld) : FoundryAgent SimWorld float :=
  {| config_agent_timeout_seconds := timeout;
     status := AgentStatus.READY;
     agent := created;
     metrics := @fresh_metrics float sim_float;
     tool_registry := reg;
     world := w;
     trace := [] |}.

(** Two handlers that share a name, and one that raises. *)
Definition tool_first : Callable :=
  {| fn_name := "lookup"; fn_qualname := "crm.lookup"; fn_signature := [];
     fn_call := fun _ => inr (PInt 1) |}.

Definition tool_second : Callable :=
  {| fn_name := "lookup"; fn_qualname := "kb.lookup"; fn_signature := [];
     fn_call := fun _ => inr (PInt 2) |}.

(** A handler that ends the interpreter: [sys.exit] raises [SystemExit]. *)
Definition tool_exiting : Callable :=
  {| fn_name := "shutdown"; fn_qualname := "ops.shutdown";
     fn_signature := [];
     fn_call := fun _ => inl (SystemExit "1") |}.

Definition tool_raising : Callable :=
  {| fn_name := "boom"; fn_qualname := "crm.boom"; fn_signature := [];
     fn_call := fun _ => inl (Exn "KeyError" "'k'" None) |}.

Definition registry_of (funcs : list Callable) : ToolRegistry :=
  fold_left (fun reg f => snd (register f "a tool" None reg))
            funcs ToolRegistry_init.

(** A batch of four requests: one that succeeds, one for a name that is not
    registered, one whose arguments do not parse, one whose handler raises. *)
Definition sim_batch : list ToolCall :=
  [ {| call_id := "call_1"; call_function_name := "lookup";
       call_function_arguments := "{}" |};
    {| call_id := "call_2"; call_function_name := "absent";
       call_function_arguments := "{}" |};
    {| call_id := "call_3"; call_function_name := "lookup";
       call_function_arguments := "not json" |};
    {| call_id := "call_4"; call_function_name := "boom";
       call_function_arguments := "{}" |} ].

Definition sim_waiting_run : Run :=
  {| run_id := "run_1"; run_status := RunStatus.REQUIRES_ACTION;
     run_required_action := Some sim_batch |}.

Definition sim_error_text (msg : string) : string :=
  "{" ++ double_quote ++ "error" ++ double_quote ++ ": " ++
  double_quote ++ msg ++ double_quote ++ "}".

Definition sim_registry : ToolRegistry :=
  registry_of [tool_first; tool_raising].

Definition sim_created_agent : option Agent :=
  Some {| agent_id := "agent_1" |}.

Definition sim_unavailable : exn :=
  Exn "HttpResponseError" "service unavailable" None.

(** A world whose newest message is [m]. *)
Definition sim_world_with_message (m : ThreadMessage) : SimWorld :=
  {| sim_fetches := []; sim_default := inr (sim_run RunStatus.COMPLETED);
     sim_created := inr (sim_run RunStatus.QUEUED);
     sim_messages := inr [m]; sim_submit := inr tt; sim_clock := 0 |}.

Definition sim_assistant_message : ThreadMessage :=
  {| message_role := "assistant";
     message_content :=
       [ MessageTextContent "Hello"; MessageImageFileContent "file_1";
         MessageTextContent "World" ] |}.

Definition sim_user_message : ThreadMessage :=
  {| message_role := "user";
     message_content := [ MessageTextContent "Hi" ] |}.

(** The worlds in which every fetch finds the run waiting for tool
    outputs and every submission is accepted. *)
Definition sim_always_waiting (w : SimWorld) : Prop :=
  sim_fetches w = [] /\ sim_default w = inr sim_waiting_run /\
  sim_submit w = inr tt.

(** ** Vocabulary of the properties *)

(** What the specification says a formal parameter becomes. *)
Definition inferred_from (p : FormalParameter) (tp : ToolParameter) : Prop :=
  param_name tp = formal_name p /\
  (formal_annotation p = ann_int -> param_type tp = "integer") /\
  (formal_annotation p = ann_float -> param_type tp = "number") /\
  (formal_annotation p = ann_bool -> param_type tp = "boolean") /\
  (formal_annotation p <> ann_int -> formal_annotation p <> ann_float ->
   formal_annotation p <> ann_bool -> param_type tp = "string") /\
  (formal_default p = None -> param_required tp = true) /\
  (formal_default p <> None -> param_required tp = false).

(** The formal parameters other than [self], in signature order. *)
Definition formals_without_self (func : Callable) : list FormalParameter :=
  filter (fun p => formal_name p <> "self") (fn_signature func).

(** The specification's reading of a duplicate registration: the call
    signals [DuplicateToolError] and the registry is as it was. *)
Definition rejects_duplicate (func : Callable) (description : string)
    (parameters : option (list ToolParameter)) (self : ToolRegistry) : Prop :=
  (exists e, fst (register func description parameters self) = inl e /\
             exn_class e = "DuplicateToolError") /\
  snd (register func description parameters self) = self.

(** The specification's reading of a failing handler: the exception that
    leaves [execute_tool] is a [ToolExecutionError] whose cause is the
    handler's exception. *)
Definition wraps_cause (signalled cause : exn) : Prop :=
  exn_class signalled = "ToolExecutionError" /\
  exn_cause signalled = Some cause.

(** A function raises nothing but instances of [Exception]: no
    [SystemExit], no [KeyboardInterrupt], no cancellation. *)
Definition raises_exceptions_only {A B : Type} (f : A -> result B) : Prop :=
  forall a e, f a = inl e -> is_Exception e = true.

(** Every registered handler raises nothing but instances of
    [Exception]. *)
Definition handlers_raise_exceptions_only (self : ToolRegistry) : Prop :=
  forall name tool,
    _tools self !! name = Some tool -> raises_exceptions_only (fn_call tool).

(** The two dictionaries of a registry agree. *)
Definition registry_consistent (self : ToolRegistry) : Prop :=
  dom (_tools self) = dom (_schemas self) /\
  (forall name schema, _schemas self !! name = Some schema ->
                       tool_name schema = name).

(** A sequence of [register] calls, each with its arguments. *)
Definition registration : Type :=
  Callable * string * option (list ToolParameter).

Definition register_all (calls : list registration) (self : ToolRegistry)
    : ToolRegistry :=
  fold_left (fun reg '(func, description, parameters) =>
               snd (register func description parameters reg))
            calls self.

(** The schema [register] builds. *)
Definition schema_of (func : Callable) (description : string)
    (parameters : option (list ToolParameter)) : ToolDefinition :=
  {| tool_name := fn_name func;
     tool_description := description;
     tool_parameters :=
       match parameters with
       | None => _infer_parameters func
       | Some ps => ps
       end |}.


Section DispatchVocabulary.
Context `{JsonModule}.

(** What the [try] block computes for one invocation request: the dumped
    return value, or the exception of the parse, the lookup, the handler
    or the dump. *)
Definition invoke (reg : ToolRegistry) (tool_call : ToolCall)
    : result string :=
  match json_loads (call_function_arguments tool_call) with
  | inl e => inl e
  | inr arguments =>
      match fst (execute_tool (call_function_name tool_call) arguments reg)
      with
      | inl e => inl e
      | inr result => json_dumps result
      end
  end.

(** An output answers a request: same identifier, and the payload is the
    dumped return value or, on a failure [e], the dumped object
    [{"error": str(e)}]. *)
Definition answers (reg : ToolRegistry) (tool_call : ToolCall)
    (out : ToolOutput) : Prop :=
  tool_call_id out = call_id tool_call /\
  match invoke reg tool_call with
  | inr dumped => output out = dumped
  | inl e =>
      json_dumps (PDict [("error", PStr (exn_str e))]) = inr (output out)
  end.

(** [json.dumps] accepts an object of one string entry, as CPython's does
    for every string. *)
Definition dumps_error_objects : Prop :=
  forall msg : string,
    exists dumped, json_dumps (PDict [("error", PStr msg)]) = inr dumped.

(** [json.loads] and [json.dumps] raise nothing but instances of
    [Exception], as CPython's do ([JSONDecodeError], [TypeError],
    [ValueError], [RecursionError]). *)
Definition json_raises_exceptions_only : Prop :=
  raises_exceptions_only json_loads /\ raises_exceptions_only json_dumps.

End DispatchVocabulary.

(** Status fetches in a stretch of trace. *)
Fixpoint fetches (evs : list event) : nat :=
  match evs with
  | [] => 0%nat
  | EvGetRun _ _ :: rest => S (fetches rest)
  | _ :: rest => fetches rest
  end.

(** Seconds slept in a stretch of trace. *)
Fixpoint slept (evs : list event) : Z :=
  match evs with
  | [] => 0
  | EvSleep seconds :: rest => seconds + slept rest
  | _ :: rest => slept rest
  end.

(** The specification's "joined by newlines": the segments in order with
    one line feed, the character of code 10, between two neighbours. *)
Fixpoint joined_by_newlines (segments : list string) : string :=
  match segments with
  | [] => ""
  | [segment] => segment
  | segment :: rest =>
      segment ++ String (ascii_of_nat 10) (joined_by_newlines rest)
  end.

(** The text segments of a message content, in order. *)
Fixpoint text_segments (content : list MessageContent) : list string :=
  match content with
  | [] => []
  | MessageTextContent text_value :: rest => text_value :: text_segments rest
  | MessageImageFileContent _ :: rest => text_segments rest
  end.

Definition tool_output_of (tool_call : ToolCall) (dumped : string)
    : ToolOutput :=
  {| tool_call_id := call_id tool_call; output := dumped |}.

(** The exception that leaves the poll loop. *)
Definition timeout_error (timeout : Z) : exn :=
  TimeoutError ("Run timed out after " ++ pretty timeout ++ " seconds").

(** A method leaves the metrics of the agent as they were, whatever its
    outcome. *)
Definition keeps_metrics {W F A : Type} (m : M (FoundryAgent W F) A) : Prop :=
  forall s, metrics (snd (m s)) = metrics s.

(** A method that raises has left the metrics as they were. *)
Definition raises_with_metrics_kept {W F A : Type}
    (m : M (FoundryAgent W F) A) : Prop :=
  forall s e s', m s = (inl e, s') -> metrics s' = metrics s.

(** * Further parts of the sources *)

(** ** agent.py: sequences of recorded runs *)

(** The arguments of one [record_run] call. *)
Definition recorded_run (F : Type) : Type := (bool * F * Z * Z)%type.

Definition record_runs {F : Type} `{PyFloat F} (runs : list (recorded_run F))
    (self : AgentMetrics F) : AgentMetrics F :=
  fold_left (fun m '(success, duration, tokens, tool_calls) =>
               record_run success duration tokens tool_calls m)
            runs self.

Definition run_succeeded {F : Type} (r : recorded_run F) : bool :=
  let '(success, _, _, _) := r in success.
Definition run_duration {F : Type} (r : recorded_run F) : F :=
  let '(_, duration, _, _) := r in duration.
Definition run_tokens {F : Type} (r : recorded_run F) : Z :=
  let '(_, _, tokens, _) := r in tokens.
Definition run_tool_calls {F : Type} (r : recorded_run F) : Z :=
  let '(_, _, _, tool_calls) := r in tool_calls.

Definition sum_Z (l : list Z) : Z := fold_right Z.add 0 l.
Definition sum_Q (l : list Q) : Q := fold_right Qplus (0#1)%Q l.

(** ** Python lists *)

Definition IndexError (msg : string) : exn := Exn "IndexError" msg None.

(** The slice [l[start:]]: a negative [start] counts from the end, and both
    ends are clamped to the list. *)
Definition py_slice_from {A : Type} (start : Z) (l : list A) : list A :=
  let n := Z.of_nat (length l) in
  let i := if (start <? 0)%Z then Z.max (start + n) 0 else Z.min start n in
  drop (Z.to_nat i) l.

(** ** agent.py: ConversationContext *)

(** An entry of [messages]: the dictionary [add_message] builds. *)
Record ConversationMessage : Type := {
  entry_role : string;
  entry_content : string;
  entry_timestamp : string;
  entry_metadata : list (string * pyval)
}.

Record ConversationContext : Type := {
  ctx_thread_id : string;
  ctx_messages : list ConversationMessage;
  ctx_metadata : list (string * pyval);
  ctx_created_at : string
}.

(** [ConversationContext(thread_id=..., metadata=...)], created at [now]. *)
Definition ConversationContext_init (thread_id : string)
    (metadata : list (string * pyval)) (now : string) : ConversationContext :=
  {| ctx_thread_id := thread_id; ctx_messages := [];
     ctx_metadata := metadata; ctx_created_at := now |}.

Definition set_messages (messages : list ConversationMessage)
    (self : ConversationContext) : ConversationContext :=
  {| ctx_thread_id := ctx_thread_id self; ctx_messages := messages;
     ctx_metadata := ctx_metadata self;
     ctx_created_at := ctx_created_at self |}.

(** [x or {}] for an optional dictionary. *)
Definition or_empty_dict (metadata : option (list (string * pyval)))
    : list (string * pyval) :=
  match metadata with
  | Some (entry :: rest) => entry :: rest
  | _ => []
  end.

(** [add_message(self, role, content, metadata=None)]; [now] is what
    [datetime.now().isoformat()] gives at the call. *)
Definition context_add_message (role content : string)
    (metadata : option (list (string * pyval))) (now : string)
    : M ConversationContext unit :=
  modify (fun self =>
    set_messages
      (ctx_messages self ++
       [ {| entry_role := role; entry_content := content;
            entry_timestamp := now;
            entry_metadata := or_empty_dict metadata |} ])%list
      self).

Definition get_message_count : M ConversationContext Z :=
  gets (fun self => Z.of_nat (length (ctx_messages self))).

(** [truncate_history(self, max_messages)].  [self.messages[0]] raises
    [IndexError] on an empty list. *)
Definition truncate_history (max_messages : Z) : M ConversationContext unit :=
  fun self =>
    if (Z.of_nat (length (ctx_messages self)) >? max_messages)%Z then
      match ctx_messages self with
      | [] => (inl (IndexError "list index out of range"), self)
      | first :: _ =>
          if String.eqb (entry_role first) "system" then
            (inr tt,
             set_messages
               ([first] ++
                py_slice_from (- (max_messages - 1)) (ctx_messages self))%list
               self)
          else
            (inr tt,
             set_messages (py_slice_from (- max_messages) (ctx_messages self))
                          self)
      end
    else (inr tt, self).

(** ** tools.py: ToolDefinition.to_openapi_schema *)

(** [d[k] = v] on a dictionary kept in insertion order: a new key goes to
    the end, an existing key keeps its place. *)
Fixpoint dict_set {V : Type} (k : string) (v : V) (d : list (string * V))
    : list (string * V) :=
  match d with
  | [] => [(k, v)]
  | (k', v') :: rest =>
      if String.eqb k' k then (k, v) :: rest
      else (k', v') :: dict_set k v rest
  end.

Fixpoint dict_get {V : Type} (k : string) (d : list (string * V))
    : option V :=
  match d with
  | [] => None
  | (k', v) :: rest => if String.eqb k' k then Some v else dict_get k rest
  end.

(** One value of ["properties"]: the keys ["type"] and ["description"], and
    ["enum"] and ["default"] when present. *)
Record PropertySchema : Type := {
  prop_type : string;
  prop_description : string;
  prop_enum : option (list string);
  prop_default : option pyval
}.

(** The dictionary [to_openapi_schema] returns; the constants are
    ["type": "function"] and, under ["parameters"], ["type": "object"]. *)
Record OpenApiSchema : Type := {
  schema_type : string;
  function_name : string;
  function_description : string;
  parameters_type : string;
  parameters_properties : list (string * PropertySchema);
  parameters_required : list string
}.

(** [if param.enum:] holds for a list that is not empty. *)
Definition enum_entry (enum : option (list string)) : option (list string) :=
  match enum with
  | Some (v :: vs) => Some (v :: vs)
  | _ => None
  end.

(** [if param.default is not None:] *)
Definition default_entry (default : option pyval) : option pyval :=
  match default with
  | Some PNone => None
  | Some v => Some v
  | None => None
  end.

(** The value stored under [properties[param.name]] once the three
    statements on it have run. *)
Definition property_of (param : ToolParameter) : PropertySchema :=
  {| prop_type := param_type param;
     prop_description := param_description param;
     prop_enum := enum_entry (param_enum param);
     prop_default := default_entry (param_default param) |}.

(** The body of the loop over [self.parameters]. *)
Definition schema_step
    (acc : list (string * PropertySchema) * list string)
    (param : ToolParameter) : list (string * PropertySchema) * list string :=
  let '(properties, required) := acc in
  let properties :=
    dict_set (param_name param) (property_of param) properties in
  let required :=
    if param_required param then (required ++ [param_name param])%list
    else required in
  (properties, required).

Definition to_openapi_schema (self : ToolDefinition) : OpenApiSchema :=
  let '(properties, required) :=
    fold_left schema_step (tool_parameters self) ([], []) in
  {| schema_type := "function";
     function_name := tool_name self;
     function_description := tool_description self;
     parameters_type := "object";
     parameters_properties := properties;
     parameters_required := required |}.

(** Histories used to evaluate [ConversationContext]. *)
Definition sim_entry (role content : string) : ConversationMessage :=
  {| entry_role := role; entry_content := content;
     entry_timestamp := "2024-01-15T10:00:00"; entry_metadata := [] |}.

Definition sim_context (messages : list ConversationMessage)
    : ConversationContext :=
  {| ctx_thread_id := "thread_1"; ctx_messages := messages;
     ctx_metadata := []; ctx_created_at := "2024-01-15T09:00:00" |}.

Definition sim_history_system : list ConversationMessage :=
  [ sim_entry "system" "be brief"; sim_entry "user" "a";
    sim_entry "assistant" "b"; sim_entry "user" "c" ].

Definition sim_history_plain : list ConversationMessage :=
  [ sim_entry "user" "a"; sim_entry "assistant" "b"; sim_entry "user" "c" ].

(** A run that waits for the outputs of two requests for "lookup": the
    arguments of the first are an object, those of the second an array. *)
Definition sim_array_batch : list ToolCall :=
  [ {| call_id := "call_1"; call_function_name := "lookup";
       call_function_arguments := "{}" |};
    {| call_id := "call_2"; call_function_name := "lookup";
       call_function_arguments := "[]" |} ].

Definition sim_array_run : Run :=
  {| run_id := "run_1"; run_status := RunStatus.REQUIRES_ACTION;
     run_required_action := Some sim_array_batch |}.

(** The [ToolParameter] that [_infer_parameters] appends for a formal. *)
Definition inferred_parameter (p : FormalParameter) : ToolParameter :=
  {| param_name := formal_name p;
     param_type := infer_type (formal_annotation p);
     param_description := "Parameter " ++ formal_name p;
     param_required :=
       match formal_default p with None => true | Some _ => false end;
     param_enum := None;
     param_default := None |}.

(** A signature with two annotated formals, one of them with a default. *)
Definition tool_with_signature : Callable :=
  {| fn_name := "estimate"; fn_qualname := "pricing.estimate";
     fn_signature :=
       [ {| formal_name := "self"; formal_annotation := ann_empty;
            formal_default := None |};
         {| formal_name := "tier"; formal_annotation := ann_other "str";
            formal_default := None |};
         {| formal_name := "hours"; formal_annotation := ann_int;
            formal_default := Some (PInt 730) |} ];
     fn_call := fun _ => inr PNone |}.

(** ** Vocabulary for the poller and the dispatcher *)

(** The calls the poll loop can make for a given thread and run. *)
Definition poll_event (thread_id the_run_id : string) (ev : event) : Prop :=
  match ev with
  | EvGetRun t r => t = thread_id /\ r = the_run_id
  | EvHandleToolCalls r => r = the_run_id
  | EvSubmitToolOutputs t r _ => t = thread_id /\ r = the_run_id
  | EvSleep seconds => seconds = poll_interval
  | _ => False
  end.

(** Two states of the agent that differ at most in the world and the
    trace. *)
Definition same_agent {W F : Type} (s s' : FoundryAgent W F) : Prop :=
  config_agent_timeout_seconds s' = config_agent_timeout_seconds s /\
  status s' = status s /\
  agent s' = agent s /\
  metrics s' = metrics s /\
  tool_registry s' = tool_registry s.

(** What a fetch may answer with to end the poll loop: an exception, or a
    run in a terminal status. *)
Definition ends_poll (outcome : result Run) : Prop :=
  match outcome with
  | inl _ => True
  | inr run => run_status run ∈ terminal_statuses
  end.

(** A scripted world that answers [k] fetches with a run in progress and
    the next one with [final]. *)
Definition sim_script (final : result Run) (k : nat) (w : SimWorld) : Prop :=
  sim_fetches w
  = (replicate k (inr (sim_run RunStatus.IN_PROGRESS)) ++ [final])%list.

(** What a stretch of polling may have done to reach the outcome [r] from
    [s]: at most [max_fetches] fetches and [max_slept] seconds of sleep,
    only calls of the poll loop, and nothing to the agent itself. *)
Definition poll_effects {W F A : Type} (thread_id the_run_id : string)
    (max_fetches : nat) (max_slept : Z) (s : FoundryAgent W F)
    (r : result A * FoundryAgent W F) : Prop :=
  exists evs,
    trace (snd r) = (trace s ++ evs)%list /\
    (fetches evs <= max_fetches)%nat /\
    slept evs <= max_slept /\
    Forall (poll_event thread_id the_run_id) evs /\
    same_agent s (snd r).

(** ** config.py: FoundryConfig *)

(** [s.rstrip(c)] for a one-character set. *)
Fixpoint rstrip_char (c : ascii) (s : string) : string :=
  match s with
  | EmptyString => EmptyString
  | String a rest =>
      match rstrip_char c rest with
      | EmptyString =>
          if Ascii.eqb a c then EmptyString else String a EmptyString
      | String b kept => String a (String b kept)
      end
  end.

Definition slash : ascii := "/"%char.

(** [k] slashes. *)
Fixpoint slashes (k : nat) : string :=
  match k with
  | O => EmptyString
  | S k' => String slash (slashes k')
  end.

(** The validator of [azure_endpoint]. *)
Definition validate_endpoint (v : string) : result string :=
  if negb (String.prefix "https://" v)
  then inl (ValueError "Endpoint must use HTTPS")
  else inr (rstrip_char slash v).

(** The fields of the configuration that [connection_string] and
    [get_auth_method] read. *)
Record FoundryConfig : Type := {
  azure_subscription_id : string;
  azure_resource_group : string;
  azure_project_name : string;
  azure_endpoint : string;
  azure_tenant_id : option string;
  azure_client_id : option string;
  azure_client_secret : option string
}.

Definition connection_string (self : FoundryConfig) : string :=
  azure_endpoint self ++ ";" ++ azure_subscription_id self ++ ";" ++
  azure_resource_group self ++ ";" ++ azure_project_name self.

(** Truth value of an optional string: [None] and [""] are false. *)
Definition truthy (v : option string) : bool :=
  match v with
  | Some (String _ _) => true
  | _ => false
  end.

(** [get_auth_method(self)]; [msi_endpoint] is what
    [os.getenv("MSI_ENDPOINT")] gives. *)
Definition get_auth_method (self : FoundryConfig)
    (msi_endpoint : option string) : string :=
  if truthy (azure_client_id self) && truthy (azure_client_secret self)
  then "service_principal"
  else if truthy msi_endpoint then "managed_identity"
  else "azure_cli".

(** A string without the character [c]. *)
Fixpoint free_of (c : ascii) (s : string) : Prop :=
  match s with
  | EmptyString => True
  | String a rest => a <> c /\ free_of c rest
  end.

(** ** client.py: FoundryClientManager *)

(** The credential objects [_get_credential] can construct. *)
Inductive Credential : Type :=
| ClientSecretCredential (tenant_id client_id client_secret : option string)
| ManagedIdentityCredential
| AzureCliCredential
| DefaultAzureCredential.

(** What [AIProjectClient.from_connection_string] was given. *)
Record AIProjectClient : Type := {
  client_conn_str : string;
  client_credential : Credential
}.

(** Calls into the Azure SDK, as they appear in the manager's log. *)
Inductive sdk_call : Type :=
| CallCredentialInit (c : Credential)
| CallGetToken (c : Credential) (scope : string)
| CallFromConnectionString (conn_str : string) (c : Credential).

(** The manager with the world its SDK calls act on and the log of those
    calls. *)
Record FoundryClientManager (W : Type) : Type := {
  manager_config : FoundryConfig;
  _client : option AIProjectClient;
  _credential : option Credential;
  sdk_world : W;
  sdk_calls : list sdk_call
}.
Arguments manager_config {W} _.
Arguments _client {W} _.
Arguments _credential {W} _.
Arguments sdk_world {W} _.
Arguments sdk_calls {W} _.

(** What client.py calls outside itself: [os.getenv], the constructors of
    the credential classes, [get_token], [from_connection_string], and the
    [tenacity.retry] decorator put on [_create_client]. *)
Class AzureSdk (W : Type) : Type := {
  os_getenv : string -> W -> option string;
  credential_init : Credential -> M W unit;
  credential_get_token : Credential -> string -> M W unit;
  client_from_connection_string : string -> Credential -> M W AIProjectClient;
  tenacity_retry :
    forall A : Type,
      M (FoundryClientManager W) A -> M (FoundryClientManager W) A
}.

Section ClientManager.
Context {W : Type} `{AzureSdk W}.

#[local] Abbreviation Mgr := (FoundryClientManager W).

(** [FoundryClientManager(config)] *)
Definition FoundryClientManager_init (config : FoundryConfig) (w : W) : Mgr :=
  {| manager_config := config; _client := None; _credential := None;
     sdk_world := w; sdk_calls := [] |}.

Definition set_client (v : option AIProjectClient) (self : Mgr) : Mgr :=
  {| manager_config := manager_config self; _client := v;
     _credential := _credential self; sdk_world := sdk_world self;
     sdk_calls := sdk_calls self |}.

Definition set_credential (v : option Credential) (self : Mgr) : Mgr :=
  {| manager_config := manager_config self; _client := _client self;
     _credential := v; sdk_world := sdk_world self;
     sdk_calls := sdk_calls self |}.

Definition sdk {A} (c : sdk_call) (op : M W A) : M Mgr A :=
  fun self =>
    let '(r, w) := op (sdk_world self) in
    (r, {| manager_config := manager_config self; _client := _client self;
           _credential := _credential self; sdk_world := w;
           sdk_calls := (sdk_calls self ++ [c])%list |}).

(** [self._credential = Cls(...)]: the constructor runs, then the
    attribute is assigned. *)
Definition construct (c : Credential) : M Mgr unit :=
  sdk (CallCredentialInit c) (credential_init c) ;;;
  modify (set_credential (Some c)).

Definition management_scope : string :=
  "https://management.azure.com/.default".

(** The [try] block of [_get_credential]. *)
Definition select_and_test (auth_method : string) : M Mgr Credential :=
  config <- gets manager_config ;;
  (if String.eqb auth_method "service_principal" then
     construct (ClientSecretCredential (azure_tenant_id config)
                                       (azure_client_id config)
                                       (azure_client_secret config))
   else if String.eqb auth_method "managed_identity" then
     construct ManagedIdentityCredential
   else if String.eqb auth_method "azure_cli" then
     construct AzureCliCredential
   else construct DefaultAzureCredential) ;;;
  stored <- gets _credential ;;
  match stored with
  | None => raise (AttributeError "'NoneType' object has no attribute 'get_token'")
  | Some credential =>
      sdk (CallGetToken credential management_scope)
          (credential_get_token credential management_scope) ;;;
      ret credential
  end.

Definition _get_credential : M Mgr Credential :=
  cached <- gets _credential ;;
  match cached with
  | Some credential => ret credential
  | None =>
      auth_method <- gets (fun self =>
        get_auth_method (manager_config self)
                        (os_getenv "MSI_ENDPOINT" (sdk_world self))) ;;
      try_except (select_and_test auth_method) (fun e => raise e)
  end.

(** The function under the [retry] decorator. *)
Definition create_client_attempt : M Mgr AIProjectClient :=
  try_except
    (credential <- _get_credential ;;
     conn_str <- gets (fun self => connection_string (manager_config self)) ;;
     client <- sdk (CallFromConnectionString conn_str credential)
                   (client_from_connection_string conn_str credential) ;;
     ret client)
    (fun e => raise e).

Definition _create_client : M Mgr AIProjectClient :=
  tenacity_retry AIProjectClient create_client_attempt.

Definition manager_get_client : M Mgr AIProjectClient :=
  cached <- gets _client ;;
  match cached with
  | Some client => ret client
  | None =>
      client <- _create_client ;;
      modify (set_client (Some client)) ;;;
      ret client
  end.

Definition close : M Mgr unit :=
  cached <- gets _client ;;
  match cached with
  | Some _ =>
      modify (set_client None) ;;;
      modify (set_credential None)
  | None => ret tt
  end.

End ClientManager.

(** A scripted SDK: whether the token test succeeds, what the environment
    holds, and a decorator that makes a single attempt. *)
Record SimSdk : Type := {
  sim_token : result unit;
  sim_msi_endpoint : option string
}.

Definition sim_azure_sdk : AzureSdk SimSdk := {|
  os_getenv := fun name w =>
    if String.eqb name "MSI_ENDPOINT" then sim_msi_endpoint w else None;
  credential_init := fun _ => ret tt;
  credential_get_token := fun _ _ w => (sim_token w, w);
  client_from_connection_string := fun conn_str c =>
    ret {| client_conn_str := conn_str; client_credential := c |};
  tenacity_retry := fun _ attempt => attempt
|}.

Definition sim_config : FoundryConfig :=
  {| azure_subscription_id := "sub"; azure_resource_group := "rg";
     azure_project_name := "project";
     azure_endpoint := "https://example.com";
     azure_tenant_id := None; azure_client_id := Some "client";
     azure_client_secret := Some "secret" |}.

(** The credential [_get_credential] constructs for a configuration and an
    environment. *)
Definition selected_credential (config : FoundryConfig)
    (msi_endpoint : option string) : Credential :=
  if truthy (azure_client_id config) && truthy (azure_client_secret config)
  then ClientSecretCredential (azure_tenant_id config)
                              (azure_client_id config)
                              (azure_client_secret config)
  else if truthy msi_endpoint then ManagedIdentityCredential
  else AzureCliCredential.

Definition sim_manager (token : result unit) : FoundryClientManager SimSdk :=
  @FoundryClientManager_init SimSdk sim_config
    {| sim_token := token; sim_msi_endpoint := Some "http://169.254.169.254" |}.

Definition sim_secret_credential : Credential :=
  ClientSecretCredential None (Some "client") (Some "secret").

(** ** agent.py: the life cycle of FoundryAgent *)

(** The agent object with the attributes the run methods do not use: the
    tracked threads, the name, the instructions and the configured model
    deployment. *)
Record AgentSession (W F : Type) : Type := {
  core : FoundryAgent W F;
  threads : gmap string ConversationContext;
  agent_name : string;
  agent_instructions : string;
  deployment_name : string
}.
Arguments core {W F} _.
Arguments threads {W F} _.
Arguments agent_name {W F} _.
Arguments agent_instructions {W F} _.
Arguments deployment_name {W F} _.

(** The [client.agents] operations of the life cycle, and
    [datetime.now().isoformat()].  The tool list handed to [create_agent] is
    kept as the map from tool name to wire schema it is built from; the
    order of that list is the insertion order of the registry's dictionary,
    which the registry model does not record. *)
Class AgentAdmin (W : Type) : Type := {
  agents_create_agent :
    string -> string -> string -> gmap string OpenApiSchema -> M W Agent;
  agents_create_thread : list (string * pyval) -> M W string;
  agents_create_message : string -> string -> string -> M W string;
  agents_delete_agent : string -> M W unit;
  datetime_now : W -> string * W
}.

Section LifeCycle.
Context {W F : Type} `{PyFloat F} `{Service W F} `{JsonModule}
        `{AgentAdmin W}.

#[local] Abbreviation Session := (AgentSession W F).

Definition set_core (c : FoundryAgent W F) (s : Session) : Session :=
  {| core := c; threads := threads s; agent_name := agent_name s;
     agent_instructions := agent_instructions s;
     deployment_name := deployment_name s |}.

Definition set_threads (t : gmap string ConversationContext) (s : Session)
    : Session :=
  {| core := core s; threads := t; agent_name := agent_name s;
     agent_instructions := agent_instructions s;
     deployment_name := deployment_name s |}.

Definition set_world (w : W) (c : FoundryAgent W F) : FoundryAgent W F :=
  {| config_agent_timeout_seconds := config_agent_timeout_seconds c;
     status := status c; agent := agent c; metrics := metrics c;
     tool_registry := tool_registry c; world := w; trace := trace c |}.

Definition set_agent (a : option Agent) (c : FoundryAgent W F)
    : FoundryAgent W F :=
  {| config_agent_timeout_seconds := config_agent_timeout_seconds c;
     status := status c; agent := a; metrics := metrics c;
     tool_registry := tool_registry c; world := world c; trace := trace c |}.

(** A method of the run part, on the whole object. *)
Definition in_core {A} (m : M (FoundryAgent W F) A) : M Session A :=
  fun s => let '(r, c) := m (core s) in (r, set_core c s).

(** A life-cycle call into the service. *)
Definition admin {A} (op : M W A) : M Session A :=
  in_core (fun c => let '(r, w) := op (world c) in (r, set_world w c)).

Definition now : M Session string :=
  in_core (fun c => let '(t, w) := datetime_now (world c) in
                    (inr t, set_world w c)).

(** [get_all_tools()]: the wire schemas of [tool_registry]. *)
Definition get_all_tools (s : Session) : gmap string OpenApiSchema :=
  to_openapi_schema <$> _schemas (tool_registry (core s)).

(** [create(self)]; the value returned is [self]. *)
Definition create : M Session unit :=
  try_except
    (in_core get_client ;;;
     tools <- gets get_all_tools ;;
     model <- gets deployment_name ;;
     name <- gets agent_name ;;
     instructions <- gets agent_instructions ;;
     created <- admin (agents_create_agent model name instructions tools) ;;
     in_core (modify (set_agent (Some created))) ;;;
     in_core (modify (set_status AgentStatus.READY)) ;;;
     ret tt)
    (fun e =>
     in_core (modify (set_status AgentStatus.FAILED)) ;;;
     raise e).

(** [create_thread(self, metadata=None)] *)
Definition create_thread (metadata : option (list (string * pyval)))
    : M Session string :=
  try_except
    (in_core get_client ;;;
     thread_id <- admin (agents_create_thread (or_empty_dict metadata)) ;;
     created_at <- now ;;
     let context :=
       ConversationContext_init thread_id (or_empty_dict metadata) created_at
     in
     modify (fun s => set_threads (<[thread_id := context]> (threads s)) s) ;;;
     ret thread_id)
    (fun e => raise e).

(** [add_message(self, thread_id, content, role="user")] *)
Definition add_message (thread_id content role : string) : M Session string :=
  try_except
    (in_core get_client ;;;
     message_id <- admin (agents_create_message thread_id role content) ;;
     tracked <- gets (fun s => threads s !! thread_id) ;;
     match tracked with
     | Some context =>
         timestamp <- now ;;
         modify (fun s =>
           set_threads
             (<[thread_id :=
                  snd (context_add_message role content None timestamp
                         context)]> (threads s)) s)
     | None => ret tt
     end ;;;
     ret message_id)
    (fun e => raise e).

Definition get_metrics : M Session (MetricsDict F) :=
  gets (fun s => to_dict (metrics (core s))).

(** [cleanup(self)]: the [except] block logs and returns. *)
Definition cleanup : M Session unit :=
  try_except
    (created <- gets (fun s => agent (core s)) ;;
     match created with
     | Some the_agent =>
         in_core get_client ;;;
         admin (agents_delete_agent (agent_id the_agent))
     | None => ret tt
     end ;;;
     modify (set_threads ∅) ;;;
     in_core (modify (set_status AgentStatus.INITIALIZING)))
    (fun e => ret tt).

(** What [cleanup] gets from the service: nothing is asked without an
    agent; with one, the outcome of [get_client] and, when that returned,
    of [delete_agent]. *)
Definition deletion_outcome (s : Session) : result unit :=
  match agent (core s) with
  | None => inr tt
  | Some the_agent =>
      match client_get_client (world (core s)) with
      | (inl e, _) => inl e
      | (inr _, w1) => fst (agents_delete_agent (agent_id the_agent) w1)
      end
  end.

End LifeCycle.

(** A service for the life cycle: every call succeeds, except that deleting
    an agent gives [deleted]. *)
Definition sim_admin (deleted : result unit) : AgentAdmin SimWorld := {|
  agents_create_agent := fun _ _ _ _ w => (inr {| agent_id := "agent_1" |}, w);
  agents_create_thread := fun _ w => (inr "thread_1", w);
  agents_create_message := fun _ _ _ w => (inr "message_1", w);
  agents_delete_agent := fun _ w => (deleted, w);
  datetime_now := fun w => ("2024-01-15T10:30:00", sim_tick 1 w)
|}.

Definition sim_session (created : option Agent)
    (tracked : gmap string ConversationContext)
    : AgentSession SimWorld float :=
  {| core := sim_agent 30 created sim_registry
               (sim_world [] (inr (sim_run RunStatus.COMPLETED)));
     threads := tracked;
     agent_name := "base-production-agent";
     agent_instructions := "You are a helpful AI assistant.";
     deployment_name := "gpt-4o" |}.

(** The messages of a tracked thread, as pairs of role and content. *)
Definition history_of {W F} (thread_id : string) (s : AgentSession W F)
    : option (list (string * string)) :=
  (fun context =>
     map (fun m => (entry_role m, entry_content m)) (ctx_messages context))
  <$> threads s !! thread_id.

(** * Properties *)

Local Open Scope list_scope.

(** ** AgentMetrics *)

Lemma record_run_total_runs {F} `{PyFloat F} success (d : F) tokens calls m :
  total_runs (record_run success d tokens calls m) = total_runs m + 1.
Proof. reflexivity. Qed.

(** The mean [record_run] stores, over the rationals, is the incremental
    form. *)
Lemma record_run_mean_exact (q_round : Q -> Z -> Q) (m : AgentMetrics Q)
    (success : bool) (d : Q) (tokens calls : Z) :
  0 <= total_runs m ->
  (average_response_time
     (@record_run Q (exact_Q q_round) success d tokens calls m)
   == @incremental_mean Q (exact_Q q_round)
        (average_response_time m) d (total_runs m + 1))%Q.
Proof.
  intros Hn. unfold record_run, incremental_mean. cbn.
  replace (total_runs m + 1 - 1) with (total_runs m) by lia.
  rewrite inject_Z_plus.
  assert (Hpos : (0 <= inject_Z (total_runs m))%Q).
  { change 0%Q with (inject_Z 0). rewrite <- Zle_Qle. exact Hn. }
  field. intros Hz.
  assert (Hlt : (0 < inject_Z (total_runs m) + inject_Z 1)%Q).
  { apply Qlt_le_trans with (inject_Z 1); [reflexivity|].
    rewrite <- (Qplus_0_l (inject_Z 1)) at 1.
    apply Qplus_le_l. exact Hpos. }
  rewrite Hz in Hlt. discriminate Hlt.
Qed.

(** C6 (as amended).  From a fresh aggregator, three successful runs of
    durations 2.0, 4.0 and 6.0 give, in binary64, an average response time of
    4.0 and a success rate of 1.0; one more failed run of duration 0 gives
    [total_runs] 4 and a success rate of 0.75.  In exact arithmetic the mean
    [record_run] stores, [(old_mean * (new_total - 1) + duration) / new_total],
    equals the incremental form
    [old_mean + (duration - old_mean) / new_total]. *)
Theorem C6_metrics_scenario_and_exact_mean
    (py_round : float -> Z -> float) (q_round : Q -> Z -> Q)
    (t1 t2 t3 c1 c2 c3 : Z) :
  let B := binary64 py_round in
  let m3 :=
    @record_run float B true 6%float t3 c3
      (@record_run float B true 4%float t2 c2
         (@record_run float B true 2%float t1 c1 (@fresh_metrics float B))) in
  let m4 := @record_run float B false 0%float 0 0 m3 in
  (average_response_time m3 = 4%float /\
   d_success_rate (@to_dict float B m3) = 1%float /\
   d_total_runs (@to_dict float B m4) = 4 /\
   d_success_rate (@to_dict float B m4) = 0.75%float) /\
  (forall (m : AgentMetrics Q) (success : bool) (d : Q) (tokens calls : Z),
     0 <= total_runs m ->
     (average_response_time
        (@record_run Q (exact_Q q_round) success d tokens calls m)
      == @incremental_mean Q (exact_Q q_round)
           (average_response_time m) d (total_runs m + 1))%Q).
Proof.
  cbv zeta. split.
  - repeat split; reflexivity.
  - intros m success d tokens calls Hn.
    now apply record_run_mean_exact.
Qed.

Lemma C6_metrics_witness :
  0 <= total_runs (@fresh_metrics Q (exact_Q q_round_id)) /\
  (average_response_time
     (@record_run Q (exact_Q q_round_id) true (2 # 1) 10 0
        (@fresh_metrics Q (exact_Q q_round_id)))
   == @incremental_mean Q (exact_Q q_round_id)
        (average_response_time (@fresh_metrics Q (exact_Q q_round_id)))
        (2 # 1)
        (total_runs (@fresh_metrics Q (exact_Q q_round_id)) + 1))%Q.
Proof.
  split.
  - cbn. lia.
  - apply (proj2 (C6_metrics_scenario_and_exact_mean
                    sim_round q_round_id 0 0 0 0 0 0)).
    cbn. lia.
Defined.

(** C6, the claim as stated, fails in binary64: after two runs of duration
    1.0 a third of duration 0.0 stores [(1.0 * 2 + 0.0) / 3], which is
    0.6666666666666666, while the incremental form [1.0 + (0.0 - 1.0) / 3]
    is 0.6666666666666667. *)
Lemma C6_counterexample_binary64 :
  let m2 :=
    @record_run float sim_float true 1%float 0 0
      (@record_run float sim_float true 1%float 0 0
         (@fresh_metrics float sim_float)) in
  average_response_time (@record_run float sim_float true 0%float 0 0 m2)
  <> @incremental_mean float sim_float
       (average_response_time m2) 0%float (total_runs m2 + 1).
Proof.
  cbv zeta. intros Heq.
  pose proof
    (f_equal
       (fun x =>
          PrimFloat.eqb x
            (@incremental_mean float sim_float 1%float 0%float 3)) Heq) as Hb.
  vm_compute in Hb. discriminate Hb.
Qed.

(** ** ToolRegistry *)

Lemma register_eq func description parameters self :
  register func description parameters self =
  (inr func,
   {| _tools := <[fn_name func := func]> (_tools self);
      _schemas :=
        <[fn_name func := schema_of func description parameters]>
          (_schemas self) |}).
Proof. reflexivity. Qed.

Lemma infer_step_self acc p :
  formal_name p = "self" -> infer_step acc p = acc.
Proof. intros Hp. unfold infer_step. rewrite Hp. reflexivity. Qed.

Lemma infer_step_other acc p :
  formal_name p <> "self" ->
  exists tp, infer_step acc p = (acc ++ [tp])%list /\ inferred_from p tp.
Proof.
  intros Hp. unfold infer_step.
  destruct (String.eqb (formal_name p) "self") eqn:E.
  { apply String.eqb_eq in E. contradiction. }
  eexists. split; [reflexivity|].
  unfold inferred_from; cbn.
  destruct (formal_annotation p), (formal_default p);
    repeat split; intros; congruence.
Qed.

Lemma infer_loop_Forall2 (sig seen : list FormalParameter)
    (acc : list ToolParameter) :
  Forall2 inferred_from seen acc ->
  Forall2 inferred_from
    (seen ++ filter (fun p => formal_name p <> "self") sig)%list
    (fold_left infer_step sig acc).
Proof.
  revert seen acc.
  induction sig as [|p sig IH]; intros seen acc Hacc; cbn [fold_left].
  - rewrite filter_nil, app_nil_r. exact Hacc.
  - destruct (decide (formal_name p = "self")) as [Hs|Hs].
    + rewrite infer_step_self by exact Hs.
      rewrite filter_cons_False by (intros Hn; apply Hn, Hs).
      apply IH, Hacc.
    + destruct (infer_step_other acc p Hs) as (tp & -> & Htp).
      rewrite filter_cons_True by exact Hs.
      replace (seen ++ p :: filter (fun p => formal_name p <> "self") sig)%list
        with ((seen ++ [p]) ++
              filter (fun p => formal_name p <> "self") sig)%list
        by (rewrite <- app_assoc; reflexivity).
      apply IH. apply Forall2_app; [exact Hacc|].
      constructor; [exact Htp | constructor].
Qed.

(** C9.  Registering a handler without a parameter list stores a schema
    whose parameters are, in signature order, one per formal parameter other
    than [self]: same name, type tag "integer" for [int], "number" for
    [float], "boolean" for [bool] and "string" for any other or missing
    annotation, required exactly when the formal has no default. *)
Theorem C9_inferred_parameters (func : Callable) (description : string)
    (self : ToolRegistry) :
  exists schema,
    _schemas (snd (register func description None self)) !! fn_name func
      = Some schema /\
    tool_parameters schema = _infer_parameters func /\
    Forall2 inferred_from (formals_without_self func)
            (tool_parameters schema).
Proof.
  exists (schema_of func description None).
  rewrite register_eq. cbn [snd _schemas].
  split; [apply lookup_insert_eq|].
  split; [reflexivity|].
  apply (infer_loop_Forall2 (fn_signature func) [] []). constructor.
Qed.

(** C2 (as amended).  Registering a second function under a name that is
    already registered signals nothing: the call returns the function, and
    the handler and the schema stored under the name are those of the second
    registration; every other name keeps what it had. *)
Theorem C2_register_last_write_wins
    (first second : Callable) (d1 d2 : string)
    (p1 p2 : option (list ToolParameter)) (self : ToolRegistry) :
  fn_name first = fn_name second ->
  let once := snd (register first d1 p1 self) in
  let twice := snd (register second d2 p2 once) in
  _tools once !! fn_name second = Some first /\
  fst (register second d2 p2 once) = inr second /\
  _tools twice !! fn_name second = Some second /\
  _schemas twice !! fn_name second = Some (schema_of second d2 p2) /\
  (forall other, other <> fn_name second ->
     _tools twice !! other = _tools once !! other /\
     _schemas twice !! other = _schemas once !! other).
Proof.
  intros Hname once twice. subst once twice.
  rewrite !register_eq. cbn [fst snd _tools _schemas].
  rewrite Hname.
  repeat split.
  - apply lookup_insert_eq.
  - apply lookup_insert_eq.
  - apply lookup_insert_eq.
  - rewrite (lookup_insert_ne _ (fn_name second) other) by congruence.
    reflexivity.
  - rewrite (lookup_insert_ne _ (fn_name second) other) by congruence.
    reflexivity.
Qed.

Lemma C2_register_witness :
  fn_name tool_first = fn_name tool_second /\
  _tools (snd (register tool_second "second" None
                 (snd (register tool_first "first" None ToolRegistry_init))))
    !! fn_name tool_second = Some tool_second.
Proof.
  split.
  - reflexivity.
  - apply (C2_register_last_write_wins
             tool_first tool_second "first" "second" None None
             ToolRegistry_init).
    reflexivity.
Defined.

(** C2, the claim as stated, fails: with "lookup" registered, registering a
    second "lookup" is not rejected and replaces the first handler. *)
Lemma C2_counterexample_duplicate_accepted :
  let once := snd (register tool_first "first" None ToolRegistry_init) in
  _tools once !! "lookup" = Some tool_first /\
  ~ rejects_duplicate tool_second "second" None once /\
  fst (register tool_second "second" None once) = inr tool_second /\
  _tools (snd (register tool_second "second" None once)) !! "lookup"
    = Some tool_second /\
  fn_call tool_second [] <> fn_call tool_first [].
Proof.
  cbv zeta. rewrite !register_eq. cbn [fst snd _tools _schemas].
  split; [|split; [|split; [|split]]].
  - apply lookup_insert_eq.
  - intros [[e [He _]] _]. rewrite register_eq in He. discriminate He.
  - reflexivity.
  - apply lookup_insert_eq.
  - cbn. discriminate.
Qed.

Lemma execute_tool_found name arguments tool self :
  _tools self !! name = Some tool ->
  execute_tool name arguments self = (call_with_kwargs tool arguments, self).
Proof.
  intros Hl. unfold execute_tool, get_tool, gets, bind, try_except, lift, ret.
  rewrite Hl. destruct (call_with_kwargs tool arguments) as [e|v];
    [destruct (is_Exception e)|]; reflexivity.
Qed.

Lemma execute_tool_missing name arguments self :
  _tools self !! name = None ->
  execute_tool name arguments self =
  (inl (ValueError ("Tool not found: " +:+ name)), self).
Proof.
  intros Hl. unfold execute_tool, get_tool, gets, bind. rewrite Hl.
  reflexivity.
Qed.

Lemma execute_tool_registry name arguments self :
  snd (execute_tool name arguments self) = self.
Proof.
  destruct (_tools self !! name) as [tool|] eqn:Hl.
  - rewrite (execute_tool_found _ _ _ _ Hl). reflexivity.
  - rewrite (execute_tool_missing _ _ _ Hl). reflexivity.
Qed.

(** C3 (as amended).  For a registered name and keyword arguments its
    handler accepts, [execute_tool] returns the handler's own return value
    unchanged; for a name that is not registered it signals the not-found
    error, a [ValueError] "Tool not found: <name>"; an exception of the
    handler leaves [execute_tool] as it was raised, the same exception and
    not a wrapper around it.  The registry is the same afterwards. *)
Theorem C3_execute_tool (self : ToolRegistry) (name : string)
    (kwargs : list (string * pyval)) :
  (forall tool v,
     _tools self !! name = Some tool -> fn_call tool kwargs = inr v ->
     execute_tool name (PDict kwargs) self = (inr v, self)) /\
  (_tools self !! name = None ->
   forall arguments,
     execute_tool name arguments self =
     (inl (ValueError ("Tool not found: " +:+ name)), self)) /\
  (forall tool e,
     _tools self !! name = Some tool -> fn_call tool kwargs = inl e ->
     execute_tool name (PDict kwargs) self = (inl e, self)).
Proof.
  split; [|split].
  - intros tool v Hl Hv.
    rewrite (execute_tool_found _ _ _ _ Hl). cbn. rewrite Hv. reflexivity.
  - intros Hl arguments. now apply execute_tool_missing.
  - intros tool e Hl He.
    rewrite (execute_tool_found _ _ _ _ Hl). cbn. rewrite He. reflexivity.
Qed.

Lemma C3_execute_tool_witness :
  let reg := registry_of [tool_first; tool_raising] in
  (_tools reg !! "lookup" = Some tool_first /\
   fn_call tool_first [] = inr (PInt 1) /\
   execute_tool "lookup" (PDict []) reg = (inr (PInt 1), reg)) /\
  (_tools reg !! "absent" = None /\
   execute_tool "absent" PNone reg =
   (inl (ValueError "Tool not found: absent"), reg)) /\
  (_tools reg !! "boom" = Some tool_raising /\
   fn_call tool_raising [] = inl (Exn "KeyError" "'k'" None) /\
   execute_tool "boom" (PDict []) reg
   = (inl (Exn "KeyError" "'k'" None), reg)).
Proof.
  cbv zeta.
  assert (H1 : _tools (registry_of [tool_first; tool_raising]) !! "lookup"
               = Some tool_first) by (vm_compute; reflexivity).
  assert (H2 : _tools (registry_of [tool_first; tool_raising]) !! "absent"
               = None) by (vm_compute; reflexivity).
  assert (H3 : _tools (registry_of [tool_first; tool_raising]) !! "boom"
               = Some tool_raising) by (vm_compute; reflexivity).
  split; [|split].
  - split; [exact H1|]. split; [reflexivity|].
    apply (proj1 (C3_execute_tool _ "lookup" []) tool_first);
      [exact H1 | reflexivity].
  - split; [exact H2|].
    apply (proj1 (proj2 (C3_execute_tool _ "absent" []))). exact H2.
  - split; [exact H3|]. split; [reflexivity|].
    apply (proj2 (proj2 (C3_execute_tool _ "boom" [])) tool_raising);
      [exact H3 | reflexivity].
Defined.

(** C3, the claim as stated, fails: the [KeyError] a handler raises leaves
    [execute_tool] as that [KeyError]; nothing of class [ToolExecutionError]
    with the [KeyError] as cause is signalled. *)
Lemma C3_counterexample_not_wrapped :
  let reg := registry_of [tool_raising] in
  let cause := Exn "KeyError" "'k'" None in
  _tools reg !! "boom" = Some tool_raising /\
  fn_call tool_raising [] = inl cause /\
  fst (execute_tool "boom" (PDict []) reg) = inl cause /\
  ~ (exists signalled,
       fst (execute_tool "boom" (PDict []) reg) = inl signalled /\
       wraps_cause signalled cause).
Proof.
  cbv zeta.
  assert (H1 : _tools (registry_of [tool_raising]) !! "boom"
               = Some tool_raising) by (vm_compute; reflexivity).
  rewrite (execute_tool_found _ _ _ _ H1). cbn [fst call_with_kwargs].
  split; [exact H1|]. split; [reflexivity|]. split; [reflexivity|].
  intros (signalled & Hs & Hclass & _).
  cbn in Hs. injection Hs as <-. cbn in Hclass. discriminate Hclass.
Qed.

Lemma register_consistent func description parameters self :
  registry_consistent self ->
  registry_consistent (snd (register func description parameters self)).
Proof.
  intros [Hdom Hnames]. rewrite register_eq. cbn [snd].
  split; cbn [_tools _schemas].
  - rewrite !dom_insert_L, Hdom. reflexivity.
  - intros name schema Hl.
    destruct (decide (fn_name func = name)) as [<-|Hne].
    + rewrite lookup_insert_eq in Hl. injection Hl as <-. reflexivity.
    + rewrite lookup_insert_ne in Hl by exact Hne. eauto.
Qed.

Lemma register_all_consistent calls self :
  registry_consistent self -> registry_consistent (register_all calls self).
Proof.
  revert self. induction calls as [|[[func description] parameters] calls IH];
    intros self Hc; cbn.
  - exact Hc.
  - apply IH. now apply register_consistent.
Qed.

Lemma init_consistent : registry_consistent ToolRegistry_init.
Proof.
  split; cbn.
  - rewrite !dom_empty_L. reflexivity.
  - intros name schema Hl. rewrite lookup_empty in Hl. discriminate Hl.
Qed.

(** C10.  After any sequence of [register] calls on a new registry the
    names with a handler are the names with a schema and every schema is
    stored under its own name; [get_tool] and [get_schema] find something
    for the same names, and neither changes the registry. *)
Theorem C10_registry_invariant (calls : list registration) (name : string) :
  let reg := register_all calls ToolRegistry_init in
  registry_consistent reg /\
  ((exists func, fst (get_tool name reg) = inr (Some func)) <->
   (exists schema, fst (get_schema name reg) = inr (Some schema))) /\
  (fst (get_tool name reg) = inr None <->
   fst (get_schema name reg) = inr None) /\
  snd (get_tool name reg) = reg /\
  snd (get_schema name reg) = reg.
Proof.
  cbv zeta.
  pose proof (register_all_consistent calls _ init_consistent) as Hc.
  set (reg := register_all calls ToolRegistry_init) in *.
  split; [exact Hc|].
  destruct Hc as [Hdom _].
  assert (Hiff : is_Some (_tools reg !! name) <-> is_Some (_schemas reg !! name)).
  { rewrite <- !elem_of_dom, Hdom. reflexivity. }
  unfold get_tool, get_schema, gets; cbn [fst snd].
  split; [|split; [|split; reflexivity]].
  - split.
    + intros [func Hf]. injection Hf as Hf.
      destruct (proj1 Hiff (ex_intro _ func Hf)) as [schema Hs].
      exists schema. rewrite Hs. reflexivity.
    + intros [schema Hs]. injection Hs as Hs.
      destruct (proj2 Hiff (ex_intro _ schema Hs)) as [func Hf].
      exists func. rewrite Hf. reflexivity.
  - split; intros Hn; injection Hn as Hn; f_equal.
    + destruct (_schemas reg !! name) as [schema|] eqn:Hs; [|reflexivity].
      destruct (proj2 Hiff (ex_intro _ schema eq_refl)) as [func Hf].
      congruence.
    + destruct (_tools reg !! name) as [func|] eqn:Hf; [|reflexivity].
      destruct (proj1 Hiff (ex_intro _ func eq_refl)) as [schema Hs].
      congruence.
Qed.

(** ** FoundryAgent: the dispatcher *)

Section Dispatcher.
Context {W F : Type} `{PyFloat F} `{Service W F} `{JsonModule}.

#[local] Abbreviation St := (FoundryAgent W F).

Lemma set_tool_registry_same (s : St) :
  set_tool_registry (tool_registry s) s = s.
Proof. destruct s; reflexivity. Qed.

Lemma execute_tool_call_eq name arguments (s : St) :
  execute_tool_call name arguments s =
  (fst (execute_tool name arguments (tool_registry s)), s).
Proof.
  unfold execute_tool_call.
  pose proof (execute_tool_registry name arguments (tool_registry s)) as Hr.
  destruct (execute_tool name arguments (tool_registry s)) as [r reg].
  cbn in Hr |- *. subst reg. now rewrite set_tool_registry_same.
Qed.

(** One pass of the loop body never touches the agent.  It raises only if
    the failure of the invocation is not an [Exception], or if dumping the
    error object fails. *)
Lemma handle_tool_call_eq tool_call outs (s : St) :
  handle_tool_call tool_call outs s =
  match invoke (tool_registry s) tool_call with
  | inr dumped => (inr (outs ++ [tool_output_of tool_call dumped]), s)
  | inl e =>
      if is_Exception e then
        match json_dumps (error_payload e) with
        | inr dumped => (inr (outs ++ [tool_output_of tool_call dumped]), s)
        | inl e' => (inl e', s)
        end
      else (inl e, s)
  end.
Proof.
  unfold handle_tool_call, try_except, bind, lift, ret, invoke,
    tool_output_of.
  destruct (json_loads (call_function_arguments tool_call))
    as [e|arguments].
  { destruct (is_Exception e); [|reflexivity].
    destruct (json_dumps (error_payload e)); reflexivity. }
  rewrite execute_tool_call_eq.
  destruct (fst (execute_tool (call_function_name tool_call) arguments
                   (tool_registry s))) as [e|result].
  { destruct (is_Exception e); [|reflexivity].
    destruct (json_dumps (error_payload e)); reflexivity. }
  destruct (json_dumps result) as [e|dumped]; [|reflexivity].
  destruct (is_Exception e); [|reflexivity].
  destruct (json_dumps (error_payload e)); reflexivity.
Qed.

(** When the parser, the serialiser and the handlers raise instances of
    [Exception] only, so does the [try] block of the loop body. *)
Lemma invoke_raises_exceptions reg tool_call e :
  json_raises_exceptions_only ->
  handlers_raise_exceptions_only reg ->
  invoke reg tool_call = inl e -> is_Exception e = true.
Proof.
  intros [Hloads Hdumps] Hhandlers. unfold invoke.
  destruct (json_loads (call_function_arguments tool_call))
    as [e1|arguments] eqn:Hparse.
  { intros [= <-]. exact (Hloads _ _ Hparse). }
  destruct (_tools reg !! call_function_name tool_call) as [tool|] eqn:Hl.
  - rewrite (execute_tool_found _ arguments _ _ Hl). cbn [fst].
    destruct (call_with_kwargs tool arguments) as [e1|result] eqn:Hcall.
    + intros [= <-].
      destruct arguments; cbn in Hcall;
        try (injection Hcall as <-; reflexivity).
      exact (Hhandlers _ _ Hl _ _ Hcall).
    + intros Hdump. exact (Hdumps _ _ Hdump).
  - rewrite (execute_tool_missing _ arguments _ Hl). cbn [fst].
    intros [= <-]. reflexivity.
Qed.

Hypothesis dumps_ok : dumps_error_objects.
Hypothesis json_ok : json_raises_exceptions_only.

Lemma handle_tool_call_total tool_call outs (s : St) :
  handlers_raise_exceptions_only (tool_registry s) ->
  exists out,
    answers (tool_registry s) tool_call out /\
    handle_tool_call tool_call outs s = (inr (outs ++ [out]), s).
Proof.
  intros Hhandlers. rewrite handle_tool_call_eq. unfold answers.
  destruct (invoke (tool_registry s) tool_call) as [e|dumped] eqn:Hi.
  - rewrite (invoke_raises_exceptions _ _ _ json_ok Hhandlers Hi).
    destruct (dumps_ok (exn_str e)) as [dumped Hd].
    unfold error_payload. rewrite Hd.
    exists (tool_output_of tool_call dumped). cbn. auto.
  - exists (tool_output_of tool_call dumped). cbn. auto.
Qed.

Lemma for_tool_calls_total batch : forall outs (s : St),
  handlers_raise_exceptions_only (tool_registry s) ->
  exists new,
    Forall2 (answers (tool_registry s)) batch new /\
    for_tool_calls batch outs s = (inr (outs ++ new), s).
Proof.
  induction batch as [|tool_call rest IH]; intros outs s Hhandlers.
  - exists []. split; [constructor|]. cbn. now rewrite app_nil_r.
  - destruct (handle_tool_call_total tool_call outs s Hhandlers)
      as (out & Ha & Hh).
    destruct (IH (outs ++ [out]) s Hhandlers) as (new & Hnew & Hrest).
    exists (out :: new). split; [now constructor|].
    cbn [for_tool_calls]. unfold bind. rewrite Hh, Hrest.
    now rewrite <- app_assoc.
Qed.

(** The dispatcher on a batch: one output per request, then the single
    submission, whose outcome is the outcome of the dispatcher. *)
Lemma handle_tool_calls_batch thread_id the_run_id run batch (s : St) :
  handlers_raise_exceptions_only (tool_registry s) ->
  run_required_action run = Some batch ->
  exists outs,
    Forall2 (answers (tool_registry s)) batch outs /\
    _handle_tool_calls thread_id the_run_id run s =
    submit_tool_outputs thread_id the_run_id outs
      (after_call (EvHandleToolCalls the_run_id) (world s) s).
Proof.
  intros Hhandlers Hbatch.
  destruct (for_tool_calls_total batch []
              (after_call (EvHandleToolCalls the_run_id) (world s) s)
              Hhandlers)
    as (outs & Hans & Hfor).
  exists outs. split; [exact Hans|].
  unfold _handle_tool_calls, bind, note. rewrite Hbatch, Hfor.
  reflexivity.
Qed.

Lemma handle_tool_calls_none thread_id the_run_id run (s : St) :
  run_required_action run = None ->
  _handle_tool_calls thread_id the_run_id run s =
  (inr tt, after_call (EvHandleToolCalls the_run_id) (world s) s).
Proof.
  intros Hnone. unfold _handle_tool_calls, bind, note. rewrite Hnone.
  reflexivity.
Qed.



End Dispatcher.

(** ** FoundryAgent: the poller *)

Lemma fetches_app evs1 evs2 :
  fetches (evs1 ++ evs2) = (fetches evs1 + fetches evs2)%nat.
Proof.
  induction evs1 as [|ev evs1 IH]; [reflexivity|].
  destruct ev; cbn; rewrite IH; reflexivity.
Qed.

Lemma slept_app evs1 evs2 : slept (evs1 ++ evs2) = slept evs1 + slept evs2.
Proof.
  induction evs1 as [|ev evs1 IH]; [reflexivity|].
  destruct ev; cbn; rewrite IH; lia.
Qed.

Section Poller.
Context {W F : Type} `{PyFloat F} `{Service W F} `{JsonModule}.

#[local] Abbreviation St := (FoundryAgent W F).

(** The loop, one iteration unrolled. *)
Lemma poll_loop_iteration thread_id the_run_id timeout elapsed :
  poll_loop thread_id the_run_id timeout elapsed =
  if decide (elapsed < timeout) then
    (run <- get_run thread_id the_run_id ;;
     if bool_decide (run_status run ∈ terminal_statuses) then ret run
     else
       (if bool_decide (run_status run = RunStatus.REQUIRES_ACTION)
        then _handle_tool_calls thread_id the_run_id run
        else ret tt) ;;;
       sleep poll_interval ;;;
       poll_loop thread_id the_run_id timeout (elapsed + poll_interval))%py
  else raise (timeout_error timeout).
Proof.
  rewrite poll_loop_equation_1.
  destruct (decide (elapsed < timeout)); reflexivity.
Qed.

(** C5.  When the first fetch shows a terminal status
    ([COMPLETED], [FAILED] or [CANCELLED]), [_poll_run_completion] returns
    the fetched run at once: the fetch is the only call made, so there is
    no sleep and no entry into the dispatcher. *)
Theorem C5_poll_returns_terminal_run_at_once
    thread_id the_run_id (s : St) (run : Run) (w' : W) :
  0 < config_agent_timeout_seconds s ->
  agents_get_run thread_id the_run_id (world s) = (inr run, w') ->
  run_status run ∈ terminal_statuses ->
  _poll_run_completion thread_id the_run_id s =
    (inr run, after_call (EvGetRun thread_id the_run_id) w' s) /\
  trace (after_call (EvGetRun thread_id the_run_id) w' s) =
    trace s ++ [EvGetRun thread_id the_run_id].
Proof.
  intros Hpos Hfetch Hterm. split; [|reflexivity].
  unfold _poll_run_completion, bind at 1, gets.
  rewrite poll_loop_iteration.
  destruct (decide (0 < config_agent_timeout_seconds s)); [|lia].
  unfold bind, get_run, call. rewrite Hfetch.
  rewrite bool_decide_eq_true_2 by exact Hterm. reflexivity.
Qed.

Section NeverTerminal.
Variable I : W -> Prop.
Variables thread_id the_run_id : string.

Hypothesis dumps_ok : dumps_error_objects.
Hypothesis json_ok : json_raises_exceptions_only.
Hypothesis fetch_not_terminal :
  forall w, I w ->
    exists run w',
      agents_get_run thread_id the_run_id w = (inr run, w') /\
      (run_status run ∉ terminal_statuses) /\ I w'.
Hypothesis submit_ok :
  forall w outs, I w ->
    exists w',
      agents_submit_tool_outputs thread_id the_run_id outs w
        = (inr tt, w') /\ I w'.
Hypothesis sleep_ok : forall w seconds, I w -> I (asyncio_sleep seconds w).

(** The dispatch step of an iteration fetches nothing and sleeps
    nothing. *)
Lemma dispatch_step run (s : St) :
  I (world s) ->
  handlers_raise_exceptions_only (tool_registry s) ->
  exists s' evs,
    (if bool_decide (run_status run = RunStatus.REQUIRES_ACTION)
     then _handle_tool_calls thread_id the_run_id run
     else ret tt) s = (inr tt, s') /\
    trace s' = trace s ++ evs /\ fetches evs = 0%nat /\ slept evs = 0 /\
    I (world s') /\ tool_registry s' = tool_registry s.
Proof.
  intros HI Hhandlers. destruct (bool_decide _).
  - destruct (run_required_action run) as [batch|] eqn:Hb.
    + destruct (handle_tool_calls_batch dumps_ok json_ok thread_id the_run_id
                  run batch s Hhandlers Hb) as (outs & _ & ->).
      destruct (submit_ok (world s) outs HI) as (w' & Hs & HI').
      unfold submit_tool_outputs, call. cbn [world after_call]. rewrite Hs.
      eexists. exists [EvHandleToolCalls the_run_id;
                       EvSubmitToolOutputs thread_id the_run_id outs].
      split; [reflexivity|]. cbn.
      rewrite <- app_assoc. repeat split; auto.
    + rewrite (handle_tool_calls_none _ _ _ _ Hb).
      eexists. exists [EvHandleToolCalls the_run_id].
      split; [reflexivity|]. cbn. repeat split; auto.
  - exists s, []. cbn. rewrite app_nil_r. repeat split; auto.
Qed.

Lemma poll_loop_times_out timeout (n : nat) : forall elapsed (s : St),
  Z.to_nat (timeout - elapsed) = n ->
  I (world s) ->
  handlers_raise_exceptions_only (tool_registry s) ->
  exists s' evs,
    poll_loop thread_id the_run_id timeout elapsed s
      = (inl (timeout_error timeout), s') /\
    trace s' = trace s ++ evs /\
    fetches evs = n /\
    slept evs = Z.of_nat n * poll_interval.
Proof.
  induction n as [|n IH]; intros elapsed s Hn HI Hhandlers;
    rewrite poll_loop_iteration.
  - destruct (decide (elapsed < timeout)); [lia|].
    exists s, []. cbn. rewrite app_nil_r. auto.
  - destruct (decide (elapsed < timeout)); [|lia].
    destruct (fetch_not_terminal (world s) HI) as (run & w1 & Hf & Hnt & HI1).
    unfold bind at 1, get_run, call. rewrite Hf.
    rewrite bool_decide_eq_false_2 by exact Hnt.
    set (s1 := after_call (EvGetRun thread_id the_run_id) w1 s).
    destruct (dispatch_step run s1 HI1 Hhandlers)
      as (s2 & evs2 & Hd & Ht2 & Hf2 & Hs2 & HI2 & Hreg2).
    unfold bind at 1. rewrite Hd.
    unfold bind at 1, sleep.
    set (s3 := after_call (EvSleep poll_interval)
                 (asyncio_sleep poll_interval (world s2)) s2).
    destruct (IH (elapsed + poll_interval) s3) as (s' & evs & Hp & Ht & Hfe & Hsl).
    { unfold poll_interval. lia. }
    { cbn. apply sleep_ok, HI2. }
    { cbn [s3 tool_registry after_call]. rewrite Hreg2. exact Hhandlers. }
    rewrite Hp.
    exists s', ([EvGetRun thread_id the_run_id] ++ evs2 ++
                [EvSleep poll_interval] ++ evs).
    split; [reflexivity|].
    split.
    { rewrite Ht. cbn [trace s3 after_call]. rewrite Ht2.
      cbn [trace s1 after_call]. rewrite <- !app_assoc. reflexivity. }
    split.
    { cbn [app fetches]. rewrite fetches_app, Hf2. cbn. now rewrite Hfe. }
    { cbn [app slept]. rewrite slept_app, Hs2. cbn [app slept].
      rewrite Hsl. unfold poll_interval. lia. }
Qed.

(** C4.  When every fetch shows a status that is not terminal, the poll
    loop raises [TimeoutError] after performing
    [timeout / poll_interval] status fetches and sleeping [timeout]
    seconds in all.  The fetches and the submissions of tool outputs are
    taken to succeed, and the handlers, the parser and the serialiser to
    raise instances of [Exception] only. *)
Theorem C4_poll_times_out_after_timeout_fetches (s : St) :
  0 <= config_agent_timeout_seconds s ->
  I (world s) ->
  handlers_raise_exceptions_only (tool_registry s) ->
  exists s' evs,
    _poll_run_completion thread_id the_run_id s =
      (inl (timeout_error (config_agent_timeout_seconds s)), s') /\
    trace s' = trace s ++ evs /\
    Z.of_nat (fetches evs)
      = config_agent_timeout_seconds s / poll_interval /\
    slept evs = config_agent_timeout_seconds s.
Proof.
  intros Hpos HI Hhandlers.
  destruct (poll_loop_times_out (config_agent_timeout_seconds s)
              (Z.to_nat (config_agent_timeout_seconds s - 0)) 0 s
              eq_refl HI Hhandlers) as (s' & evs & Hp & Ht & Hf & Hs).
  exists s', evs.
  split; [exact Hp|]. split; [exact Ht|].
  unfold poll_interval in *. rewrite Z.div_1_r, Hf, Hs. lia.
Qed.

End NeverTerminal.

End Poller.

(** ** FoundryAgent: the extractor *)

Lemma collect_text_segments content : forall acc,
  fold_left collect_text content acc = acc ++ text_segments content.
Proof.
  induction content as [|part content IH]; intros acc; cbn.
  - now rewrite app_nil_r.
  - destruct part; cbn; rewrite IH; [|reflexivity].
    now rewrite <- app_assoc.
Qed.

(** What the extractor joins with is the line feed, so its [join] is the
    specification's. *)
Lemma concat_newline_joined segments :
  String.concat newline segments = joined_by_newlines segments.
Proof.
  induction segments as [|segment rest IH]; [reflexivity|].
  destruct rest as [|next rest]; [reflexivity|].
  change (String.concat newline (segment :: next :: rest))
    with (segment +:+ newline +:+ String.concat newline (next :: rest)).
  rewrite IH. reflexivity.
Qed.

Section Extractor.
Context {W F : Type} `{PyFloat F} `{Service W F} `{JsonModule}.

#[local] Abbreviation St := (FoundryAgent W F).

(** C7.  On the message list fetched newest first, [_extract_response]
    returns "No response generated", as a value, when the list is empty or
    the role of its first message is not "assistant"; otherwise it returns
    the text segments of that message's content, in order, joined by
    newlines: one line feed (character 10) between two neighbours, none
    before the first or after the last. *)
Theorem C7_extract_response
    thread_id (run : Run) (s : St) (messages : list ThreadMessage) (w' : W) :
  agents_list_messages thread_id (world s) = (inr messages, w') ->
  let s' := after_call (EvListMessages thread_id) w' s in
  (messages = [] ->
   _extract_response thread_id run s = (inr "No response generated", s')) /\
  (forall newest rest,
     messages = newest :: rest -> message_role newest <> "assistant" ->
     _extract_response thread_id run s
       = (inr "No response generated", s')) /\
  (forall newest rest,
     messages = newest :: rest -> message_role newest = "assistant" ->
     _extract_response thread_id run s =
     (inr (joined_by_newlines
             (text_segments (message_content newest))), s')).
Proof.
  intros Hfetch s'.
  assert (Hstep : _extract_response thread_id run s =
    match messages with
    | message :: _ =>
        if String.eqb (message_role message) "assistant" then
          (inr (String.concat newline
                  (fold_left collect_text (message_content message) [])),
           s')
        else (inr "No response generated", s')
    | [] => (inr "No response generated", s')
    end).
  { unfold _extract_response, bind, list_messages, call.
    rewrite Hfetch. destruct messages as [|message rest]; [reflexivity|].
    destruct (String.eqb (message_role message) "assistant"); reflexivity. }
  rewrite Hstep. split; [|split].
  - intros ->. reflexivity.
  - intros newest rest -> Hrole.
    destruct (String.eqb (message_role newest) "assistant") eqn:E;
      [|reflexivity].
    apply String.eqb_eq in E. contradiction.
  - intros newest rest -> Hrole.
    rewrite Hrole, String.eqb_refl, collect_text_segments.
    rewrite concat_newline_joined. reflexivity.
Qed.

End Extractor.

(** ** FoundryAgent: run *)

Section RunMethod.
Context {W F : Type} `{PyFloat F} `{Service W F} `{JsonModule}.

#[local] Abbreviation St := (FoundryAgent W F).

Lemma keeps_bind {A B} (m : M St A) (k : A -> M St B) :
  keeps_metrics m -> (forall a, keeps_metrics (k a)) ->
  keeps_metrics (bind m k).
Proof.
  intros Hm Hk s. unfold bind. specialize (Hm s).
  destruct (m s) as [[e|a] s1]; cbn in Hm |- *; [exact Hm|].
  rewrite Hk. exact Hm.
Qed.

Lemma keeps_try_except {A} (m : M St A) (h : exn -> M St A) :
  keeps_metrics m -> (forall e, keeps_metrics (h e)) ->
  keeps_metrics (try_except m h).
Proof.
  intros Hm Hh s. unfold try_except. specialize (Hm s).
  destruct (m s) as [[e|a] s1]; cbn in Hm |- *; [|exact Hm].
  destruct (is_Exception e); [|exact Hm].
  rewrite Hh. exact Hm.
Qed.

Lemma keeps_ret {A} (a : A) : keeps_metrics (ret a : M St A).
Proof. intros s. reflexivity. Qed.

Lemma keeps_raise {A} (e : exn) : keeps_metrics (raise e : M St A).
Proof. intros s. reflexivity. Qed.

Lemma keeps_lift {A} (r : result A) : keeps_metrics (lift r : M St A).
Proof. intros s. reflexivity. Qed.

Lemma keeps_gets {A} (f : St -> A) : keeps_metrics (gets f).
Proof. intros s. reflexivity. Qed.

Lemma keeps_call {A} ev (op : M W A) : keeps_metrics (call ev op : M St A).
Proof. intros s. unfold call. destruct (op (world s)). reflexivity. Qed.

Lemma keeps_sleep seconds : keeps_metrics (sleep seconds : M St unit).
Proof. intros s. reflexivity. Qed.

Lemma keeps_time : keeps_metrics (time : M St F).
Proof. intros s. unfold time. destruct (time_time (world s)). reflexivity. Qed.

Lemma keeps_note ev : keeps_metrics (note ev : M St unit).
Proof. intros s. reflexivity. Qed.

Lemma keeps_execute_tool_call name arguments :
  keeps_metrics (execute_tool_call name arguments : M St pyval).
Proof. intros s. rewrite execute_tool_call_eq. reflexivity. Qed.

Lemma keeps_handle_tool_call tool_call outs :
  keeps_metrics (handle_tool_call tool_call outs : M St _).
Proof.
  intros s. rewrite handle_tool_call_eq.
  destruct (invoke (tool_registry s) tool_call) as [e|dumped];
    [|reflexivity].
  destruct (is_Exception e); [|reflexivity].
  destruct (json_dumps (error_payload e)); reflexivity.
Qed.

Lemma keeps_for_tool_calls batch : forall outs,
  keeps_metrics (for_tool_calls batch outs : M St _).
Proof.
  induction batch as [|tool_call rest IH]; intros outs; cbn [for_tool_calls].
  - apply keeps_ret.
  - apply keeps_bind; [apply keeps_handle_tool_call | intros a; apply IH].
Qed.

Lemma keeps_handle_tool_calls thread_id the_run_id run :
  keeps_metrics (_handle_tool_calls thread_id the_run_id run : M St _).
Proof.
  unfold _handle_tool_calls.
  apply keeps_bind; [apply keeps_note | intros _].
  destruct (run_required_action run); [|apply keeps_ret].
  apply keeps_bind; [apply keeps_for_tool_calls | intros outs].
  apply keeps_call.
Qed.

Lemma keeps_poll_loop thread_id the_run_id timeout (n : nat) :
  forall elapsed,
    Z.to_nat (timeout - elapsed) = n ->
    keeps_metrics
      (poll_loop thread_id the_run_id timeout elapsed : M St _).
Proof.
  induction n as [|n IH]; intros elapsed Hn; rewrite poll_loop_iteration;
    (destruct (decide (elapsed < timeout)); [|apply keeps_raise]).
  - lia.
  - apply keeps_bind; [apply keeps_call | intros run].
    destruct (bool_decide (run_status run ∈ terminal_statuses));
      [apply keeps_ret|].
    apply keeps_bind.
    { destruct (bool_decide _);
        [apply keeps_handle_tool_calls | apply keeps_ret]. }
    intros _. apply keeps_bind; [apply keeps_sleep | intros _].
    apply IH. unfold poll_interval. lia.
Qed.

Lemma keeps_poll_run_completion thread_id the_run_id :
  keeps_metrics (_poll_run_completion thread_id the_run_id : M St _).
Proof.
  unfold _poll_run_completion.
  apply keeps_bind; [apply keeps_gets | intros timeout].
  now apply (keeps_poll_loop _ _ _ (Z.to_nat (timeout - 0))).
Qed.

Lemma keeps_extract_response thread_id run :
  keeps_metrics (_extract_response thread_id run : M St _).
Proof.
  unfold _extract_response.
  apply keeps_bind; [apply keeps_call | intros messages].
  destruct messages as [|message rest]; [apply keeps_ret|].
  destruct (String.eqb _ _); apply keeps_ret.
Qed.

Lemma raises_kept_bind {A B} (m : M St A) (k : A -> M St B) :
  keeps_metrics m -> (forall a, raises_with_metrics_kept (k a)) ->
  raises_with_metrics_kept (bind m k).
Proof.
  intros Hm Hk s e s' Hrun. unfold bind in Hrun. specialize (Hm s).
  destruct (m s) as [[e1|a] s1]; cbn in Hm.
  - injection Hrun as _ <-. exact Hm.
  - rewrite (Hk a s1 e s' Hrun). exact Hm.
Qed.

(** The [try] block of [run] writes the metrics only after its last call
    that can raise. *)
Lemma run_body_raises_kept thread_id instructions the_agent start_time :
  raises_with_metrics_kept
    (run_body thread_id instructions the_agent start_time).
Proof.
  unfold run_body.
  apply raises_kept_bind; [apply keeps_call | intros _].
  apply raises_kept_bind; [apply keeps_call | intros created].
  apply raises_kept_bind; [apply keeps_poll_run_completion | intros run].
  apply raises_kept_bind; [apply keeps_time | intros now].
  apply raises_kept_bind; [apply keeps_extract_response | intros response].
  apply raises_kept_bind; [apply keeps_lift | intros tokens_used].
  apply raises_kept_bind; [apply keeps_lift | intros tool_calls].
  intros s e s' Hrun. discriminate Hrun.
Qed.

(** What leaves [run] on a created agent as an exception was raised inside
    its [try] block, and the metrics are as they were on entry when the
    handler takes over. *)
Lemma run_raises_from_body
    thread_id instructions (s s' : St) (the_agent : Agent) (e : exn) :
  agent s = Some the_agent ->
  run thread_id instructions s = (inl e, s') ->
  exists start_time s0 s1,
    time (set_status AgentStatus.RUNNING s) = (inr start_time, s0) /\
    run_body thread_id instructions the_agent start_time s0 = (inl e, s1) /\
    metrics s1 = metrics s /\
    (if is_Exception e then run_failed start_time e s1 = (inl e, s')
     else s' = s1).
Proof.
  intros Hagent Hrun.
  unfold run, bind at 1, gets in Hrun. rewrite Hagent in Hrun.
  unfold bind at 1, modify in Hrun.
  unfold bind at 1 in Hrun.
  pose proof (keeps_time (set_status AgentStatus.RUNNING s)) as Hk0.
  destruct (time (set_status AgentStatus.RUNNING s))
    as [[e0|start_time] s0] eqn:Htime.
  { unfold time in Htime.
    destruct (time_time (world (set_status AgentStatus.RUNNING s))).
    discriminate Htime. }
  cbn in Hk0.
  unfold try_except in Hrun.
  destruct (run_body thread_id instructions the_agent start_time s0)
    as [[e1|value] s1] eqn:Hbody; [|discriminate Hrun].
  pose proof (run_body_raises_kept _ _ _ _ _ _ _ Hbody) as Hk1.
  assert (He : e1 = e).
  { revert Hrun. destruct (is_Exception e1); intros Hrun; [|congruence].
    unfold run_failed, bind at 1 in Hrun.
    destruct (time s1) as [[e2|now] s2] eqn:Htime2.
    - unfold time in Htime2. destruct (time_time (world s1)).
      discriminate Htime2.
    - cbn in Hrun. injection Hrun as Heq _. exact Heq. }
  subst e1. exists start_time, s0, s1.
  split; [reflexivity|]. split; [exact Hbody|].
  split; [congruence|].
  destruct (is_Exception e); [exact Hrun | congruence].
Qed.


End RunMethod.

(** ** The properties at concrete inputs *)

Lemma sim_dumps_error_objects : @dumps_error_objects sim_json.
Proof. intros msg. eexists. reflexivity. Qed.

Lemma sim_json_raises_exceptions_only :
  @json_raises_exceptions_only sim_json.
Proof.
  split.
  - intros text e. cbn. unfold sim_loads.
    destruct (String.eqb text "{}"); [discriminate|].
    destruct (String.eqb text "[]"); [discriminate|].
    intros [= <-]. reflexivity.
  - intros v e Hdump.
    assert (Hcases : e = TypeError "Object is not JSON serializable").
    { cbn in Hdump. unfold sim_dumps in Hdump.
      repeat match type of Hdump with
             | context [match ?x with _ => _ end] => destruct x
             end; congruence. }
    rewrite Hcases. reflexivity.
Qed.

Lemma sim_handlers_raise_exceptions_only :
  handlers_raise_exceptions_only sim_registry.
Proof.
  intros name tool Hl kwargs e Hcall.
  unfold sim_registry, registry_of in Hl. cbn [fold_left] in Hl.
  rewrite !register_eq in Hl. cbn [snd _tools ToolRegistry_init] in Hl.
  apply lookup_insert_Some in Hl as [[_ <-] | [_ Hl]].
  { injection Hcall as <-. reflexivity. }
  apply lookup_insert_Some in Hl as [[_ <-] | [_ Hl]].
  { discriminate Hcall. }
  rewrite lookup_empty in Hl. discriminate Hl.
Qed.


(** A handler that raises [SystemExit] ends the dispatcher: the exception
    leaves [_handle_tool_calls] as it is, the request after it is not
    looked at and nothing is submitted. *)
Example handle_tool_calls_aborted_by_exit :
  let exiting_run :=
    {| run_id := "run_1"; run_status := RunStatus.REQUIRES_ACTION;
       run_required_action :=
         Some [ {| call_id := "call_1"; call_function_name := "shutdown";
                   call_function_arguments := "{}" |};
                {| call_id := "call_2"; call_function_name := "lookup";
                   call_function_arguments := "{}" |} ] |} in
  let s := sim_agent 10 sim_created_agent
             (registry_of [tool_exiting; tool_first])
             (sim_world [] (inr exiting_run)) in
  let r := @_handle_tool_calls _ _ sim_service sim_json
             "thread_1" "run_1" exiting_run s in
  fst r = inl (SystemExit "1") /\
  trace (snd r) = [ EvHandleToolCalls "run_1" ].
Proof. cbv zeta. split; vm_compute; reflexivity. Qed.

(** The dispatcher evaluated on the batch of four: four outputs in request
    order, three of them error objects, submitted in one call. *)
Example handle_tool_calls_mixed_batch :
  let s := sim_agent 10 sim_created_agent sim_registry
             (sim_world [] (inr sim_waiting_run)) in
  let r := @_handle_tool_calls _ _ sim_service sim_json
             "thread_1" "run_1" sim_waiting_run s in
  fst r = inr tt /\
  trace (snd r) =
  [ EvHandleToolCalls "run_1";
    EvSubmitToolOutputs "thread_1" "run_1"
      [ {| tool_call_id := "call_1"; output := "1" |};
        {| tool_call_id := "call_2";
           output := sim_error_text "Tool not found: absent" |};
        {| tool_call_id := "call_3";
           output :=
             sim_error_text "Expecting value: line 1 column 1 (char 0)" |};
        {| tool_call_id := "call_4"; output := sim_error_text "'k'" |} ] ].
Proof. cbv zeta. split; vm_compute; reflexivity. Qed.

Lemma sim_always_waiting_fetch w :
  sim_always_waiting w ->
  exists run w',
    sim_get_run "thread_1" "run_1" w = (inr run, w') /\
    (run_status run ∉ terminal_statuses) /\ sim_always_waiting w'.
Proof.
  intros (Hf & Hd & Hs). exists sim_waiting_run, w.
  unfold sim_get_run. rewrite Hf, Hd.
  split; [reflexivity|]. split; [|now repeat split].
  cbn. unfold terminal_statuses. intros Hin.
  apply (bool_decide_pack _) in Hin. vm_compute in Hin. exact Hin.
Qed.

Lemma C4_poll_timeout_witness :
  let s := sim_agent 10 sim_created_agent sim_registry
             (sim_world [] (inr sim_waiting_run)) in
  0 <= config_agent_timeout_seconds s /\
  sim_always_waiting (world s) /\
  handlers_raise_exceptions_only (tool_registry s) /\
  exists s' evs,
    @_poll_run_completion _ _ sim_service sim_json "thread_1" "run_1" s =
      (inl (timeout_error 10), s') /\
    trace s' = trace s ++ evs /\
    Z.of_nat (fetches evs) = 10 / poll_interval /\
    slept evs = 10.
Proof.
  cbv zeta.
  assert (Hw : sim_always_waiting (sim_world [] (inr sim_waiting_run)))
    by (repeat split).
  split; [cbn; lia|]. split; [exact Hw|].
  split; [exact sim_handlers_raise_exceptions_only|].
  apply (@C4_poll_times_out_after_timeout_fetches _ _ sim_service sim_json
           sim_always_waiting "thread_1" "run_1").
  - intros msg. eexists. reflexivity.
  - exact sim_json_raises_exceptions_only.
  - exact sim_always_waiting_fetch.
  - intros w outs (Hf & Hd & Hs). exists w. cbn. rewrite Hs.
    now repeat split.
  - intros w seconds (Hf & Hd & Hs). now repeat split.
  - cbn. lia.
  - exact Hw.
  - exact sim_handlers_raise_exceptions_only.
Defined.

(** The poll loop evaluated with a timeout of 10 on a run that stays in
    progress: ten fetches, ten seconds slept, then [TimeoutError]. *)
Example poll_times_out_after_ten_fetches :
  let s := sim_agent 10 sim_created_agent sim_registry
             (sim_world [] (inr (sim_run RunStatus.IN_PROGRESS))) in
  let r := @_poll_run_completion _ _ sim_service sim_json
             "thread_1" "run_1" s in
  fst r = inl (TimeoutError "Run timed out after 10 seconds") /\
  fetches (trace (snd r)) = 10%nat /\
  slept (trace (snd r)) = 10.
Proof. cbv zeta. repeat split; vm_compute; reflexivity. Qed.

Lemma C5_poll_terminal_witness :
  let w := sim_world [] (inr (sim_run RunStatus.FAILED)) in
  let s := sim_agent 10 sim_created_agent sim_registry w in
  0 < config_agent_timeout_seconds s /\
  run_status (sim_run RunStatus.FAILED) ∈ terminal_statuses /\
  @_poll_run_completion _ _ sim_service sim_json "thread_1" "run_1" s =
    (inr (sim_run RunStatus.FAILED),
     after_call (EvGetRun "thread_1" "run_1") w s).
Proof.
  cbv zeta.
  assert (Hin : run_status (sim_run RunStatus.FAILED) ∈ terminal_statuses).
  { apply (bool_decide_unpack _). vm_compute. exact I. }
  split; [cbn; lia|]. split; [exact Hin|].
  apply (@C5_poll_returns_terminal_run_at_once _ _ sim_service sim_json).
  - cbn. lia.
  - reflexivity.
  - exact Hin.
Defined.

Lemma C7_extract_response_witness :
  let s := sim_agent 10 sim_created_agent sim_registry
             (sim_world_with_message sim_assistant_message) in
  let u := sim_agent 10 sim_created_agent sim_registry
             (sim_world_with_message sim_user_message) in
  (message_role sim_assistant_message = "assistant" /\
   fst (@_extract_response _ _ sim_service "thread_1"
          (sim_run RunStatus.COMPLETED) s)
   = inr ("Hello" +:+ String (ascii_of_nat 10) "World")) /\
  (message_role sim_user_message <> "assistant" /\
   fst (@_extract_response _ _ sim_service "thread_1"
          (sim_run RunStatus.COMPLETED) u)
   = inr "No response generated").
Proof.
  cbv zeta. split; split.
  - reflexivity.
  - pose proof
      (@C7_extract_response _ _ sim_service "thread_1"
         (sim_run RunStatus.COMPLETED)
         (sim_agent 10 sim_created_agent sim_registry
            (sim_world_with_message sim_assistant_message))
         [sim_assistant_message]
         (sim_world_with_message sim_assistant_message) eq_refl)
      as (_ & _ & Hassistant).
    rewrite (Hassistant sim_assistant_message [] eq_refl eq_refl).
    reflexivity.
  - discriminate.
  - pose proof
      (@C7_extract_response _ _ sim_service "thread_1"
         (sim_run RunStatus.COMPLETED)
         (sim_agent 10 sim_created_agent sim_registry
            (sim_world_with_message sim_user_message))
         [sim_user_message]
         (sim_world_with_message sim_user_message) eq_refl)
      as (_ & Hother & _).
    rewrite (Hother sim_user_message [] eq_refl); [reflexivity|discriminate].
Defined.


(** [run] evaluated on three failing attempts: the poll times out, the
    submission of tool outputs fails, the message fetch fails.  Each leaves
    one failed run recorded and status [FAILED]. *)
Example run_failures_record_one_failed_run :
  let timed_out :=
    @run _ _ sim_float sim_service sim_json "thread_1" None
      (sim_agent 10 sim_created_agent sim_registry
         (sim_world [] (inr (sim_run RunStatus.IN_PROGRESS)))) in
  let dispatch_failed :=
    @run _ _ sim_float sim_service sim_json "thread_1" None
      (sim_agent 10 sim_created_agent sim_registry
         {| sim_fetches := []; sim_default := inr sim_waiting_run;
            sim_created := inr (sim_run RunStatus.QUEUED);
            sim_messages := inr []; sim_submit := inl sim_unavailable;
            sim_clock := 0 |}) in
  let extraction_failed :=
    @run _ _ sim_float sim_service sim_json "thread_1" None
      (sim_agent 10 sim_created_agent sim_registry
         {| sim_fetches := [];
            sim_default := inr (sim_run RunStatus.COMPLETED);
            sim_created := inr (sim_run RunStatus.QUEUED);
            sim_messages := inl sim_unavailable; sim_submit := inr tt;
            sim_clock := 0 |}) in
  (fst timed_out = inl (TimeoutError "Run timed out after 10 seconds") /\
   total_runs (metrics (snd timed_out)) = 1 /\
   failed_runs (metrics (snd timed_out)) = 1) /\
  (fst dispatch_failed = inl sim_unavailable /\
   total_runs (metrics (snd dispatch_failed)) = 1 /\
   failed_runs (metrics (snd dispatch_failed)) = 1) /\
  (fst extraction_failed = inl sim_unavailable /\
   total_runs (metrics (snd extraction_failed)) = 1 /\
   failed_runs (metrics (snd extraction_failed)) = 1).
Proof. cbv zeta. repeat split; vm_compute; reflexivity. Qed.

(** Before its [try] block [run] checks that the agent was created: without
    one it raises [RuntimeError] and touches nothing. *)
Remark run_without_agent {W F : Type} `{PyFloat F} `{Service W F}
    `{JsonModule} thread_id instructions (s : FoundryAgent W F) :
  agent s = None ->
  run thread_id instructions s =
  (inl (RuntimeError "Agent not created. Call create() first."), s).
Proof.
  intros Hnone. unfold run, bind, gets. rewrite Hnone. reflexivity.
Qed.

(** * Properties of the further parts *)

(** ** AgentMetrics over sequences of runs *)

Lemma record_runs_cons {F} `{PyFloat F} (r : recorded_run F) runs m :
  record_runs (r :: runs) m =
  record_runs runs
    (record_run (run_succeeded r) (run_duration r) (run_tokens r)
                (run_tool_calls r) m).
Proof. destruct r as [[[success d] t] c]. reflexivity. Qed.

Lemma record_runs_counters_from {F} `{PyFloat F} (runs : list (recorded_run F)) :
  forall m0,
    let m := record_runs runs m0 in
    total_runs m = total_runs m0 + Z.of_nat (length runs) /\
    successful_runs m =
      successful_runs m0 +
      Z.of_nat (length (filter (fun r => run_succeeded r = true) runs)) /\
    failed_runs m =
      failed_runs m0 +
      Z.of_nat (length (filter (fun r => run_succeeded r = false) runs)) /\
    total_tokens_used m = total_tokens_used m0 + sum_Z (map run_tokens runs) /\
    tool_calls_made m = tool_calls_made m0 + sum_Z (map run_tool_calls runs).
Proof.
  induction runs as [|r runs IH]; intros m0; cbv zeta.
  - cbn. repeat split; lia.
  - rewrite record_runs_cons.
    destruct (IH (record_run (run_succeeded r) (run_duration r) (run_tokens r)
                    (run_tool_calls r) m0)) as (Ht & Hs & Hf & Hk & Hc).
    rewrite Ht, Hs, Hf, Hk, Hc. clear IH Ht Hs Hf Hk Hc.
    unfold sum_Z.
    cbn [record_run total_runs successful_runs failed_runs total_tokens_used
         tool_calls_made length map fold_right].
    destruct (run_succeeded r) eqn:E.
    + rewrite filter_cons_True by exact E.
      rewrite (filter_cons_False (fun r => run_succeeded r = false))
        by (rewrite E; discriminate).
      cbn [length]. repeat split; lia.
    + rewrite filter_cons_False by (rewrite E; discriminate).
      rewrite (filter_cons_True (fun r => run_succeeded r = false))
        by exact E.
      cbn [length]. repeat split; lia.
Qed.

Lemma succeeded_or_failed {F} (l : list (recorded_run F)) :
  Z.of_nat (length l) =
  Z.of_nat (length (filter (fun r => run_succeeded r = true) l)) +
  Z.of_nat (length (filter (fun r => run_succeeded r = false) l)).
Proof.
  induction l as [|r l IHl]; [reflexivity|].
  destruct (run_succeeded r) eqn:E.
  - rewrite filter_cons_True by exact E.
    rewrite (filter_cons_False (fun r => run_succeeded r = false))
      by (rewrite E; discriminate).
    cbn [length]. lia.
  - rewrite filter_cons_False by (rewrite E; discriminate).
    rewrite (filter_cons_True (fun r => run_succeeded r = false))
      by exact E.
    cbn [length]. lia.
Qed.

(** Counters.  After any sequence of [record_run] calls on a new aggregator
    [total_runs] is the number of calls, [successful_runs] and [failed_runs]
    count the calls with [success] true and false and add up to the total,
    and the token and tool-call fields are the sums of the arguments. *)
Theorem record_runs_counters {F} `{PyFloat F} (runs : list (recorded_run F)) :
  let m := record_runs runs fresh_metrics in
  total_runs m = Z.of_nat (length runs) /\
  successful_runs m =
    Z.of_nat (length (filter (fun r => run_succeeded r = true) runs)) /\
  failed_runs m =
    Z.of_nat (length (filter (fun r => run_succeeded r = false) runs)) /\
  total_runs m = successful_runs m + failed_runs m /\
  total_tokens_used m = sum_Z (map run_tokens runs) /\
  tool_calls_made m = sum_Z (map run_tool_calls runs).
Proof.
  cbv zeta.
  destruct (record_runs_counters_from runs fresh_metrics)
    as (Ht & Hs & Hf & Hk & Hc).
  cbn [fresh_metrics total_runs successful_runs failed_runs total_tokens_used
       tool_calls_made] in *.
  rewrite Ht, Hs, Hf, Hk, Hc. pose proof (succeeded_or_failed runs).
  repeat split; lia.
Qed.

Lemma record_runs_mean_from (q_round : Q -> Z -> Q)
    (runs : list (recorded_run Q)) :
  forall m0 : AgentMetrics Q,
    0 <= total_runs m0 ->
    let m := @record_runs Q (exact_Q q_round) runs m0 in
    (average_response_time m * inject_Z (total_runs m)
     == average_response_time m0 * inject_Z (total_runs m0)
        + sum_Q (map run_duration runs))%Q.
Proof.
  induction runs as [|r runs IH]; intros m0 Hn; cbv zeta.
  - cbn. ring.
  - rewrite record_runs_cons.
    rewrite IH by (cbn; lia). clear IH.
    unfold sum_Q. cbn [map fold_right].
    cbn [record_run average_response_time total_runs f_div f_add f_mul
         f_of_int exact_Q].
    replace (total_runs m0 + 1 - 1) with (total_runs m0) by lia.
    rewrite inject_Z_plus.
    assert (Hpos : (0 <= inject_Z (total_runs m0))%Q).
    { change 0%Q with (inject_Z 0). rewrite <- Zle_Qle. exact Hn. }
    field. intros Hz.
    assert (Hlt : (0 < inject_Z (total_runs m0) + inject_Z 1)%Q).
    { apply Qlt_le_trans with (inject_Z 1); [reflexivity|].
      rewrite <- (Qplus_0_l (inject_Z 1)) at 1.
      apply Qplus_le_l. exact Hpos. }
    rewrite Hz in Hlt. discriminate Hlt.
Qed.

(** Mean and rate in exact arithmetic.  Over the rationals the
    [average_response_time] after a non-empty sequence of [record_run] calls
    on a new aggregator is the arithmetic mean of the durations, and the
    [success_rate] of [to_dict] lies between 0 and 1 (it is 0 for a new
    aggregator, where [max(total_runs, 1)] is the divisor). *)
Theorem record_runs_exact_mean_and_rate (q_round : Q -> Z -> Q)
    (runs : list (recorded_run Q)) :
  let m := @record_runs Q (exact_Q q_round) runs
             (@fresh_metrics Q (exact_Q q_round)) in
  (runs <> [] ->
   (average_response_time m
    == sum_Q (map run_duration runs) / inject_Z (Z.of_nat (length runs)))%Q) /\
  (0 <= d_success_rate (@to_dict Q (exact_Q q_round) m))%Q /\
  (d_success_rate (@to_dict Q (exact_Q q_round) m) <= 1)%Q.
Proof.
  cbv zeta.
  destruct (@record_runs_counters_from Q (exact_Q q_round) runs
              (@fresh_metrics Q (exact_Q q_round)))
    as (Ht & Hs & Hf & _).
  pose proof (succeeded_or_failed runs) as Hsplit.
  cbn [fresh_metrics total_runs successful_runs failed_runs] in Ht, Hs, Hf.
  rewrite Z.add_0_l in Ht, Hs, Hf.
  set (m := @record_runs Q (exact_Q q_round) runs
              (@fresh_metrics Q (exact_Q q_round))) in *.
  split.
  - intros Hne.
    pose proof (record_runs_mean_from q_round runs
                  (@fresh_metrics Q (exact_Q q_round))) as Hmean.
    cbv zeta in Hmean. fold m in Hmean.
    specialize (Hmean ltac:(cbn; lia)).
    cbn [fresh_metrics average_response_time total_runs f_of_int exact_Q]
      in Hmean.
    rewrite Ht in Hmean.
    assert (Hlen : ~ (inject_Z (Z.of_nat (length runs)) == 0)%Q).
    { destruct runs as [|r runs']; [contradiction|].
      intros Hz. change 0%Q with (inject_Z 0) in Hz.
      apply (proj1 (inject_Z_injective _ _)) in Hz. cbn [length] in Hz. lia. }
    transitivity
      ((average_response_time m * inject_Z (Z.of_nat (length runs)))
       / inject_Z (Z.of_nat (length runs)))%Q.
    + field. exact Hlen.
    + rewrite Hmean. field. exact Hlen.
  - cbn [to_dict d_success_rate f_div f_of_int exact_Q].
    assert (H0 : 0 <= successful_runs m) by lia.
    assert (H1 : successful_runs m <= Z.max (total_runs m) 1) by lia.
    assert (H2 : 0 < Z.max (total_runs m) 1) by lia.
    assert (Hq0 : (0 <= inject_Z (successful_runs m))%Q).
    { change 0%Q with (inject_Z 0). now rewrite <- Zle_Qle. }
    assert (Hq1 : (inject_Z (successful_runs m)
                   <= inject_Z (Z.max (total_runs m) 1))%Q).
    { now rewrite <- Zle_Qle. }
    assert (Hq2 : (0 < inject_Z (Z.max (total_runs m) 1))%Q).
    { change 0%Q with (inject_Z 0). now rewrite <- Zlt_Qlt. }
    split.
    + apply Qle_shift_div_l; [exact Hq2|]. rewrite Qmult_0_l. exact Hq0.
    + apply Qle_shift_div_r; [exact Hq2|]. rewrite Qmult_1_l. exact Hq1.
Qed.

Lemma record_runs_exact_mean_witness :
  let runs : list (recorded_run Q) :=
    [ (true, (3 # 2)%Q, 10, 0); (false, (5 # 2)%Q, 0, 0) ] in
  runs <> [] /\
  (average_response_time
     (@record_runs Q (exact_Q q_round_id) runs
        (@fresh_metrics Q (exact_Q q_round_id)))
   == sum_Q (map run_duration runs) / inject_Z (Z.of_nat (length runs)))%Q.
Proof.
  cbv zeta. split.
  - discriminate.
  - apply (proj1 (record_runs_exact_mean_and_rate q_round_id
                    [ (true, (3 # 2)%Q, 10, 0); (false, (5 # 2)%Q, 0, 0) ])).
    discriminate.
Defined.

(** ** ConversationContext *)

Lemma py_slice_from_last {A : Type} (k : Z) (l : list A) :
  0 < k <= Z.of_nat (length l) ->
  py_slice_from (- k) l = drop (length l - Z.to_nat k) l.
Proof.
  intros Hk. unfold py_slice_from.
  destruct (Z.ltb_spec (- k) 0) as [_|Hge]; [|lia].
  f_equal. lia.
Qed.

Lemma py_slice_from_zero {A : Type} (l : list A) : py_slice_from 0 l = l.
Proof.
  unfold py_slice_from. cbn [Z.ltb Z.compare].
  replace (Z.to_nat (Z.min 0 (Z.of_nat (length l)))) with 0%nat by lia.
  apply drop_0.
Qed.

Lemma last_drop_lt {A : Type} (n : nat) (l : list A) :
  (n < length l)%nat -> last (drop n l) = last l.
Proof.
  intros Hn. rewrite !last_lookup, lookup_drop, length_drop.
  f_equal. lia.
Qed.

Lemma truncate_history_under (max_messages : Z) self :
  Z.of_nat (length (ctx_messages self)) <= max_messages ->
  truncate_history max_messages self = (inr tt, self).
Proof.
  intros Hle. unfold truncate_history.
  destruct (Z.gtb_spec (Z.of_nat (length (ctx_messages self))) max_messages);
    [lia | reflexivity].
Qed.

Lemma truncate_history_over (max_messages : Z) self first rest :
  ctx_messages self = first :: rest ->
  max_messages < Z.of_nat (length (ctx_messages self)) ->
  truncate_history max_messages self =
  (inr tt,
   set_messages
     (if String.eqb (entry_role first) "system"
      then first :: py_slice_from (- (max_messages - 1)) (ctx_messages self)
      else py_slice_from (- max_messages) (ctx_messages self))
     self).
Proof.
  intros Hm Hlen. unfold truncate_history.
  destruct (Z.gtb_spec (Z.of_nat (length (ctx_messages self))) max_messages)
    as [_|Hle]; [|lia].
  rewrite Hm. destruct (String.eqb (entry_role first) "system"); reflexivity.
Qed.

(** Truncation proper.  When the history is longer than [max_messages],
    and [max_messages] is at least 2 (at least 1 if the first message is not
    a system message), [truncate_history] leaves exactly [max_messages]
    messages: the most recent ones, preceded by the leading system message
    if there is one.  The newest message is always among them and nothing
    else of the context changes. *)
Theorem truncate_history_keeps_most_recent
    (max_messages : Z) (self : ConversationContext) first rest :
  ctx_messages self = first :: rest ->
  max_messages < Z.of_nat (length (ctx_messages self)) ->
  (if String.eqb (entry_role first) "system"
   then 2 <= max_messages else 1 <= max_messages) ->
  exists kept,
    truncate_history max_messages self = (inr tt, set_messages kept self) /\
    Z.of_nat (length kept) = max_messages /\
    kept =
      (if String.eqb (entry_role first) "system"
       then first :: drop (length (ctx_messages self)
                           - Z.to_nat (max_messages - 1)) (ctx_messages self)
       else drop (length (ctx_messages self) - Z.to_nat max_messages)
                 (ctx_messages self)) /\
    last kept = last (ctx_messages self).
Proof.
  intros Hm Hlen Hmax.
  rewrite (truncate_history_over _ _ _ _ Hm Hlen).
  set (old := ctx_messages self) in *.
  assert (Hold : (0 < length old)%nat) by (rewrite Hm; cbn; lia).
  destruct (String.eqb (entry_role first) "system").
  - rewrite py_slice_from_last by lia.
    eexists. split; [reflexivity|].
    split; [cbn [length]; rewrite length_drop; lia|].
    split; [reflexivity|].
    rewrite last_cons, last_drop_lt by lia.
    destruct (last old) eqn:E; [reflexivity|].
    apply last_None in E. rewrite E in Hold. cbn in Hold. lia.
  - rewrite py_slice_from_last by lia.
    eexists. split; [reflexivity|].
    split; [rewrite length_drop; lia|].
    split; [reflexivity|].
    apply last_drop_lt. lia.
Qed.

Lemma truncate_history_witness :
  let self := sim_context sim_history_system in
  ctx_messages self = sim_entry "system" "be brief" ::
                      [ sim_entry "user" "a"; sim_entry "assistant" "b";
                        sim_entry "user" "c" ] /\
  2 < Z.of_nat (length (ctx_messages self)) /\
  exists kept,
    truncate_history 2 self = (inr tt, set_messages kept self) /\
    Z.of_nat (length kept) = 2 /\
    last kept = Some (sim_entry "user" "c").
Proof.
  cbv zeta. split; [reflexivity|]. split; [cbn; lia|].
  destruct (truncate_history_keeps_most_recent 2
              (sim_context sim_history_system)
              (sim_entry "system" "be brief")
              [ sim_entry "user" "a"; sim_entry "assistant" "b";
                sim_entry "user" "c" ] eq_refl)
    as (kept & Hrun & Hlen & _ & Hlast).
  - cbn. lia.
  - cbn. lia.
  - exists kept. split; [exact Hrun|]. split; [exact Hlen|]. exact Hlast.
Defined.

(** Limits 1 and 0.  With a leading system message and at least one more
    message, [truncate_history(1)] does not shorten the history: the slice
    [messages[-0:]] is the whole list, so the result is the system message
    followed by all the old messages, one longer than before.  With a first
    message that is not a system message, [truncate_history(0)] leaves the
    history as it is. *)
Theorem truncate_history_limits_one_and_zero
    (self : ConversationContext) first rest :
  ctx_messages self = first :: rest ->
  (entry_role first = "system" -> rest <> [] ->
   truncate_history 1 self
   = (inr tt, set_messages (first :: first :: rest) self)) /\
  (entry_role first <> "system" ->
   truncate_history 0 self = (inr tt, set_messages (first :: rest) self)).
Proof.
  intros Hm. split.
  - intros Hrole Hrest.
    rewrite (truncate_history_over 1 self first rest Hm).
    + rewrite Hrole, String.eqb_refl.
      change (- (1 - 1)) with 0. rewrite py_slice_from_zero, Hm. reflexivity.
    + rewrite Hm. destruct rest; [contradiction|]. cbn [length]. lia.
  - intros Hrole.
    rewrite (truncate_history_over 0 self first rest Hm).
    + destruct (String.eqb (entry_role first) "system") eqn:E.
      { apply String.eqb_eq in E. contradiction. }
      change (- 0) with 0. rewrite py_slice_from_zero, Hm. reflexivity.
    + rewrite Hm. cbn [length]. lia.
Qed.

Lemma truncate_history_limits_witness :
  let self := sim_context sim_history_system in
  let plain := sim_context sim_history_plain in
  (entry_role (sim_entry "system" "be brief") = "system" /\
   Z.of_nat (length (ctx_messages (snd (truncate_history 1 self)))) = 5) /\
  (entry_role (sim_entry "user" "a") <> "system" /\
   ctx_messages (snd (truncate_history 0 plain)) = sim_history_plain).
Proof.
  cbv zeta. split; split.
  - reflexivity.
  - rewrite (proj1 (truncate_history_limits_one_and_zero
                      (sim_context sim_history_system)
                      (sim_entry "system" "be brief")
                      [ sim_entry "user" "a"; sim_entry "assistant" "b";
                        sim_entry "user" "c" ] eq_refl)
               eq_refl ltac:(discriminate)).
    reflexivity.
  - discriminate.
  - rewrite (proj2 (truncate_history_limits_one_and_zero
                      (sim_context sim_history_plain)
                      (sim_entry "user" "a")
                      [ sim_entry "assistant" "b"; sim_entry "user" "c" ]
                      eq_refl)
               ltac:(discriminate)).
    reflexivity.
Defined.

Lemma elem_of_py_slice_from {A : Type} (start : Z) (l : list A) (x : A) :
  x ∈ py_slice_from start l -> x ∈ l.
Proof. unfold py_slice_from. apply subseteq_drop. Qed.

(** What truncation never does.  A history no longer than [max_messages]
    is left untouched; on an empty history with a negative [max_messages]
    the read of [messages[0]] raises [IndexError]; and whenever
    [truncate_history] returns, every message of the new history was in the
    old one, and a leading system message is still the first message. *)
Theorem truncate_history_safety
    (max_messages : Z) (self : ConversationContext) :
  (Z.of_nat (length (ctx_messages self)) <= max_messages ->
   truncate_history max_messages self = (inr tt, self)) /\
  (ctx_messages self = [] -> max_messages < 0 ->
   truncate_history max_messages self
   = (inl (IndexError "list index out of range"), self)) /\
  (forall self',
     truncate_history max_messages self = (inr tt, self') ->
     (forall m, m ∈ ctx_messages self' -> m ∈ ctx_messages self) /\
     (forall first rest,
        ctx_messages self = first :: rest -> entry_role first = "system" ->
        head (ctx_messages self') = Some first) /\
     ctx_thread_id self' = ctx_thread_id self /\
     ctx_metadata self' = ctx_metadata self /\
     ctx_created_at self' = ctx_created_at self).
Proof.
  split; [|split].
  - intros Hle. unfold truncate_history.
    destruct (Z.gtb_spec (Z.of_nat (length (ctx_messages self))) max_messages);
      [lia | reflexivity].
  - intros Hnil Hneg. unfold truncate_history. rewrite Hnil. cbn [length].
    destruct (Z.gtb_spec (Z.of_nat 0) max_messages); [reflexivity | lia].
  - intros self' Hrun. unfold truncate_history in Hrun.
    destruct (Z.gtb_spec (Z.of_nat (length (ctx_messages self))) max_messages)
      as [Hgt|Hle].
    + destruct (ctx_messages self) as [|first rest] eqn:Hm;
        [discriminate Hrun|].
      destruct (String.eqb (entry_role first) "system") eqn:E;
        injection Hrun as <-; cbn [ctx_messages set_messages ctx_thread_id
                                   ctx_metadata ctx_created_at head].
      * split; [|split; [|auto]].
        -- intros m Hin. apply elem_of_cons in Hin as [->|Hin].
           ++ apply list_elem_of_here.
           ++ now apply elem_of_py_slice_from in Hin.
        -- intros first' rest' Heq _. now injection Heq as <- _.
      * split; [|split; [|auto]].
        -- intros m Hin. now apply elem_of_py_slice_from in Hin.
        -- intros first' rest' Heq Hrole. injection Heq as <- _.
           rewrite Hrole, String.eqb_refl in E. discriminate E.
    + injection Hrun as <-. split; [auto|]. split; [|auto].
      intros first rest Hm _. rewrite Hm. reflexivity.
Qed.

Lemma truncate_history_safety_witness :
  let self := sim_context sim_history_plain in
  (Z.of_nat (length (ctx_messages self)) <= 20 /\
   truncate_history 20 self = (inr tt, self)) /\
  (ctx_messages (sim_context []) = [] /\ -1 < 0 /\
   truncate_history (-1) (sim_context [])
   = (inl (IndexError "list index out of range"), sim_context [])) /\
  (truncate_history 2 self
   = (inr tt, set_messages [sim_entry "assistant" "b"; sim_entry "user" "c"]
                self) /\
   forall m,
     m ∈ [sim_entry "assistant" "b"; sim_entry "user" "c"] ->
     m ∈ ctx_messages self).
Proof.
  cbv zeta. split; [|split].
  - split; [cbn; lia|].
    apply (proj1 (truncate_history_safety 20 (sim_context sim_history_plain))).
    cbn. lia.
  - split; [reflexivity|]. split; [lia|].
    apply (proj1 (proj2 (truncate_history_safety (-1) (sim_context []))));
      [reflexivity | lia].
  - split; [reflexivity|].
    apply (proj1 (proj2 (proj2 (truncate_history_safety 2
                                  (sim_context sim_history_plain)))
                    (set_messages
                       [sim_entry "assistant" "b"; sim_entry "user" "c"]
                       (sim_context sim_history_plain)) eq_refl)).
Defined.

(** Adding, then truncating.  For a limit of at least 2, the message
    [add_message] has just appended is still the last message after
    [truncate_history], and [get_message_count] is then the smaller of the
    limit and the old count plus one. *)
Theorem add_message_survives_truncation
    (role content : string) (metadata : option (list (string * pyval)))
    (now : string) (max_messages : Z) (self : ConversationContext) :
  2 <= max_messages ->
  let entry :=
    {| entry_role := role; entry_content := content; entry_timestamp := now;
       entry_metadata := or_empty_dict metadata |} in
  exists self',
    (context_add_message role content metadata now ;;;
     truncate_history max_messages) self = (inr tt, self') /\
    last (ctx_messages self') = Some entry /\
    get_message_count self'
    = (inr (Z.min (Z.of_nat (length (ctx_messages self)) + 1) max_messages),
       self').
Proof.
  intros Hmax entry.
  set (added := set_messages (ctx_messages self ++ [entry]) self).
  change ((context_add_message role content metadata now ;;;
           truncate_history max_messages) self)
    with (truncate_history max_messages added).
  unfold get_message_count, gets.
  assert (Hmsgs : ctx_messages added = ctx_messages self ++ [entry])
    by reflexivity.
  assert (Hlen : length (ctx_messages added)
                 = S (length (ctx_messages self))).
  { rewrite Hmsgs, length_app. cbn. lia. }
  destruct (Z_le_gt_dec (Z.of_nat (length (ctx_messages added))) max_messages)
    as [Hle|Hgt].
  - exists added. rewrite (truncate_history_under _ _ Hle).
    split; [reflexivity|]. split; [rewrite Hmsgs; apply last_snoc|].
    do 2 f_equal. lia.
  - destruct (ctx_messages added) as [|first rest] eqn:Hadded;
      [cbn in Hlen; lia|].
    rewrite (truncate_history_over max_messages added first rest Hadded)
      by (rewrite Hadded; lia).
    rewrite <- Hadded in *.
    assert (Hlast : last (ctx_messages added) = Some entry)
      by (rewrite Hmsgs; apply last_snoc).
    destruct (String.eqb (entry_role first) "system").
    + rewrite py_slice_from_last by lia.
      eexists. split; [reflexivity|].
      cbn [ctx_messages set_messages].
      split.
      * rewrite last_cons, last_drop_lt, Hlast by lia. reflexivity.
      * do 2 f_equal. cbn [length]. rewrite length_drop. lia.
    + rewrite py_slice_from_last by lia.
      eexists. split; [reflexivity|].
      cbn [ctx_messages set_messages].
      split.
      * rewrite last_drop_lt, Hlast by lia. reflexivity.
      * do 2 f_equal. rewrite length_drop. lia.
Qed.

Lemma add_message_survives_truncation_witness :
  2 <= 3 /\
  exists self',
    (context_add_message "user" "d" None "2024-01-15T10:05:00" ;;;
     truncate_history 3) (sim_context sim_history_system) = (inr tt, self') /\
    last (ctx_messages self')
    = Some {| entry_role := "user"; entry_content := "d";
              entry_timestamp := "2024-01-15T10:05:00";
              entry_metadata := [] |} /\
    get_message_count self' = (inr 3, self').
Proof.
  split; [lia|].
  destruct (add_message_survives_truncation "user" "d" None
              "2024-01-15T10:05:00" 3 (sim_context sim_history_system))
    as (self' & Hrun & Hlast & Hcount); [lia|].
  exists self'. split; [exact Hrun|]. split; [exact Hlast|]. exact Hcount.
Defined.

(** ** ToolDefinition.to_openapi_schema *)

Lemma dict_get_set_eq {V : Type} (k : string) (v : V) d :
  dict_get k (dict_set k v d) = Some v.
Proof.
  induction d as [|[k' v'] d IH]; cbn.
  - now rewrite String.eqb_refl.
  - destruct (String.eqb k' k) eqn:E; cbn.
    + now rewrite String.eqb_refl.
    + now rewrite E.
Qed.

Lemma dict_get_set_ne {V : Type} (k k2 : string) (v : V) d :
  k <> k2 -> dict_get k2 (dict_set k v d) = dict_get k2 d.
Proof.
  intros Hne. induction d as [|[k' v'] d IH]; cbn.
  - destruct (String.eqb k k2) eqn:E; [|reflexivity].
    apply String.eqb_eq in E. contradiction.
  - destruct (String.eqb k' k) eqn:E; cbn.
    + apply String.eqb_eq in E. subst k'.
      destruct (String.eqb k k2) eqn:E2; [|reflexivity].
      apply String.eqb_eq in E2. contradiction.
    + destruct (String.eqb k' k2); [reflexivity | exact IH].
Qed.

Lemma dict_set_fresh {V : Type} (k : string) (v : V) d :
  k ∉ map fst d -> dict_set k v d = d ++ [(k, v)].
Proof.
  induction d as [|[k' v'] d IH]; intros Hk; cbn; [reflexivity|].
  cbn in Hk. apply not_elem_of_cons in Hk as [Hne Hk].
  destruct (String.eqb k' k) eqn:E.
  - apply String.eqb_eq in E. congruence.
  - now rewrite IH.
Qed.

Lemma dict_set_keys {V : Type} (k k2 : string) (v : V) d :
  k2 ∈ map fst (dict_set k v d) <-> k2 = k \/ k2 ∈ map fst d.
Proof.
  induction d as [|[k' v'] d IH]; cbn.
  - rewrite list_elem_of_singleton, elem_of_nil. tauto.
  - destruct (String.eqb k' k) eqn:E; cbn.
    + apply String.eqb_eq in E. subst k'. rewrite !elem_of_cons. tauto.
    + rewrite !elem_of_cons, IH. tauto.
Qed.

Lemma dict_set_keys_NoDup {V : Type} (k : string) (v : V) d :
  NoDup (map fst d) -> NoDup (map fst (dict_set k v d)).
Proof.
  induction d as [|[k' v'] d IH]; intros Hd; cbn.
  - apply NoDup_singleton.
  - cbn in Hd. apply NoDup_cons in Hd as [Hk' Hd].
    destruct (String.eqb k' k) eqn:E; cbn.
    + apply String.eqb_eq in E. subst k'. now apply NoDup_cons.
    + apply NoDup_cons. split; [|now apply IH].
      rewrite dict_set_keys. intros [->|Hin]; [|contradiction].
      rewrite String.eqb_refl in E. discriminate E.
Qed.

(** The loop of [to_openapi_schema] from any point. *)
Lemma schema_loop (params : list ToolParameter) :
  forall properties required,
    NoDup (map fst properties) ->
    let '(properties', required') :=
      fold_left schema_step params (properties, required) in
    NoDup (map fst properties') /\
    required' =
      required ++ map param_name (filter (fun p => param_required p = true)
                                         params) /\
    (forall name,
       dict_get name properties' =
       match last (filter (fun p => param_name p = name) params) with
       | Some p => Some (property_of p)
       | None => dict_get name properties
       end).
Proof.
  induction params as [|param params IH]; intros properties required Hnd.
  - cbn. split; [exact Hnd|]. split; [now rewrite app_nil_r | reflexivity].
  - cbn [fold_left schema_step].
    specialize (IH (dict_set (param_name param) (property_of param) properties)
                   (if param_required param
                    then required ++ [param_name param] else required)
                   (dict_set_keys_NoDup _ _ _ Hnd)).
    destruct (fold_left schema_step params _) as [properties' required'].
    destruct IH as (Hnd' & Hreq & Hget).
    split; [exact Hnd'|]. split.
    + rewrite Hreq. destruct (param_required param) eqn:E.
      * rewrite filter_cons_True by exact E. cbn [map].
        now rewrite <- app_assoc.
      * rewrite filter_cons_False by (rewrite E; discriminate). reflexivity.
    + intros name. rewrite Hget.
      destruct (decide (param_name param = name)) as [Heq|Hne].
      * rewrite filter_cons_True by exact Heq.
        rewrite last_cons.
        destruct (last (filter (fun p => param_name p = name) params));
          [reflexivity|].
        rewrite Heq. now rewrite dict_get_set_eq.
      * rewrite filter_cons_False by exact Hne.
        destruct (last (filter (fun p => param_name p = name) params));
          [reflexivity|].
        now apply dict_get_set_ne.
Qed.

(** The wire schema.  [to_openapi_schema] carries the name and the
    description over, lists under "required" the names of the parameters
    marked required, in declaration order, and has under "properties" one
    entry per distinct parameter name; when a name occurs more than once the
    entry is that of the last parameter of that name.  Every required name
    has an entry. *)
Theorem to_openapi_schema_entries (self : ToolDefinition) :
  let schema := to_openapi_schema self in
  schema_type schema = "function" /\
  parameters_type schema = "object" /\
  function_name schema = tool_name self /\
  function_description schema = tool_description self /\
  parameters_required schema =
    map param_name (filter (fun p => param_required p = true)
                           (tool_parameters self)) /\
  NoDup (map fst (parameters_properties schema)) /\
  (forall name,
     dict_get name (parameters_properties schema) =
     property_of <$>
       last (filter (fun p => param_name p = name) (tool_parameters self))) /\
  (forall name,
     name ∈ parameters_required schema ->
     is_Some (dict_get name (parameters_properties schema))).
Proof.
  cbv zeta. unfold to_openapi_schema.
  pose proof (schema_loop (tool_parameters self) [] [] (NoDup_nil_2))
    as Hloop.
  destruct (fold_left schema_step (tool_parameters self) ([], []))
    as [properties required].
  destruct Hloop as (Hnd & Hreq & Hget). cbn in Hreq.
  cbn [schema_type parameters_type function_name function_description
       parameters_required parameters_properties].
  assert (Hget' : forall name,
    dict_get name properties =
    property_of <$>
      last (filter (fun p => param_name p = name) (tool_parameters self))).
  { intros name. rewrite Hget.
    destruct (last _); reflexivity. }
  repeat split; try assumption.
  intros name Hin. rewrite Hget'. rewrite Hreq in Hin.
  apply list_elem_of_In, in_map_iff in Hin as (p & <- & Hp).
  apply list_elem_of_In, list_elem_of_filter in Hp as [_ Hp].
  assert (Hne : filter (fun q => param_name q = param_name p)
                       (tool_parameters self) <> []).
  { intros Hnil.
    assert (Hpin : p ∈ filter (fun q => param_name q = param_name p)
                              (tool_parameters self))
      by (apply list_elem_of_filter; auto).
    rewrite Hnil in Hpin. now apply not_elem_of_nil in Hpin. }
  apply last_is_Some in Hne. destruct Hne as [q Hq]. rewrite Hq.
  cbn. eauto.
Qed.

Lemma to_openapi_schema_entries_witness :
  let self :=
    {| tool_name := "estimate"; tool_description := "an estimate";
       tool_parameters :=
         [ inferred_parameter
             {| formal_name := "tier"; formal_annotation := ann_other "str";
                formal_default := None |} ] |} in
  "tier" ∈ parameters_required (to_openapi_schema self) /\
  is_Some (dict_get "tier" (parameters_properties (to_openapi_schema self))).
Proof.
  cbv zeta.
  assert (Hin : "tier" ∈ parameters_required (to_openapi_schema
    {| tool_name := "estimate"; tool_description := "an estimate";
       tool_parameters :=
         [ inferred_parameter
             {| formal_name := "tier"; formal_annotation := ann_other "str";
                formal_default := None |} ] |})).
  { vm_compute. apply list_elem_of_here. }
  split; [exact Hin|].
  apply (to_openapi_schema_entries
    {| tool_name := "estimate"; tool_description := "an estimate";
       tool_parameters :=
         [ inferred_parameter
             {| formal_name := "tier"; formal_annotation := ann_other "str";
                formal_default := None |} ] |}).
  exact Hin.
Defined.

Lemma schema_loop_distinct (params : list ToolParameter) :
  forall properties required,
    NoDup (map fst properties ++ map param_name params) ->
    fst (fold_left schema_step params (properties, required)) =
    properties ++ map (fun p => (param_name p, property_of p)) params.
Proof.
  induction params as [|param params IH]; intros properties required Hnd.
  - cbn. now rewrite app_nil_r.
  - cbn [fold_left schema_step map].
    cbn [map] in Hnd.
    apply NoDup_app in Hnd as (Hp & Hdisj & Hps).
    apply NoDup_cons in Hps as [Hfresh Hps].
    assert (Hnew : param_name param ∉ map fst properties).
    { intros Hin. apply (Hdisj _ Hin). apply list_elem_of_here. }
    rewrite dict_set_fresh by exact Hnew.
    rewrite IH.
    + now rewrite <- app_assoc.
    + rewrite map_app. cbn [map fst].
      apply NoDup_app. split; [|split; [|exact Hps]].
      * apply NoDup_app. split; [exact Hp|]. split; [|apply NoDup_singleton].
        intros x Hx Hx'. apply list_elem_of_singleton in Hx'. now subst x.
      * intros x Hx Hx'. apply elem_of_app in Hx as [Hx|Hx].
        -- apply (Hdisj _ Hx). apply elem_of_cons. now right.
        -- apply list_elem_of_singleton in Hx. now subst x.
Qed.

Lemma schema_required_names (self : ToolDefinition) :
  parameters_required (to_openapi_schema self) =
  map param_name (filter (fun p => param_required p = true)
                         (tool_parameters self)).
Proof.
  unfold to_openapi_schema.
  pose proof (schema_loop (tool_parameters self) [] [] (NoDup_nil_2))
    as Hloop.
  destruct (fold_left schema_step (tool_parameters self) ([], []))
    as [properties required].
  destruct Hloop as (_ & Hreq & _). exact Hreq.
Qed.

(** Distinct parameter names.  When the parameter names of a definition
    are pairwise distinct, "properties" has exactly one entry per parameter,
    in declaration order, each holding the type and description of its
    parameter, its [enum] if that is a non-empty list and its [default] if
    that is not [None]. *)
Theorem to_openapi_schema_distinct_names (self : ToolDefinition) :
  NoDup (map param_name (tool_parameters self)) ->
  parameters_properties (to_openapi_schema self) =
  map (fun p => (param_name p, property_of p)) (tool_parameters self).
Proof.
  intros Hnd. unfold to_openapi_schema.
  pose proof (schema_loop_distinct (tool_parameters self) [] [] Hnd) as Hloop.
  destruct (fold_left schema_step (tool_parameters self) ([], []))
    as [properties required].
  exact Hloop.
Qed.

Lemma to_openapi_schema_distinct_names_witness :
  let self :=
    {| tool_name := "create_support_ticket"; tool_description := "a ticket";
       tool_parameters :=
         [ {| param_name := "title"; param_type := "string";
              param_description := "Brief summary of the issue";
              param_required := true; param_enum := None;
              param_default := None |};
           {| param_name := "priority"; param_type := "string";
              param_description := "Ticket priority level";
              param_required := false;
              param_enum := Some ["low"; "medium"; "high"; "critical"];
              param_default := Some (PStr "medium") |} ] |} in
  NoDup (map param_name (tool_parameters self)) /\
  parameters_properties (to_openapi_schema self) =
  [ ("title",
     {| prop_type := "string";
        prop_description := "Brief summary of the issue";
        prop_enum := None; prop_default := None |});
    ("priority",
     {| prop_type := "string"; prop_description := "Ticket priority level";
        prop_enum := Some ["low"; "medium"; "high"; "critical"];
        prop_default := Some (PStr "medium") |}) ].
Proof.
  cbv zeta.
  assert (Hnd : NoDup ["title"; "priority"]).
  { apply NoDup_cons. split.
    - intros Hin. apply list_elem_of_singleton in Hin. discriminate Hin.
    - apply NoDup_singleton. }
  split; [exact Hnd|].
  rewrite to_openapi_schema_distinct_names by exact Hnd. reflexivity.
Defined.

Lemma NoDup_map_filter {A B : Type} (f : A -> B) (P : A -> Prop)
    `{!forall x, Decision (P x)} (l : list A) :
  NoDup (map f l) -> NoDup (map f (filter P l)).
Proof.
  induction l as [|x l IH]; intros Hnd; [constructor|].
  cbn [map] in Hnd. apply NoDup_cons in Hnd as [Hx Hnd].
  destruct (decide (P x)) as [HP|HP].
  - rewrite filter_cons_True by exact HP. cbn [map].
    apply NoDup_cons. split; [|now apply IH].
    intros Hin. apply Hx.
    apply list_elem_of_In, in_map_iff in Hin as (y & Hy & Hin).
    apply list_elem_of_In, in_map_iff. exists y. split; [exact Hy|].
    apply list_elem_of_In. apply list_elem_of_In in Hin.
    now apply list_elem_of_filter in Hin as [_ Hin].
  - rewrite filter_cons_False by exact HP. now apply IH.
Qed.

Lemma infer_parameters_map (sig : list FormalParameter) :
  forall acc,
    fold_left infer_step sig acc =
    acc ++ map inferred_parameter
             (filter (fun p => formal_name p <> "self") sig).
Proof.
  induction sig as [|p sig IH]; intros acc; cbn [fold_left].
  - now rewrite app_nil_r.
  - rewrite IH. unfold infer_step.
    destruct (String.eqb (formal_name p) "self") eqn:E.
    + apply String.eqb_eq in E.
      rewrite filter_cons_False by (intros Hn; apply Hn, E). reflexivity.
    + assert (Hne : formal_name p <> "self").
      { intros Heq. rewrite Heq, String.eqb_refl in E. discriminate E. }
      rewrite filter_cons_True by exact Hne. cbn [map].
      now rewrite <- app_assoc.
Qed.

(** Inference, then the wire schema.  For a function registered without a
    parameter list, whose formals have distinct names, the wire schema has
    one property per formal other than [self], in signature order, holding
    the inferred type tag and the description "Parameter <name>" and never
    an [enum] or a [default], even for a formal that has a default value;
    "required" lists the formals without a default. *)
Theorem inferred_schema_wire_format (func : Callable) (description : string) :
  NoDup (map formal_name (fn_signature func)) ->
  let schema := to_openapi_schema (schema_of func description None) in
  parameters_properties schema =
    map (fun p =>
           (formal_name p,
            {| prop_type := infer_type (formal_annotation p);
               prop_description := "Parameter " +:+ formal_name p;
               prop_enum := None; prop_default := None |}))
        (formals_without_self func) /\
  parameters_required schema =
    map formal_name
        (filter (fun p => formal_default p = None)
                (formals_without_self func)).
Proof.
  intros Hnd schema. subst schema.
  assert (Hinf : _infer_parameters func
                 = map inferred_parameter (formals_without_self func)).
  { unfold _infer_parameters. now rewrite infer_parameters_map. }
  assert (Hnames : map param_name (map inferred_parameter
                                     (formals_without_self func))
                   = map formal_name (formals_without_self func)).
  { rewrite map_map. reflexivity. }
  split.
  - assert (Hdistinct : NoDup (map param_name
                                 (tool_parameters
                                    (schema_of func description None)))).
    { cbn [schema_of tool_parameters]. rewrite Hinf, Hnames.
      unfold formals_without_self. now apply NoDup_map_filter. }
    unfold to_openapi_schema.
    pose proof (schema_loop_distinct _ [] [] Hdistinct) as Hloop.
    destruct (fold_left schema_step
                (tool_parameters (schema_of func description None)) ([], []))
      as [properties required].
    cbn [parameters_properties fst] in *. rewrite Hloop.
    cbn [schema_of tool_parameters app]. rewrite Hinf, map_map. reflexivity.
  - rewrite schema_required_names. cbn [schema_of tool_parameters]. rewrite Hinf.
    generalize (formals_without_self func) as formals.
    induction formals as [|p formals IH]; [reflexivity|].
    cbn [map]. destruct (formal_default p) eqn:E.
    + rewrite filter_cons_False by (cbn; rewrite E; discriminate).
      rewrite (filter_cons_False (fun p => formal_default p = None))
        by (rewrite E; discriminate).
      exact IH.
    + rewrite filter_cons_True by (cbn; rewrite E; reflexivity).
      rewrite (filter_cons_True (fun p => formal_default p = None))
        by exact E.
      cbn [map]. now rewrite IH.
Qed.

Lemma inferred_schema_wire_format_witness :
  let schema :=
    to_openapi_schema (schema_of tool_with_signature "an estimate" None) in
  NoDup (map formal_name (fn_signature tool_with_signature)) /\
  parameters_properties schema =
    [ ("tier", {| prop_type := "string";
                  prop_description := "Parameter tier";
                  prop_enum := None; prop_default := None |});
      ("hours", {| prop_type := "integer";
                   prop_description := "Parameter hours";
                   prop_enum := None; prop_default := None |}) ] /\
  parameters_required schema = ["tier"].
Proof.
  cbv zeta.
  assert (Hnd : NoDup (map formal_name (fn_signature tool_with_signature))).
  { cbn. repeat (apply NoDup_cons; split;
                 [rewrite ?elem_of_cons, elem_of_nil;
                  intros Hin; repeat destruct Hin as [Hin|Hin];
                  try discriminate Hin; exact Hin|]).
    constructor. }
  split; [exact Hnd|].
  destruct (inferred_schema_wire_format tool_with_signature "an estimate" Hnd)
    as [Hprops Hreq].
  split.
  - rewrite Hprops. reflexivity.
  - rewrite Hreq. reflexivity.
Defined.

(** ** The poll loop under any service *)

Section PollEffects.
Context {W F : Type} `{PyFloat F} `{Service W F} `{JsonModule}.

#[local] Abbreviation St := (FoundryAgent W F).

Lemma same_agent_refl (s : St) : same_agent s s.
Proof. repeat split. Qed.

Lemma same_agent_trans (s1 s2 s3 : St) :
  same_agent s1 s2 -> same_agent s2 s3 -> same_agent s1 s3.
Proof.
  intros (A1 & A2 & A3 & A4 & A5) (B1 & B2 & B3 & B4 & B5).
  repeat split; congruence.
Qed.

Lemma same_agent_after_call ev w (s : St) : same_agent s (after_call ev w s).
Proof. repeat split. Qed.

Lemma for_tool_calls_state batch : forall outs (s : St),
  snd (for_tool_calls batch outs s) = s.
Proof.
  induction batch as [|tool_call rest IH]; intros outs s; [reflexivity|].
  cbn [for_tool_calls]. unfold bind. rewrite handle_tool_call_eq.
  destruct (invoke (tool_registry s) tool_call) as [e|dumped].
  - destruct (is_Exception e); [|reflexivity].
    destruct (json_dumps (error_payload e)); [reflexivity | apply IH].
  - apply IH.
Qed.

Lemma poll_effects_intro {A} thread_id the_run_id (n : nat) (m : Z)
    (s s' : St) (r : result A) (evs : list event) :
  trace s' = trace s ++ evs ->
  (fetches evs <= n)%nat -> slept evs <= m ->
  Forall (poll_event thread_id the_run_id) evs ->
  same_agent s s' ->
  poll_effects thread_id the_run_id n m s (r, s').
Proof. intros. exists evs. auto. Qed.

Lemma poll_effects_step {A B} thread_id the_run_id (n1 n2 : nat) (m1 m2 : Z)
    (s s1 : St) (r1 : result A) (r : result B * St) :
  poll_effects thread_id the_run_id n1 m1 s (r1, s1) ->
  poll_effects thread_id the_run_id n2 m2 s1 r ->
  poll_effects thread_id the_run_id (n1 + n2) (m1 + m2) s r.
Proof.
  intros (evs1 & Ht1 & Hf1 & Hs1 & He1 & Ha1) (evs2 & Ht2 & Hf2 & Hs2 & He2 & Ha2).
  cbn [snd] in Ht1, Ha1.
  exists (evs1 ++ evs2).
  split; [rewrite Ht2, Ht1; now rewrite <- app_assoc|].
  split; [rewrite fetches_app; lia|].
  split; [rewrite slept_app; lia|].
  split; [now apply Forall_app|].
  eapply same_agent_trans; eassumption.
Qed.

Lemma poll_effects_weaken {A} thread_id the_run_id (n n' : nat) (m m' : Z)
    (s : St) (r : result A * St) :
  (n <= n')%nat -> m <= m' ->
  poll_effects thread_id the_run_id n m s r ->
  poll_effects thread_id the_run_id n' m' s r.
Proof.
  intros Hn Hm (evs & Ht & Hf & Hs & He & Ha).
  exists evs. repeat split; try assumption; try apply Ha; lia.
Qed.

(** Whatever its outcome, the dispatcher makes at most one call, the
    submission, and leaves the agent itself as it was. *)
Lemma handle_tool_calls_effects thread_id the_run_id run (s : St) :
  poll_effects thread_id the_run_id 0 0 s
    (_handle_tool_calls thread_id the_run_id run s).
Proof.
  unfold _handle_tool_calls, bind, note.
  destruct (run_required_action run) as [batch|].
  - pose proof (for_tool_calls_state batch []
                  (after_call (EvHandleToolCalls the_run_id) (world s) s))
      as Hstate.
    destruct (for_tool_calls batch []
                (after_call (EvHandleToolCalls the_run_id) (world s) s))
      as [[e|outs] s1]; cbn in Hstate; subst s1.
    + apply (poll_effects_intro _ _ _ _ _ _ _ [EvHandleToolCalls the_run_id]);
        [reflexivity | cbn; lia | cbn; lia | | apply same_agent_after_call].
      constructor; [reflexivity | constructor].
    + unfold submit_tool_outputs, call. cbn [world after_call].
      destruct (agents_submit_tool_outputs thread_id the_run_id outs (world s))
        as [r w].
      apply (poll_effects_intro _ _ _ _ _ _ _
               [EvHandleToolCalls the_run_id;
                EvSubmitToolOutputs thread_id the_run_id outs]);
        [cbn; now rewrite <- app_assoc | cbn; lia | cbn; lia | |
         repeat split].
      constructor; [reflexivity|].
      constructor; [cbn; auto | constructor].
  - apply (poll_effects_intro _ _ _ _ _ _ _ [EvHandleToolCalls the_run_id]);
      [reflexivity | cbn; lia | cbn; lia | | apply same_agent_after_call].
    constructor; [reflexivity | constructor].
Qed.

Lemma fetch_effects thread_id the_run_id (s : St) (r : result Run) (w : W) :
  poll_effects thread_id the_run_id 1 0 s
    (r, after_call (EvGetRun thread_id the_run_id) w s).
Proof.
  apply (poll_effects_intro _ _ _ _ _ _ _ [EvGetRun thread_id the_run_id]);
    [reflexivity | cbn; lia | cbn; lia | | apply same_agent_after_call].
  constructor; [cbn; auto | constructor].
Qed.

Lemma sleep_effects thread_id the_run_id (s : St) :
  poll_effects thread_id the_run_id 0 1 s (sleep poll_interval s).
Proof.
  apply (poll_effects_intro _ _ _ _ _ _ _ [EvSleep poll_interval]);
    [reflexivity | cbn; lia | cbn; unfold poll_interval; lia | |
     apply same_agent_after_call].
  constructor; [reflexivity | constructor].
Qed.

Lemma poll_loop_effects thread_id the_run_id timeout (n : nat) :
  forall elapsed (s : St),
    Z.to_nat (timeout - elapsed) = n ->
    poll_effects thread_id the_run_id n (Z.of_nat n) s
      (poll_loop thread_id the_run_id timeout elapsed s).
Proof.
  induction n as [|n IH]; intros elapsed s Hn; rewrite poll_loop_iteration.
  - destruct (decide (elapsed < timeout)); [lia|].
    apply (poll_effects_intro _ _ _ _ _ _ _ []);
      [now rewrite app_nil_r | cbn; lia | cbn; lia | constructor |
       apply same_agent_refl].
  - destruct (decide (elapsed < timeout)); [|lia].
    unfold bind at 1, get_run, call.
    destruct (agents_get_run thread_id the_run_id (world s)) as [[e|run] w1].
    { eapply poll_effects_weaken; [| |apply fetch_effects]; lia. }
    set (s1 := after_call (EvGetRun thread_id the_run_id) w1 s).
    destruct (bool_decide (run_status run ∈ terminal_statuses)).
    { eapply poll_effects_weaken; [| |apply fetch_effects]; lia. }
    apply (poll_effects_weaken _ _ (1 + (0 + (0 + n))) _
             (0 + (0 + (1 + Z.of_nat n)))); [lia | lia |].
    apply (poll_effects_step _ _ _ _ _ _ s s1 (inr run));
      [apply fetch_effects|].
    unfold bind at 1.
    assert (Hstep : poll_effects thread_id the_run_id 0 0 s1
      ((if bool_decide (run_status run = RunStatus.REQUIRES_ACTION)
        then _handle_tool_calls thread_id the_run_id run
        else ret tt) s1)).
    { destruct (bool_decide _).
      - apply handle_tool_calls_effects.
      - apply (poll_effects_intro _ _ _ _ _ _ _ []);
          [now rewrite app_nil_r | cbn; lia | cbn; lia | constructor |
           apply same_agent_refl]. }
    destruct ((if bool_decide (run_status run = RunStatus.REQUIRES_ACTION)
               then _handle_tool_calls thread_id the_run_id run
               else ret tt) s1) as [[e|[]] s2].
    { eapply poll_effects_weaken; [| |exact Hstep]; lia. }
    apply (poll_effects_step _ _ _ _ _ _ s1 s2 (inr tt)); [exact Hstep|].
    unfold bind at 1.
    pose proof (sleep_effects thread_id the_run_id s2) as Hsleep.
    destruct (sleep poll_interval s2) as [[e|[]] s3] eqn:Esleep.
    { discriminate Esleep. }
    apply (poll_effects_step _ _ _ _ _ _ s2 s3 (inr tt)); [exact Hsleep|].
    apply IH.
    unfold poll_interval. lia.
Qed.

(** The poll loop under any service.  Whatever the service answers and
    however the loop ends, [_poll_run_completion] performs at most [timeout]
    status fetches and sleeps at most [timeout] seconds (none for a timeout
    that is not positive); the only calls it makes are fetches of the given
    run, submissions of tool outputs for it and sleeps of [poll_interval];
    and it leaves the status, the agent, the metrics and the registry as
    they were. *)
Theorem poll_makes_bounded_calls thread_id the_run_id (s : St) :
  exists evs,
    trace (snd (_poll_run_completion thread_id the_run_id s))
      = trace s ++ evs /\
    Z.of_nat (fetches evs) <= Z.max 0 (config_agent_timeout_seconds s) /\
    slept evs <= Z.max 0 (config_agent_timeout_seconds s) /\
    Forall (poll_event thread_id the_run_id) evs /\
    same_agent s (snd (_poll_run_completion thread_id the_run_id s)).
Proof.
  unfold _poll_run_completion, bind, gets.
  destruct (poll_loop_effects thread_id the_run_id
              (config_agent_timeout_seconds s)
              (Z.to_nat (config_agent_timeout_seconds s - 0)) 0 s eq_refl)
    as (evs & Ht & Hf & Hs & He & Ha).
  exists evs. split; [exact Ht|]. split; [lia|]. split; [lia|].
  split; [exact He | exact Ha].
Qed.

End PollEffects.

Section PollScript.
Context {W F : Type} `{PyFloat F} `{Service W F} `{JsonModule}.

#[local] Abbreviation St := (FoundryAgent W F).

Variables thread_id the_run_id : string.
Variable final : result Run.
Variable script : nat -> W -> Prop.

Hypothesis final_ends : ends_poll final.
Hypothesis script_last :
  forall w, script 0 w ->
    exists w', agents_get_run thread_id the_run_id w = (final, w').
Hypothesis script_next :
  forall k w, script (S k) w ->
    exists run w',
      agents_get_run thread_id the_run_id w = (inr run, w') /\
      (run_status run ∉ terminal_statuses) /\
      run_status run <> RunStatus.REQUIRES_ACTION /\
      script k (asyncio_sleep poll_interval w').

Lemma poll_loop_script timeout (k : nat) : forall elapsed (s : St),
  script k (world s) ->
  elapsed + Z.of_nat k < timeout ->
  exists s',
    poll_loop thread_id the_run_id timeout elapsed s = (final, s') /\
    trace s' =
      trace s ++
      concat (replicate k [EvGetRun thread_id the_run_id;
                           EvSleep poll_interval]) ++
      [EvGetRun thread_id the_run_id] /\
    same_agent s s'.
Proof.
  induction k as [|k IH]; intros elapsed s Hscript Hlt;
    rewrite poll_loop_iteration;
    (destruct (decide (elapsed < timeout)); [|lia]);
    unfold bind at 1, get_run, call.
  - destruct (script_last _ Hscript) as (w' & ->).
    exists (after_call (EvGetRun thread_id the_run_id) w' s).
    split; [|split; [reflexivity | apply same_agent_after_call]].
    destruct final as [e|run]; [reflexivity|].
    cbn in final_ends. now rewrite bool_decide_eq_true_2.
  - destruct (script_next _ _ Hscript) as (run & w' & -> & Hnt & Hna & Hnext).
    rewrite bool_decide_eq_false_2 by exact Hnt.
    rewrite bool_decide_eq_false_2 by exact Hna.
    unfold bind at 1, ret. unfold bind at 1, sleep.
    set (s1 := after_call (EvSleep poll_interval)
                 (asyncio_sleep poll_interval
                    (world (after_call (EvGetRun thread_id the_run_id) w' s)))
                 (after_call (EvGetRun thread_id the_run_id) w' s)).
    destruct (IH (elapsed + poll_interval) s1) as (s' & Hrun & Htrace & Hsame).
    { exact Hnext. }
    { unfold poll_interval. lia. }
    exists s'. split; [exact Hrun|]. split.
    + rewrite Htrace. cbn [trace s1 after_call replicate concat].
      rewrite <- !app_assoc. reflexivity.
    + eapply same_agent_trans; [|exact Hsame]. repeat split.
Qed.

(** Early exit.  When the first [k] fetches show a status that is neither
    terminal nor [REQUIRES_ACTION] and fetch [k+1] raises or shows a
    terminal status, with [k] below the timeout, [_poll_run_completion]
    ends with exactly that outcome: the run, or the exception of the fetch,
    which is not retried.  It has then made [k+1] fetches separated by [k]
    sleeps of [poll_interval], and nothing else. *)
Theorem poll_ends_at_first_terminal_or_failed_fetch (k : nat) (s : St) :
  script k (world s) ->
  Z.of_nat k < config_agent_timeout_seconds s ->
  exists s',
    _poll_run_completion thread_id the_run_id s = (final, s') /\
    trace s' =
      trace s ++
      concat (replicate k [EvGetRun thread_id the_run_id;
                           EvSleep poll_interval]) ++
      [EvGetRun thread_id the_run_id] /\
    same_agent s s'.
Proof.
  intros Hscript Hlt. unfold _poll_run_completion, bind, gets.
  apply poll_loop_script; [exact Hscript | lia].
Qed.

End PollScript.

Lemma sim_script_last final w :
  sim_script final 0 w ->
  exists w', sim_get_run "thread_1" "run_1" w = (final, w').
Proof.
  unfold sim_script, sim_get_run. cbn. intros ->. eexists. reflexivity.
Qed.

Lemma sim_script_next final k w :
  sim_script final (S k) w ->
  exists run w',
    sim_get_run "thread_1" "run_1" w = (inr run, w') /\
    (run_status run ∉ terminal_statuses) /\
    run_status run <> RunStatus.REQUIRES_ACTION /\
    sim_script final k (sim_tick poll_interval w').
Proof.
  unfold sim_script, sim_get_run. cbn. intros ->.
  eexists. eexists. split; [reflexivity|].
  split; [|split; [discriminate | reflexivity]].
  cbn. intros Hin. apply (bool_decide_pack _) in Hin.
  vm_compute in Hin. exact Hin.
Qed.

Lemma poll_ends_at_failed_fetch_witness :
  let w := sim_world [ inr (sim_run RunStatus.IN_PROGRESS);
                       inr (sim_run RunStatus.IN_PROGRESS);
                       inl sim_unavailable ]
                     (inr (sim_run RunStatus.COMPLETED)) in
  let s := sim_agent 10 sim_created_agent sim_registry w in
  ends_poll (inl sim_unavailable) /\
  sim_script (inl sim_unavailable) 2 (world s) /\
  2 < config_agent_timeout_seconds s /\
  exists s',
    @_poll_run_completion _ _ sim_service sim_json "thread_1" "run_1" s
      = (inl sim_unavailable, s') /\
    trace s' =
      [ EvGetRun "thread_1" "run_1"; EvSleep 1;
        EvGetRun "thread_1" "run_1"; EvSleep 1;
        EvGetRun "thread_1" "run_1" ].
Proof.
  cbv zeta. split; [exact I|]. split; [reflexivity|]. split; [cbn; lia|].
  destruct (@poll_ends_at_first_terminal_or_failed_fetch
              _ _ sim_service sim_json "thread_1" "run_1"
              (inl sim_unavailable) (sim_script (inl sim_unavailable))
              I (sim_script_last _) (sim_script_next _) 2%nat
              (sim_agent 10 sim_created_agent sim_registry
                 (sim_world [ inr (sim_run RunStatus.IN_PROGRESS);
                              inr (sim_run RunStatus.IN_PROGRESS);
                              inl sim_unavailable ]
                            (inr (sim_run RunStatus.COMPLETED)))))
    as (s' & Hrun & Htrace & _).
  - reflexivity.
  - cbn. lia.
  - exists s'. split; [exact Hrun|]. rewrite Htrace. reflexivity.
Defined.

(** ** The dispatcher, request by request *)

Section DispatchRequests.
Context {W F : Type} `{PyFloat F} `{Service W F} `{JsonModule}.

#[local] Abbreviation St := (FoundryAgent W F).

Hypothesis dumps_ok : dumps_error_objects.
Hypothesis json_ok : json_raises_exceptions_only.

(** Outputs by position.  Let the parser, the serialiser and the handlers
    raise instances of [Exception] only.  The one submission call of the
    dispatcher then carries, at the position of a request: the dumped
    return value of the handler, when the arguments parse to an object the
    registered handler accepts and the return value can be dumped; and,
    when the arguments parse to a JSON value that is not an object, the
    dumped error object whose message is the interpreter's
    "<callee>() argument after ** must be a mapping, not <type>".  In the
    second case the output is fixed by the name of the handler and the type
    of the arguments: the handler is not entered, so what it would return
    or raise plays no part. *)
Theorem dispatch_output_at_position
    thread_id the_run_id run batch (s : St) (i : nat) tool_call :
  handlers_raise_exceptions_only (tool_registry s) ->
  run_required_action run = Some batch ->
  batch !! i = Some tool_call ->
  exists outs,
    trace (snd (_handle_tool_calls thread_id the_run_id run s)) =
      trace s ++ [EvHandleToolCalls the_run_id;
                  EvSubmitToolOutputs thread_id the_run_id outs] /\
    (forall kwargs tool v dumped,
       json_loads (call_function_arguments tool_call) = inr (PDict kwargs) ->
       _tools (tool_registry s) !! call_function_name tool_call = Some tool ->
       fn_call tool kwargs = inr v ->
       json_dumps v = inr dumped ->
       outs !! i = Some (tool_output_of tool_call dumped)) /\
    (forall arguments tool,
       json_loads (call_function_arguments tool_call) = inr arguments ->
       (forall kwargs, arguments <> PDict kwargs) ->
       _tools (tool_registry s) !! call_function_name tool_call = Some tool ->
       exists dumped,
         json_dumps
           (PDict [("error",
                    PStr (fn_qualname tool +:+
                          "() argument after ** must be a mapping, not " +:+
                          type_name arguments))]) = inr dumped /\
         outs !! i = Some (tool_output_of tool_call dumped)).
Proof.
  intros Hhandlers Hbatch Hi.
  destruct (handle_tool_calls_batch dumps_ok json_ok thread_id the_run_id
              run batch s Hhandlers Hbatch) as (outs & Hans & Hrun).
  exists outs. split.
  { rewrite Hrun. unfold submit_tool_outputs, call.
    cbn [world after_call].
    destruct (agents_submit_tool_outputs thread_id the_run_id outs (world s)).
    cbn. now rewrite <- app_assoc. }
  destruct (Forall2_lookup_l _ _ _ _ _ Hans Hi) as (out & Hout & Hid & Hpay).
  unfold invoke in Hpay.
  split.
  - intros kwargs tool v dumped Hargs Htool Hv Hd.
    rewrite Hargs, (execute_tool_found _ _ _ _ Htool) in Hpay.
    cbn in Hpay. rewrite Hv, Hd in Hpay.
    rewrite Hout. f_equal. destruct out. cbn in *. now subst.
  - intros arguments tool Hargs Hnot Htool.
    rewrite Hargs, (execute_tool_found _ _ _ _ Htool) in Hpay.
    cbn [fst] in Hpay.
    assert (Hcall : call_with_kwargs tool arguments
                    = inl (TypeError
                             (fn_qualname tool +:+
                              "() argument after ** must be a mapping, not "
                              +:+ type_name arguments))).
    { destruct arguments; try reflexivity. now destruct (Hnot d). }
    rewrite Hcall in Hpay. cbn [exn_str TypeError] in Hpay.
    exists (output out). split; [exact Hpay|].
    rewrite Hout. f_equal. destruct out. cbn in *. now subst.
Qed.

End DispatchRequests.

Lemma dispatch_output_at_position_witness :
  let s := sim_agent 10 sim_created_agent sim_registry
             (sim_world [] (inr sim_array_run)) in
  let r := @_handle_tool_calls _ _ sim_service sim_json
             "thread_1" "run_1" sim_array_run s in
  handlers_raise_exceptions_only (tool_registry s) /\
  run_required_action sim_array_run = Some sim_array_batch /\
  _tools (tool_registry s) !! "lookup" = Some tool_first /\
  (exists outs,
     trace (snd r) =
       trace s ++ [EvHandleToolCalls "run_1";
                   EvSubmitToolOutputs "thread_1" "run_1" outs] /\
     outs !! 0%nat = Some {| tool_call_id := "call_1"; output := "1" |}) /\
  (exists outs,
     trace (snd r) =
       trace s ++ [EvHandleToolCalls "run_1";
                   EvSubmitToolOutputs "thread_1" "run_1" outs] /\
     outs !! 1%nat =
     Some {| tool_call_id := "call_2";
             output :=
               sim_error_text
                 "crm.lookup() argument after ** must be a mapping, not list"
          |}).
Proof.
  cbv zeta.
  assert (Htool : _tools sim_registry !! "lookup" = Some tool_first)
    by (vm_compute; reflexivity).
  split; [exact sim_handlers_raise_exceptions_only|].
  split; [reflexivity|]. split; [exact Htool|].
  split.
  - destruct (@dispatch_output_at_position _ _ sim_service sim_json
                sim_dumps_error_objects sim_json_raises_exceptions_only
                "thread_1" "run_1" sim_array_run sim_array_batch
                (sim_agent 10 sim_created_agent sim_registry
                   (sim_world [] (inr sim_array_run)))
                0%nat
                {| call_id := "call_1"; call_function_name := "lookup";
                   call_function_arguments := "{}" |}
                sim_handlers_raise_exceptions_only eq_refl eq_refl)
      as (outs & Htrace & Hgood & _).
    exists outs. split; [exact Htrace|].
    apply (Hgood [] tool_first (PInt 1) "1");
      [reflexivity | exact Htool | |]; reflexivity.
  - destruct (@dispatch_output_at_position _ _ sim_service sim_json
                sim_dumps_error_objects sim_json_raises_exceptions_only
                "thread_1" "run_1" sim_array_run sim_array_batch
                (sim_agent 10 sim_created_agent sim_registry
                   (sim_world [] (inr sim_array_run)))
                1%nat
                {| call_id := "call_2"; call_function_name := "lookup";
                   call_function_arguments := "[]" |}
                sim_handlers_raise_exceptions_only eq_refl eq_refl)
      as (outs & Htrace & _ & Hbad).
    exists outs. split; [exact Htrace|].
    assert (Harray : forall kwargs, PList [] <> PDict kwargs).
    { intros kwargs Heq. inversion Heq. }
    destruct (Hbad (PList []) tool_first eq_refl Harray Htool)
      as (dumped & Hdumped & Hout).
    rewrite Hout. injection Hdumped as <-. reflexivity.
Defined.

(** ** The registry: registering, then using *)

(** Round trip.  After [register(func, description, parameters)] the name
    [func.__name__] executes [func] itself (its return value or its
    exception for the given keyword arguments) and [get_schema] returns the
    schema just built; tools under other names execute as before. *)
Theorem register_then_execute (func : Callable) (description : string)
    (parameters : option (list ToolParameter)) (self : ToolRegistry)
    (kwargs : list (string * pyval)) :
  let reg := snd (register func description parameters self) in
  execute_tool (fn_name func) (PDict kwargs) reg = (fn_call func kwargs, reg) /\
  get_schema (fn_name func) reg
  = (inr (Some (schema_of func description parameters)), reg) /\
  (forall other arguments,
     other <> fn_name func ->
     fst (execute_tool other arguments reg)
     = fst (execute_tool other arguments self)).
Proof.
  cbv zeta. rewrite register_eq. cbn [snd].
  split; [|split].
  - rewrite (execute_tool_found _ _ func); [reflexivity|].
    cbn. apply lookup_insert_eq.
  - unfold get_schema, gets. cbn. now rewrite lookup_insert_eq.
  - intros other arguments Hne.
    destruct (_tools self !! other) as [tool|] eqn:Hl.
    + rewrite (execute_tool_found other arguments tool self Hl).
      rewrite (execute_tool_found other arguments tool); [reflexivity|].
      cbn. rewrite lookup_insert_ne by congruence. exact Hl.
    + rewrite (execute_tool_missing other arguments self Hl).
      rewrite execute_tool_missing; [reflexivity|].
      cbn. rewrite lookup_insert_ne by congruence. exact Hl.
Qed.

(** ** run: the successful path *)

Section RunSuccess.
Context {W F : Type} `{PyFloat F} `{Service W F} `{JsonModule}.

#[local] Abbreviation St := (FoundryAgent W F).




Lemma bind_raises {S A B} (m : M S A) (k : A -> M S B) s e s' :
  bind m k s = (inl e, s') ->
  m s = (inl e, s') \/
  exists a s1, m s = (inr a, s1) /\ k a s1 = (inl e, s').
Proof.
  unfold bind. destruct (m s) as [[e1|a] s1]; intros Hk.
  - left. injection Hk as <- <-. reflexivity.
  - right. eauto.
Qed.

Lemma call_same_agent {A} ev (op : M W A) (s : St) :
  same_agent s (snd (call ev op s)).
Proof.
  unfold call. destruct (op (world s)). apply same_agent_after_call.
Qed.

Lemma poll_run_completion_same_agent thread_id the_run_id (s : St) :
  same_agent s (snd (_poll_run_completion thread_id the_run_id s)).
Proof.
  unfold _poll_run_completion, bind, gets.
  destruct (poll_loop_effects thread_id the_run_id
              (config_agent_timeout_seconds s)
              (Z.to_nat (config_agent_timeout_seconds s - 0)) 0 s eq_refl)
    as (evs & _ & _ & _ & _ & Hsame).
  exact Hsame.
Qed.

Lemma extract_response_same_agent thread_id run (s : St) :
  same_agent s (snd (_extract_response thread_id run s)).
Proof.
  unfold _extract_response, bind, list_messages, call.
  destruct (agents_list_messages thread_id (world s)) as [[e|messages] w];
    [apply same_agent_after_call|].
  destruct messages as [|message rest]; [apply same_agent_after_call|].
  destruct (String.eqb _ _); apply same_agent_after_call.
Qed.

(** The [try] block of [run] that raises has changed nothing of the agent
    but the world and the trace. *)
Lemma run_body_raises_same_agent
    thread_id instructions the_agent start_time (s0 s1 : St) e :
  run_body thread_id instructions the_agent start_time s0 = (inl e, s1) ->
  same_agent s0 s1.
Proof.
  unfold run_body. intros Hrun.
  apply bind_raises in Hrun as [Hc | (? & a1 & Hc & Hrun)];
    pose proof (call_same_agent EvGetClient client_get_client s0) as K1;
    unfold get_client in Hc; rewrite Hc in K1; [exact K1|].
  apply bind_raises in Hrun as [Hc2 | (created & a2 & Hc2 & Hrun)];
    pose proof (call_same_agent
                  (EvCreateRun thread_id (agent_id the_agent) instructions)
                  (agents_create_run thread_id (agent_id the_agent)
                     instructions) a1) as K2;
    unfold create_run in Hc2; rewrite Hc2 in K2;
    [exact (same_agent_trans _ _ _ K1 K2)|].
  pose proof (same_agent_trans _ _ _ K1 K2) as K12.
  apply bind_raises in Hrun as [Hc3 | (polled & a3 & Hc3 & Hrun)];
    pose proof (poll_run_completion_same_agent thread_id (run_id created) a2)
      as K3;
    rewrite Hc3 in K3; [exact (same_agent_trans _ _ _ K12 K3)|].
  pose proof (same_agent_trans _ _ _ K12 K3) as K123.
  apply bind_raises in Hrun as [Hc4 | (now & a4 & Hc4 & Hrun)].
  { unfold time in Hc4. destruct (time_time (world a3)). discriminate Hc4. }
  assert (K4 : same_agent a3 a4).
  { unfold time in Hc4. destruct (time_time (world a3)).
    injection Hc4 as _ <-. apply same_agent_after_call. }
  pose proof (same_agent_trans _ _ _ K123 K4) as K1234.
  apply bind_raises in Hrun as [Hc5 | (response & a5 & Hc5 & Hrun)];
    pose proof (extract_response_same_agent thread_id polled a4) as K5;
    rewrite Hc5 in K5; [exact (same_agent_trans _ _ _ K1234 K5)|].
  pose proof (same_agent_trans _ _ _ K1234 K5) as K12345.
  apply bind_raises in Hrun as [Hc6 | (tokens_used & a6 & Hc6 & Hrun)].
  { unfold lift in Hc6. injection Hc6 as _ <-. exact K12345. }
  unfold lift in Hc6. injection Hc6 as _ <-.
  apply bind_raises in Hrun as [Hc7 | (tool_calls & a7 & Hc7 & Hrun)].
  { unfold lift in Hc7. injection Hc7 as _ <-. exact K12345. }
  discriminate Hrun.
Qed.

(** An exception that is not an [Exception], such as the cancellation of
    the task at one of the awaited service calls, is not handled by [run]:
    it leaves [run] with no run recorded and the status RUNNING. *)
Remark run_not_recorded_when_cancelled
    thread_id instructions (s s' : St) (the_agent : Agent) (e : exn) :
  agent s = Some the_agent ->
  run thread_id instructions s = (inl e, s') ->
  is_Exception e = false ->
  metrics s' = metrics s /\ status s' = AgentStatus.RUNNING.
Proof.
  intros Hagent Hrun Hbase.
  destruct (run_raises_from_body _ _ _ _ _ _ Hagent Hrun)
    as (start_time & s0 & s1 & Htime & Hbody & Hkept & Hhandler).
  rewrite Hbase in Hhandler. subst s'. split; [exact Hkept|].
  destruct (run_body_raises_same_agent _ _ _ _ _ _ _ Hbody)
    as (_ & Hstatus & _).
  rewrite Hstatus. unfold time in Htime.
  destruct (time_time (world (set_status AgentStatus.RUNNING s))).
  injection Htime as _ <-. reflexivity.
Qed.

End RunSuccess.


(** ** config.py *)

Lemma append_nil_l (s : string) : "" +:+ s = s.
Proof. reflexivity. Qed.

Lemma append_cons (a : ascii) (s t : string) :
  String a s +:+ t = String a (s +:+ t).
Proof. reflexivity. Qed.

Lemma rstrip_char_split (s : string) :
  exists k, s = rstrip_char slash s +:+ slashes k.
Proof.
  induction s as [|a s (k & IH)]; [exists 0%nat; reflexivity|].
  cbn [rstrip_char]. destruct (rstrip_char slash s) as [|b kept] eqn:E.
  - rewrite append_nil_l in IH. destruct (Ascii.eqb a slash) eqn:Ea.
    + apply Ascii.eqb_eq in Ea. subst a. exists (S k).
      rewrite append_nil_l. cbn [slashes]. f_equal. exact IH.
    + exists k. rewrite append_cons, append_nil_l. f_equal. exact IH.
  - exists k. rewrite append_cons. f_equal. exact IH.
Qed.

Lemma rstrip_char_no_trailing (s p : string) :
  rstrip_char slash s <> p +:+ String slash "".
Proof.
  revert p. induction s as [|a s IH]; intros p; cbn [rstrip_char].
  - destruct p; [rewrite append_nil_l | rewrite append_cons]; discriminate.
  - destruct (rstrip_char slash s) as [|b kept] eqn:E.
    + destruct (Ascii.eqb a slash) eqn:Ea.
      * destruct p; [rewrite append_nil_l | rewrite append_cons];
          discriminate.
      * destruct p as [|c p].
        -- rewrite append_nil_l. intros Heq. injection Heq as ->.
           rewrite Ascii.eqb_refl in Ea. discriminate Ea.
        -- rewrite append_cons.
           destruct p; [rewrite append_nil_l | rewrite append_cons];
             discriminate.
    + destruct p as [|c p].
      * rewrite append_nil_l. discriminate.
      * rewrite append_cons. intros Heq. injection Heq as _ Heq.
        exact (IH p Heq).
Qed.

Lemma rstrip_char_idempotent (s : string) :
  rstrip_char slash (rstrip_char slash s) = rstrip_char slash s.
Proof.
  induction s as [|a s IH]; [reflexivity|].
  cbn [rstrip_char]. destruct (rstrip_char slash s) as [|b kept] eqn:E.
  - destruct (Ascii.eqb a slash) eqn:Ea; [reflexivity|].
    cbn. now rewrite Ea.
  - cbn [rstrip_char] in IH |- *. rewrite IH. reflexivity.
Qed.

Lemma rstrip_char_app (s t : string) :
  rstrip_char slash (s +:+ t) =
  match rstrip_char slash t with
  | EmptyString => rstrip_char slash s
  | String b kept => s +:+ String b kept
  end.
Proof.
  induction s as [|a s IH].
  - rewrite append_nil_l. destruct (rstrip_char slash t); reflexivity.
  - rewrite append_cons. cbn [rstrip_char]. rewrite IH.
    destruct (rstrip_char slash t) as [|b kept].
    + reflexivity.
    + rewrite append_cons. destruct s; reflexivity.
Qed.

Lemma prefix_app (p rest : string) : String.prefix p (p +:+ rest) = true.
Proof.
  induction p as [|a p IH].
  - rewrite append_nil_l. now destruct rest.
  - rewrite append_cons. cbn [String.prefix].
    destruct (ascii_dec a a); [exact IH | contradiction].
Qed.

Lemma prefix_split (p s : string) :
  String.prefix p s = true -> exists rest, s = p +:+ rest.
Proof.
  revert s. induction p as [|a p IH]; intros s Hp.
  - exists s. reflexivity.
  - destruct s as [|b s]; [discriminate Hp|].
    cbn in Hp. destruct (ascii_dec a b) as [->|]; [|discriminate Hp].
    destruct (IH s Hp) as (rest & ->). exists rest. reflexivity.
Qed.

(** The endpoint validator.  [validate_endpoint] rejects, with
    [ValueError], exactly the values that do not start with "https://";
    an accepted value comes back without its trailing slashes (all of them)
    and otherwise unchanged.  The value that comes back starts with
    "https://" again, and is then accepted unchanged by a second
    validation, except when the input was "https:" followed by slashes
    only, which comes back as "https:". *)
Theorem validate_endpoint_strips_slashes (v : string) :
  (String.prefix "https://" v = false ->
   validate_endpoint v = inl (ValueError "Endpoint must use HTTPS")) /\
  (String.prefix "https://" v = true ->
   exists out k,
     validate_endpoint v = inr out /\
     v = out +:+ slashes k /\
     (forall p, out <> p +:+ String slash "") /\
     ((String.prefix "https://" out = true /\
       validate_endpoint out = inr out) \/
      (out = "https:" /\ exists j, v = "https:" +:+ slashes (S (S j))))).
Proof.
  split.
  - intros Hp. unfold validate_endpoint. now rewrite Hp.
  - intros Hp. unfold validate_endpoint at 1. rewrite Hp. cbn [negb].
    destruct (rstrip_char_split v) as (k & Hk).
    exists (rstrip_char slash v), k.
    split; [reflexivity|]. split; [exact Hk|].
    split; [apply rstrip_char_no_trailing|].
    destruct (prefix_split _ _ Hp) as (rest & Hrest).
    assert (Hout : rstrip_char slash v =
                   match rstrip_char slash rest with
                   | EmptyString => "https:"
                   | String b kept => "https://" +:+ String b kept
                   end).
    { rewrite Hrest, rstrip_char_app.
      destruct (rstrip_char slash rest); reflexivity. }
    destruct (rstrip_char slash rest) as [|b kept] eqn:E.
    + right. split; [exact Hout|].
      destruct (rstrip_char_split rest) as (j & Hj). rewrite E in Hj.
      rewrite append_nil_l in Hj. exists j. rewrite Hrest, Hj. reflexivity.
    + left. rewrite Hout. split; [apply prefix_app|].
      unfold validate_endpoint. rewrite prefix_app. cbn [negb]. f_equal.
      rewrite <- Hout. apply rstrip_char_idempotent.
Qed.

Lemma validate_endpoint_witness :
  (String.prefix "https://" "http://example.com" = false /\
   validate_endpoint "http://example.com"
   = inl (ValueError "Endpoint must use HTTPS")) /\
  (String.prefix "https://" "https://example.com//" = true /\
   exists out k,
     validate_endpoint "https://example.com//" = inr out /\
     "https://example.com//" = out +:+ slashes k /\
     (forall p, out <> p +:+ String slash "")).
Proof.
  split.
  - split; [reflexivity|].
    apply (proj1 (validate_endpoint_strips_slashes "http://example.com")).
    reflexivity.
  - split; [reflexivity|].
    destruct (proj2 (validate_endpoint_strips_slashes "https://example.com//")
                eq_refl) as (out & k & Hv & Hsplit & Hno & _).
    exists out, k. split; [exact Hv|]. split; [exact Hsplit | exact Hno].
Defined.

(** The validator's own output can fail the validator: "https://" comes
    back as "https:". *)
Example validate_endpoint_bare_scheme :
  validate_endpoint "https://" = inr "https:" /\
  validate_endpoint "https:" = inl (ValueError "Endpoint must use HTTPS").
Proof. split; reflexivity. Qed.

Lemma append_separator_inj (c : ascii) (a a' b b' : string) :
  free_of c a -> free_of c a' ->
  a +:+ String c b = a' +:+ String c b' -> a = a' /\ b = b'.
Proof.
  revert a'. induction a as [|x a IH]; intros a' Ha Ha' Heq.
  - destruct a' as [|y a'].
    + rewrite !append_nil_l in Heq. injection Heq as ->. auto.
    + rewrite append_nil_l, append_cons in Heq. injection Heq as <- _.
      destruct Ha' as [Hy _]. contradiction.
  - destruct a' as [|y a'].
    + rewrite append_nil_l, append_cons in Heq. injection Heq as -> _.
      destruct Ha as [Hx _]. contradiction.
    + rewrite !append_cons in Heq. injection Heq as -> Heq.
      destruct Ha as [_ Ha]. destruct Ha' as [_ Ha'].
      destruct (IH a' Ha Ha' Heq) as [-> ->]. auto.
Qed.

(** The connection string can be read back.  When endpoint, subscription
    and resource group contain no ";", two configurations with the same
    [connection_string] agree on all four fields it is built from. *)
Theorem connection_string_determines_fields (c1 c2 : FoundryConfig) :
  free_of ";" (azure_endpoint c1) -> free_of ";" (azure_endpoint c2) ->
  free_of ";" (azure_subscription_id c1) ->
  free_of ";" (azure_subscription_id c2) ->
  free_of ";" (azure_resource_group c1) ->
  free_of ";" (azure_resource_group c2) ->
  connection_string c1 = connection_string c2 ->
  azure_endpoint c1 = azure_endpoint c2 /\
  azure_subscription_id c1 = azure_subscription_id c2 /\
  azure_resource_group c1 = azure_resource_group c2 /\
  azure_project_name c1 = azure_project_name c2.
Proof.
  intros He1 He2 Hs1 Hs2 Hr1 Hr2 Heq. unfold connection_string in Heq.
  change (?a ++ ";" ++ ?b)%string with (a +:+ String ";" b) in Heq.
  apply append_separator_inj in Heq as [Hendpoint Heq]; [|assumption..].
  apply append_separator_inj in Heq as [Hsub Heq]; [|assumption..].
  apply append_separator_inj in Heq as [Hrg Hname]; [|assumption..].
  auto.
Qed.

Lemma connection_string_witness :
  let other :=
    {| azure_subscription_id := "sub"; azure_resource_group := "rg";
       azure_project_name := "project";
       azure_endpoint := "https://example.com";
       azure_tenant_id := Some "tenant"; azure_client_id := None;
       azure_client_secret := None |} in
  connection_string sim_config = "https://example.com;sub;rg;project" /\
  connection_string sim_config = connection_string other /\
  azure_project_name sim_config = azure_project_name other.
Proof.
  cbv zeta. split; [reflexivity|]. split; [reflexivity|].
  apply (connection_string_determines_fields sim_config
           {| azure_subscription_id := "sub"; azure_resource_group := "rg";
              azure_project_name := "project";
              azure_endpoint := "https://example.com";
              azure_tenant_id := Some "tenant"; azure_client_id := None;
              azure_client_secret := None |});
    try reflexivity;
    cbn; repeat split; discriminate.
Defined.

(** ** client.py: FoundryClientManager *)

Section ClientManagerProperties.
Context {W : Type} `{AzureSdk W}.

#[local] Abbreviation Mgr := (FoundryClientManager W).

(** The [try] block of [_get_credential] constructs the selected
    credential, stores it, and then tests it. *)
Lemma select_and_test_eq (self : Mgr) :
  let c := selected_credential (manager_config self)
             (os_getenv "MSI_ENDPOINT" (sdk_world self)) in
  select_and_test
    (get_auth_method (manager_config self)
       (os_getenv "MSI_ENDPOINT" (sdk_world self))) self =
  (construct c ;;;
   sdk (CallGetToken c management_scope)
       (credential_get_token c management_scope) ;;;
   ret c) self.
Proof.
  cbv zeta. unfold select_and_test, get_auth_method, selected_credential.
  destruct (truthy (azure_client_id (manager_config self)) &&
            truthy (azure_client_secret (manager_config self)));
    [|destruct (truthy (os_getenv "MSI_ENDPOINT" (sdk_world self)))];
    cbn [String.eqb Ascii.eqb Bool.eqb];
    unfold bind, gets, construct, bind, modify, sdk;
    cbn [manager_config];
    match goal with
    | |- context [credential_init ?c ?w] =>
        destruct (credential_init c w) as [[e|[]] w1]; reflexivity
    end.
Qed.

Lemma get_credential_uncached (self : Mgr) :
  _credential self = None ->
  let c := selected_credential (manager_config self)
             (os_getenv "MSI_ENDPOINT" (sdk_world self)) in
  _get_credential self =
  match credential_init c (sdk_world self) with
  | (inl e, w1) =>
      (inl e,
       {| manager_config := manager_config self; _client := _client self;
          _credential := None; sdk_world := w1;
          sdk_calls := sdk_calls self ++ [CallCredentialInit c] |})
  | (inr _, w1) =>
      let '(r, w2) := credential_get_token c management_scope w1 in
      (match r with inl e => inl e | inr _ => inr c end,
       {| manager_config := manager_config self; _client := _client self;
          _credential := Some c; sdk_world := w2;
          sdk_calls := sdk_calls self ++
                       [CallCredentialInit c;
                        CallGetToken c management_scope] |})
  end.
Proof.
  intros Hnone. cbv zeta. unfold _get_credential, bind at 1, gets at 1.
  rewrite Hnone. unfold bind at 1, gets at 1, try_except.
  rewrite select_and_test_eq.
  unfold bind, construct, bind, modify, sdk, ret, raise.
  destruct (credential_init _ (sdk_world self)) as [[e|[]] w1].
  - destruct (is_Exception e); now rewrite Hnone.
  - cbn [sdk_world set_credential manager_config _client _credential
         sdk_calls].
    destruct (credential_get_token _ management_scope w1) as [[e|[]] w2];
      [destruct (is_Exception e)|]; now rewrite <- app_assoc.
Qed.

(** Which credential.  A credential that [_get_credential] constructs is a
    [ClientSecretCredential] when client id and client secret are both
    non-empty (whatever the tenant id, which may be missing), else a
    [ManagedIdentityCredential] when [MSI_ENDPOINT] is set and non-empty,
    else an [AzureCliCredential]; the branch that would construct a
    [DefaultAzureCredential] is never taken.  On success the credential is
    cached and exactly two SDK calls were made: the constructor and the
    token test. *)
Theorem get_credential_selection (self self' : Mgr) (c : Credential) :
  _credential self = None ->
  _get_credential self = (inr c, self') ->
  c = selected_credential (manager_config self)
        (os_getenv "MSI_ENDPOINT" (sdk_world self)) /\
  c <> DefaultAzureCredential /\
  _credential self' = Some c /\
  sdk_calls self' =
    sdk_calls self ++ [CallCredentialInit c; CallGetToken c management_scope].
Proof.
  intros Hnone Hrun.
  rewrite (get_credential_uncached self Hnone) in Hrun. cbv zeta in Hrun.
  destruct (credential_init _ (sdk_world self)) as [[e|[]] w1];
    [discriminate Hrun|].
  destruct (credential_get_token _ management_scope w1) as [[e|[]] w2];
    [discriminate Hrun|].
  injection Hrun as <- <-.
  split; [reflexivity|]. split; [|split; reflexivity].
  unfold selected_credential.
  destruct (truthy _ && truthy _); [discriminate|].
  destruct (truthy _); discriminate.
Qed.

(** A failed token test is remembered as a success.  When the constructor
    of the selected credential succeeds and [get_token] raises,
    [_get_credential] raises that exception but has already stored the
    credential; the next [_get_credential] returns it without any SDK call,
    so the next attempt to create the client goes straight to
    [from_connection_string] with the untested credential. *)
Theorem failed_token_test_is_cached (self : Mgr) (e : exn) (w1 w2 : W) :
  let c := selected_credential (manager_config self)
             (os_getenv "MSI_ENDPOINT" (sdk_world self)) in
  _credential self = None ->
  credential_init c (sdk_world self) = (inr tt, w1) ->
  credential_get_token c management_scope w1 = (inl e, w2) ->
  exists self1,
    _get_credential self = (inl e, self1) /\
    _credential self1 = Some c /\
    _get_credential self1 = (inr c, self1) /\
    create_client_attempt self1 =
    sdk (CallFromConnectionString (connection_string (manager_config self)) c)
        (client_from_connection_string
           (connection_string (manager_config self)) c) self1.
Proof.
  intros c Hnone Hinit Htoken. subst c.
  rewrite (get_credential_uncached self Hnone). cbv zeta.
  rewrite Hinit, Htoken.
  eexists. split; [reflexivity|]. split; [reflexivity|].
  split; [reflexivity|].
  unfold create_client_attempt, try_except, bind, _get_credential, bind,
    gets, ret, raise, sdk.
  cbn [_credential manager_config sdk_world _client sdk_calls].
  destruct (client_from_connection_string _ _ w2) as [[e'|client] w3];
    [destruct (is_Exception e')|]; reflexivity.
Qed.

(** One client per manager.  Whatever the retry decorator does, once
    [get_client] has returned a client it is stored, and every later
    [get_client] returns that same client without creating anything.
    [close] forgets client and credential when a client is stored, and does
    nothing at all when none is, even if a credential is cached. *)
Theorem get_client_is_cached (self self1 : Mgr) (client : AIProjectClient) :
  manager_get_client self = (inr client, self1) ->
  _client self1 = Some client /\
  manager_get_client self1 = (inr client, self1) /\
  _client (snd (close self1)) = None /\
  _credential (snd (close self1)) = None /\
  (forall other : Mgr, _client other = None -> close other = (inr tt, other)).
Proof.
  intros Hrun.
  assert (Hstored : _client self1 = Some client).
  { unfold manager_get_client, bind at 1, gets in Hrun.
    destruct (_client self) as [cached|] eqn:Hc.
    - injection Hrun as <- <-. exact Hc.
    - unfold bind, modify, ret in Hrun.
      destruct (_create_client self) as [[e|created] s1];
        [discriminate Hrun|].
      injection Hrun as <- <-. reflexivity. }
  split; [exact Hstored|]. split; [|split; [|split]].
  - unfold manager_get_client, bind, gets. now rewrite Hstored.
  - unfold close, bind, gets, modify. now rewrite Hstored.
  - unfold close, bind, gets, modify. now rewrite Hstored.
  - intros other Hnone. unfold close, bind, gets. now rewrite Hnone.
Qed.

End ClientManagerProperties.

Lemma get_credential_selection_witness :
  let self := sim_manager (inr tt) in
  let r := @_get_credential SimSdk sim_azure_sdk self in
  _credential self = None /\
  fst r = inr sim_secret_credential /\
  sim_secret_credential <> DefaultAzureCredential /\
  _credential (snd r) = Some sim_secret_credential.
Proof.
  cbv zeta. split; [reflexivity|]. split; [reflexivity|].
  destruct (@get_credential_selection SimSdk sim_azure_sdk
              (sim_manager (inr tt))
              (snd (@_get_credential SimSdk sim_azure_sdk
                      (sim_manager (inr tt))))
              sim_secret_credential eq_refl eq_refl)
    as (_ & Hnot & Hcached & _).
  split; [exact Hnot | exact Hcached].
Defined.

Lemma failed_token_test_is_cached_witness :
  let self := sim_manager (inl sim_unavailable) in
  _credential self = None /\
  exists self1,
    @_get_credential SimSdk sim_azure_sdk self = (inl sim_unavailable, self1) /\
    @_get_credential SimSdk sim_azure_sdk self1
    = (inr sim_secret_credential, self1) /\
    fst (@create_client_attempt SimSdk sim_azure_sdk self1)
    = inr {| client_conn_str := "https://example.com;sub;rg;project";
             client_credential := sim_secret_credential |}.
Proof.
  cbv zeta. split; [reflexivity|].
  destruct (@failed_token_test_is_cached SimSdk sim_azure_sdk
              (sim_manager (inl sim_unavailable)) sim_unavailable
              (sdk_world (sim_manager (inl sim_unavailable)))
              (sdk_world (sim_manager (inl sim_unavailable)))
              eq_refl eq_refl eq_refl)
    as (self1 & Hfail & _ & Hagain & Hattempt).
  exists self1. split; [exact Hfail|]. split; [exact Hagain|].
  rewrite Hattempt. reflexivity.
Defined.

Lemma get_client_is_cached_witness :
  let self := sim_manager (inr tt) in
  let r := @manager_get_client SimSdk sim_azure_sdk self in
  (exists client, fst r = inr client /\
     @manager_get_client SimSdk sim_azure_sdk (snd r) = (inr client, snd r)) /\
  _client (snd (close (snd r))) = None.
Proof.
  cbv zeta.
  destruct (@manager_get_client SimSdk sim_azure_sdk (sim_manager (inr tt)))
    as [[e|client] self1] eqn:Hrun.
  { apply (f_equal fst) in Hrun. vm_compute in Hrun. discriminate Hrun. }
  destruct (@get_client_is_cached SimSdk sim_azure_sdk
              (sim_manager (inr tt)) self1 client Hrun)
    as (_ & Hagain & Hclosed & _).
  cbn [fst snd]. split; [|exact Hclosed].
  exists client. split; [reflexivity | exact Hagain].
Defined.

(** ** The life cycle of the agent *)

Section LifeCycleProperties.
Context {W F : Type} `{PyFloat F} `{Service W F} `{JsonModule}
        `{AgentAdmin W}.

Lemma admin_eq {A} (op : M W A) (s : AgentSession W F) :
  admin op s =
  (fst (op (world (core s))),
   set_core (set_world (snd (op (world (core s)))) (core s)) s).
Proof.
  unfold admin, in_core. destruct (op (world (core s))); reflexivity.
Qed.

Lemma in_core_get_client_eq (s : AgentSession W F) :
  in_core get_client s =
  (fst (client_get_client (world (core s))),
   set_core (after_call EvGetClient
               (snd (client_get_client (world (core s)))) (core s)) s).
Proof.
  unfold in_core, get_client, call.
  destruct (client_get_client (world (core s))); reflexivity.
Qed.

Lemma now_eq (s : AgentSession W F) :
  now s =
  (inr (fst (datetime_now (world (core s)))),
   set_core (set_world (snd (datetime_now (world (core s)))) (core s)) s).
Proof.
  unfold now, in_core. destruct (datetime_now (world (core s))); reflexivity.
Qed.

(** [create] leaves a status behind that tells how it ended: READY with
    an agent handle when it returns, FAILED when it raises an instance of
    [Exception]; in the latter case the handle of an earlier [create] stays
    in place.  An exception that is not an [Exception], such as the
    cancellation of the task while the service is awaited, leaves [create]
    with the status and the handle as they were.  The tracked threads, the
    metrics and the registry are not touched. *)
Theorem create_sets_status (s : AgentSession W F) :
  let '(r, s') := create s in
  match r with
  | inr _ =>
      status (core s') = AgentStatus.READY /\
      exists created, agent (core s') = Some created
  | inl e =>
      status (core s') =
        (if is_Exception e then AgentStatus.FAILED else status (core s)) /\
      agent (core s') = agent (core s)
  end /\
  threads s' = threads s /\
  metrics (core s') = metrics (core s) /\
  tool_registry (core s') = tool_registry (core s).
Proof.
  unfold create, try_except, bind.
  rewrite in_core_get_client_eq.
  destruct (client_get_client (world (core s))) as [[e | []] w1]; cbn.
  - destruct (is_Exception e) eqn:He; cbn; rewrite He; repeat split.
  - rewrite admin_eq. cbn.
    match goal with
    | |- context [agents_create_agent ?a ?b ?c ?d ?w] =>
        destruct (agents_create_agent a b c d w) as [[e | created] w2]
    end; cbn.
    + destruct (is_Exception e) eqn:He; cbn; rewrite He; repeat split.
    + repeat split. eauto.
Qed.

(** [cleanup] keeps the agent handle and the metrics in every case.  When
    there is no agent, or [get_client] and [delete_agent] return, it
    forgets all threads, resets the status to INITIALIZING and returns.
    When [get_client] or [delete_agent] raises, threads and status stay
    exactly as they were; an instance of [Exception] is swallowed and
    [cleanup] returns, anything else (a cancellation) leaves [cleanup] as
    it was raised. *)
Theorem cleanup_swallows_failures (s : AgentSession W F) :
  let '(r, s') := cleanup s in
  agent (core s') = agent (core s) /\
  metrics (core s') = metrics (core s) /\
  match deletion_outcome s with
  | inr _ =>
      r = inr tt /\
      threads s' = ∅ /\ status (core s') = AgentStatus.INITIALIZING
  | inl e =>
      r = (if is_Exception e then inr tt else inl e) /\
      threads s' = threads s /\ status (core s') = status (core s)
  end.
Proof.
  unfold cleanup, deletion_outcome, try_except, bind, gets.
  destruct (agent (core s)) as [the_agent |] eqn:Hagent.
  - rewrite in_core_get_client_eq.
    destruct (client_get_client (world (core s))) as [[e | []] w1]; cbn.
    + destruct (is_Exception e); cbn; rewrite Hagent; repeat split.
    + rewrite admin_eq. cbn.
      destruct (agents_delete_agent (agent_id the_agent) w1)
        as [[e | []] w2]; cbn.
      * destruct (is_Exception e); cbn; rewrite Hagent; repeat split.
      * rewrite Hagent. repeat split.
  - cbn. rewrite Hagent. repeat split.
Qed.

(** What [create_thread] does to the tracked threads. *)
Lemma create_thread_tracked metadata (s : AgentSession W F) :
  let '(r, s') := create_thread metadata s in
  match r with
  | inr thread_id =>
      exists created_at,
        threads s' =
        <[thread_id := ConversationContext_init thread_id
                         (or_empty_dict metadata) created_at]> (threads s)
  | inl _ => threads s' = threads s
  end.
Proof.
  unfold create_thread, try_except, bind.
  rewrite in_core_get_client_eq.
  destruct (client_get_client (world (core s))) as [[e | []] w1]; cbn;
    [destruct (is_Exception e); reflexivity|].
  rewrite admin_eq. cbn.
  destruct (agents_create_thread (or_empty_dict metadata) w1)
    as [[e | thread_id] w2]; cbn; [destruct (is_Exception e); reflexivity|].
  rewrite now_eq. cbn. eauto.
Qed.

(** What [add_message] does to the tracked threads. *)
Lemma add_message_tracked thread_id content role (s : AgentSession W F) :
  let '(r, s') := add_message thread_id content role s in
  match r with
  | inr _ =>
      match threads s !! thread_id with
      | Some context =>
          exists timestamp,
            threads s' =
            <[thread_id :=
                snd (context_add_message role content None timestamp
                       context)]> (threads s)
      | None => threads s' = threads s
      end
  | inl _ => threads s' = threads s
  end.
Proof.
  unfold add_message, try_except, bind.
  rewrite in_core_get_client_eq.
  destruct (client_get_client (world (core s))) as [[e | []] w1]; cbn;
    [destruct (is_Exception e); reflexivity|].
  rewrite admin_eq. cbn.
  destruct (agents_create_message thread_id role content w1)
    as [[e | message_id] w2]; cbn; [destruct (is_Exception e); reflexivity|].
  destruct (threads s !! thread_id) as [context |] eqn:Htracked; cbn.
  - rewrite now_eq. cbn. eauto.
  - reflexivity.
Qed.

Lemma history_of_insert thread_id other context (s s' : AgentSession W F) :
  threads s' = <[thread_id := context]> (threads s) ->
  history_of other s' =
  if decide (thread_id = other)
  then Some (map (fun m => (entry_role m, entry_content m))
               (ctx_messages context))
  else history_of other s.
Proof.
  intros Hthreads. unfold history_of. rewrite Hthreads.
  destruct (decide (thread_id = other)) as [-> | Hne].
  - now rewrite lookup_insert_eq.
  - now rewrite lookup_insert_ne.
Qed.

(** The local history of a thread follows the service: a message is
    recorded only after the service accepted it, then as exactly one entry
    at the end of the thread's history and of no other; a message the
    service accepted for a thread that is not tracked is recorded nowhere;
    a failure records nothing.  No truncation takes place. *)
Theorem add_message_records_accepted_messages
    thread_id content role (s : AgentSession W F) :
  let '(r, s') := add_message thread_id content role s in
  (forall other, other <> thread_id ->
     history_of other s' = history_of other s) /\
  history_of thread_id s' =
  match r with
  | inr _ => (fun history => history ++ [(role, content)])
             <$> history_of thread_id s
  | inl _ => history_of thread_id s
  end.
Proof.
  pose proof (add_message_tracked thread_id content role s) as Htracked.
  destruct (add_message thread_id content role s) as [[e | message_id] s'].
  - unfold history_of. rewrite Htracked. split; reflexivity.
  - destruct (threads s !! thread_id) as [context |] eqn:Hlookup.
    + destruct Htracked as [timestamp Hthreads]. split.
      * intros other Hne.
        rewrite (history_of_insert _ other _ s s' Hthreads).
        destruct (decide (thread_id = other)); congruence.
      * rewrite (history_of_insert _ thread_id _ s s' Hthreads).
        destruct (decide (thread_id = thread_id)); [|congruence].
        unfold history_of. rewrite Hlookup. cbn.
        now rewrite map_app.
    + unfold history_of. rewrite Htracked, Hlookup. split; reflexivity.
Qed.

(** A thread that [create_thread] returns starts with an empty history,
    also when the service handed out an identifier that was tracked
    already: the history recorded under it is dropped.  The other threads
    keep theirs, and a failure changes nothing. *)
Theorem create_thread_starts_empty metadata (s : AgentSession W F) :
  let '(r, s') := create_thread metadata s in
  match r with
  | inr thread_id =>
      history_of thread_id s' = Some [] /\
      forall other, other <> thread_id ->
        history_of other s' = history_of other s
  | inl _ => forall other, history_of other s' = history_of other s
  end.
Proof.
  pose proof (create_thread_tracked metadata s) as Htracked.
  destruct (create_thread metadata s) as [[e | thread_id] s'].
  - intros other. unfold history_of. now rewrite Htracked.
  - destruct Htracked as [created_at Hthreads]. split.
    + rewrite (history_of_insert _ thread_id _ s s' Hthreads).
      destruct (decide (thread_id = thread_id)); [reflexivity|congruence].
    + intros other Hne.
      rewrite (history_of_insert _ other _ s s' Hthreads).
      destruct (decide (thread_id = other)); congruence.
Qed.

(** Messages added to a freshly created thread are its history, in the
    order of the calls. *)
Theorem conversation_is_recorded_in_order
    metadata (s s1 s2 s3 : AgentSession W F)
    thread_id question answer asker answerer first_id second_id :
  create_thread metadata s = (inr thread_id, s1) ->
  add_message thread_id question asker s1 = (inr first_id, s2) ->
  add_message thread_id answer answerer s2 = (inr second_id, s3) ->
  history_of thread_id s3 = Some [(asker, question); (answerer, answer)].
Proof.
  intros Hcreate Hfirst Hsecond.
  pose proof (create_thread_tracked metadata s) as Ht1.
  rewrite Hcreate in Ht1. destruct Ht1 as [created_at Ht1].
  pose proof (add_message_tracked thread_id question asker s1) as Ht2.
  rewrite Hfirst, Ht1, lookup_insert_eq in Ht2. destruct Ht2 as [t2 Ht2].
  pose proof (add_message_tracked thread_id answer answerer s2) as Ht3.
  rewrite Hsecond, Ht2, lookup_insert_eq in Ht3. destruct Ht3 as [t3 Ht3].
  unfold history_of. rewrite Ht3, lookup_insert_eq. reflexivity.
Qed.

End LifeCycleProperties.

Lemma conversation_is_recorded_in_order_witness :
  let s := sim_session sim_created_agent ∅ in
  let created := @create_thread SimWorld float sim_service
                   (sim_admin (inr tt)) None s in
  let first := @add_message SimWorld float sim_service (sim_admin (inr tt))
                 "thread_1" "What is the status?" "user" (snd created) in
  let second := @add_message SimWorld float sim_service (sim_admin (inr tt))
                  "thread_1" "All systems are up." "assistant" (snd first) in
  fst created = inr "thread_1" /\
  fst first = inr "message_1" /\
  fst second = inr "message_1" /\
  history_of "thread_1" (snd second) =
  Some [("user", "What is the status?");
        ("assistant", "All systems are up.")].
Proof.
  cbv zeta. split; [reflexivity|]. split; [reflexivity|].
  split; [reflexivity|].
  set (s := sim_session sim_created_agent ∅).
  set (s1 := snd (@create_thread SimWorld float sim_service
                    (sim_admin (inr tt)) None s)).
  set (s2 := snd (@add_message SimWorld float sim_service
                    (sim_admin (inr tt))
                    "thread_1" "What is the status?" "user" s1)).
  apply (@conversation_is_recorded_in_order SimWorld float sim_service
           (sim_admin (inr tt)) None s s1 s2 _
           "thread_1" "What is the status?" "All systems are up."
           "user" "assistant" "message_1" "message_1");
    reflexivity.
Defined.

(** A deletion that fails leaves the threads tracked and the status READY,
    and [cleanup] returns as if nothing had happened. *)
Example cleanup_after_failed_deletion :
  let s := sim_session sim_created_agent
             {["thread_1" := sim_context sim_history_plain]} in
  let r := @cleanup SimWorld float sim_service
             (sim_admin (inl sim_unavailable)) s in
  fst r = inr tt /\
  threads (snd r) = threads s /\
  status (core (snd r)) = AgentStatus.READY.
Proof. cbv zeta. repeat split. Qed.

(** [run] on a service call that is cancelled: the cancellation leaves
    [run], nothing is recorded and the status stays RUNNING. *)
Example run_cancelled_at_create_run :
  let s := sim_agent 10 sim_created_agent sim_registry
             {| sim_fetches := [];
                sim_default := inr (sim_run RunStatus.COMPLETED);
                sim_created := inl (CancelledError "");
                sim_messages := inr []; sim_submit := inr tt;
                sim_clock := 0 |} in
  let r := @run _ _ sim_float sim_service sim_json "thread_1" None s in
  fst r = inl (CancelledError "") /\
  total_runs (metrics (snd r)) = 0 /\
  status (snd r) = AgentStatus.RUNNING.
Proof. cbv zeta. repeat split; vm_compute; reflexivity. Qed.
